(** * AzenFlow website: chatbot and contact-form request pipeline

    A shallow embedding of

    - [netlify/functions/chatbot-proxy.js]      (module [ChatbotProxy]),
    - [netlify/functions/contact-form-proxy.js] (module [ContactFormProxy]),
    - the chatbot widget script                 (module [ChatbotWidget]),
    - the contact form script                   (module [ContactForm]),

    followed by the properties of the request pipeline.

    Conventions of the embedding.
    - A JavaScript string is a [string]; each character stands for one
      code unit, so the model covers strings over the code units
      0..255 (the Latin-1 range).  [length], [trim], [toLowerCase] and
      the regular expression classes are those of ECMAScript on that
      range.  Message literals that the code only passes around are kept
      as they are written in the source.
    - A value produced by [JSON.parse] is a [json]; a property read
      yields [option json], [None] standing for [undefined].
    - Numbers that the code computes with (timestamps, counters, status
      codes) are integers in [Z].
    - An exception is a value of [js_error], threaded by the monad
      [completion]. *)

From Stdlib Require Import ZArith Ascii String List Bool Lia Sorted.
From stdpp Require Import gmap strings list pretty.
From Equations Require Import Equations.

(* ================================================================== *)
(** * The JavaScript fragment used by the three scripts *)
(* ================================================================== *)

Module Js.

(** ** Exceptions *)

Record js_error := mkError {
  err_name : string;          (* error.name *)
  err_is_TypeError : bool;    (* error instanceof TypeError *)
  err_message : string        (* error.message *)
}.

(** [new Error(msg)] *)
Definition Error (msg : string) : js_error :=
  {| err_name := "Error"; err_is_TypeError := false; err_message := msg |}.

(** [new TypeError(msg)] *)
Definition TypeError (msg : string) : js_error :=
  {| err_name := "TypeError"; err_is_TypeError := true; err_message := msg |}.

(** The [DOMException] raised by an aborted [fetch]. *)
Definition AbortError : js_error :=
  {| err_name := "AbortError"; err_is_TypeError := false;
     err_message := "The user aborted a request." |}.

(** The [SyntaxError] of [JSON.parse] and [response.json()]. *)
Definition SyntaxError (msg : string) : js_error :=
  {| err_name := "SyntaxError"; err_is_TypeError := false; err_message := msg |}.

(** Result of evaluating a piece of code: a value or a thrown error. *)
Inductive completion (A : Type) : Type :=
| Return (a : A)
| Throw (e : js_error).
Arguments Return {A} a.
Arguments Throw {A} e.

Definition bind {A B} (c : completion A) (k : A -> completion B) : completion B :=
  match c with
  | Return a => k a
  | Throw e => Throw e
  end.

#[global] Instance completion_ret : MRet completion := @Return.
#[global] Instance completion_bind : MBind completion := fun A B k c => bind c k.

(** ** Strings *)

(** WhiteSpace and LineTerminator code units below 256: TAB, LF, VT,
    FF, CR, SPACE and NO-BREAK SPACE.  This is the set removed by
    [String.prototype.trim] and matched by [\s]. *)
Definition isWhiteSpace (c : ascii) : bool :=
  let n := nat_of_ascii c in
  ((9 <=? n) && (n <=? 13)) || (n =? 32) || (n =? 160).

Fixpoint trimStart (s : string) : string :=
  match s with
  | EmptyString => EmptyString
  | String c s' => if isWhiteSpace c then trimStart s' else s
  end.

Fixpoint trimEnd (s : string) : string :=
  match s with
  | EmptyString => EmptyString
  | String c s' =>
      match trimEnd s' with
      | EmptyString => if isWhiteSpace c then EmptyString else String c EmptyString
      | t => String c t
      end
  end.

(** [s.trim()] *)
Definition trim (s : string) : string := trimEnd (trimStart s).

(** [s.length] *)
Definition strlen (s : string) : nat := String.length s.

(** Lower-casing of one code unit of the Latin-1 range: A-Z, and the
    upper-case letters U+00C0..U+00DE except the multiplication sign
    U+00D7, move up by 32. *)
Definition lowerChar (c : ascii) : ascii :=
  let n := nat_of_ascii c in
  if ((65 <=? n) && (n <=? 90)) ||
     ((192 <=? n) && (n <=? 222) && negb (n =? 215))
  then ascii_of_nat (n + 32) else c.

(** [s.toLowerCase()], for a string of code units below 256.  That
    the result is as long as the string holds in this range only (the
    lower case of U+0130 has two code units), and nothing below relies
    on it. *)
Fixpoint toLowerCase (s : string) : string :=
  match s with
  | EmptyString => EmptyString
  | String c s' => String (lowerChar c) (toLowerCase s')
  end.

(** [s.substring(0, n)] *)
Definition substring0 (n : nat) (s : string) : string := String.substring 0 n s.

(** [hay.includes(needle)] *)
Definition includes (hay needle : string) : bool :=
  match String.index 0 needle hay with
  | Some _ => true
  | None => false
  end.

(** [s.repeat(n)] *)
Fixpoint repeat (s : string) (n : nat) : string :=
  match n with
  | O => EmptyString
  | S n' => s +:+ repeat s n'
  end.

(** [s.split(',')[0]]: the part of [s] before its first comma. *)
Fixpoint split_comma_0 (s : string) : string :=
  match s with
  | EmptyString => EmptyString
  | String c s' => if Ascii.eqb c "," then EmptyString else String c (split_comma_0 s')
  end.

(** ** Values *)

Local Unset Elimination Schemes.

(** What [JSON.parse] yields.  A number is an integer here; an object
    is the list of its entries. *)
Inductive json : Type :=
| JNull
| JBool (b : bool)
| JNum (n : Z)
| JStr (s : string)
| JArr (items : list json)
| JObj (fields : list (string * json)).

Local Set Elimination Schemes.

(** A value or [undefined]. *)
Abbreviation value := (option json).

(** ToBoolean *)
Definition truthy (v : value) : bool :=
  match v with
  | None => false
  | Some JNull => false
  | Some (JBool b) => b
  | Some (JNum n) => negb (n =? 0)%Z
  | Some (JStr s) => negb (String.eqb s "")
  | Some (JArr _) => true
  | Some (JObj _) => true
  end.

(** [typeof v === 'string'] *)
Definition is_string (v : value) : bool :=
  match v with Some (JStr _) => true | _ => false end.

(** [typeof v === 'object'] ([null] and arrays included) *)
Definition is_object (v : value) : bool :=
  match v with
  | Some JNull | Some (JArr _) | Some (JObj _) => true
  | _ => false
  end.

(** Own property of an object literal; the first binding of a key is
    the one the object holds. *)
Fixpoint field (k : string) (fs : list (string * json)) : value :=
  match fs with
  | [] => None
  | (k', v) :: fs' => if String.eqb k k' then Some v else field k fs'
  end.

(** [v.k] for a parsed value [v] and one of the property names the
    scripts read (none of which is defined on a prototype): a read on
    [null] throws, a read on a primitive or an array is [undefined]. *)
Definition get (v : json) (k : string) : completion value :=
  match v with
  | JNull =>
      Throw (TypeError ("Cannot read properties of null (reading '" +:+ k +:+ "')"))
  | JObj fs => Return (field k fs)
  | _ => Return None
  end.

(** [a || b] *)
Definition or_else (a b : value) : value := if truthy a then a else b.

(** [v === s] for a string literal [s] *)
Definition is_str (v : value) (s : string) : bool :=
  match v with Some (JStr t) => String.eqb t s | _ => false end.

(** The string held by a value that passed a [typeof v === 'string']
    or [v === 'literal'] test. *)
Definition str_of (v : value) : string :=
  match v with Some (JStr s) => s | _ => "" end.

(** [arr.slice(-n)]: the last [n] elements. *)
Definition slice_last {A} (n : nat) (l : list A) : list A :=
  drop (length l - n) l.

(** [Math.ceil(x / 1000)] for an integer [x]. *)
Definition ceil_div_1000 (x : Z) : Z := (- ((- x) / 1000))%Z.

(** [Math.min(...l)] for a non-empty array; the scripts only reach it
    with at least [max > 0] elements. *)
Definition Math_min (l : list Z) : Z :=
  match l with
  | [] => 0%Z
  | x :: xs => fold_left Z.min xs x
  end.

(** A header or configuration entry that may be missing: ToBoolean of
    [undefined] and of the empty string is false. *)
Definition present (o : option string) : bool :=
  match o with
  | Some s => negb (String.eqb s "")
  | None => false
  end.

(** The double quote character, for literals that contain it. *)
Definition dq : string := String "034"%char EmptyString.

(** ToString of a parsed value, as [RegExp.prototype.test] applies it
    to its argument.  An object is taken to hold no entry named
    [toString] of its own: such an entry is no function, and ToString
    of the object throws a TypeError, which is not followed here.  The
    contact proxy applies ToString to a value other than a string only
    after it has recorded the value as a missing or invalid field. *)
Fixpoint toString (v : json) : string :=
  match v with
  | JNull => "null"
  | JBool true => "true"
  | JBool false => "false"
  | JNum n => pretty n
  | JStr s => s
  | JArr items =>
      (fix join (l : list json) : string :=
         match l with
         | [] => ""
         | [x] => match x with JNull => "" | _ => toString x end
         | x :: rest =>
             (match x with JNull => "" | _ => toString x end) +:+ "," +:+ join rest
         end) items
  | JObj _ => "[object Object]"
  end.

(** [v.trim()], where [callee] is the text of the expression [v] in the
    script: only a string has the method. *)
Definition call_trim (callee : string) (v : value) : completion string :=
  match v with
  | Some (JStr s) => Return (trim s)
  | Some JNull =>
      Throw (TypeError "Cannot read properties of null (reading 'trim')")
  | None =>
      Throw (TypeError "Cannot read properties of undefined (reading 'trim')")
  | _ => Throw (TypeError (callee +:+ ".trim is not a function"))
  end.

(** [v.length > n] for a truthy parsed value [v]: the length of a
    string or an array, the [length] entry of an object when that is a
    number.  An entry of another type is converted by ToNumber before
    the comparison, which is not followed here: it counts as not more
    than [n].  The contact proxy compares the length of a value other
    than a string only after it has recorded the value as a missing or
    invalid field. *)
Definition length_exceeds (v : json) (n : Z) : bool :=
  match v with
  | JStr s => (n <? Z.of_nat (strlen s))%Z
  | JArr items => (n <? Z.of_nat (length items))%Z
  | JObj fs => match field "length" fs with Some (JNum m) => (n <? m)%Z | _ => false end
  | _ => false
  end.

(** ** Regular expressions

    The fragment needed for the e-mail pattern, matched by derivatives;
    [regex_test] is [re.test(s)] for a pattern anchored at both ends. *)

Inductive regex : Type :=
| RNone
| REps
| RClass (p : ascii -> bool)
| RCat (r1 r2 : regex)
| RAlt (r1 r2 : regex)
| RStar (r : regex).

Definition RPlus (r : regex) : regex := RCat r (RStar r).
Definition RChar (c : ascii) : regex := RClass (Ascii.eqb c).

Fixpoint nullable (r : regex) : bool :=
  match r with
  | RNone => false
  | REps => true
  | RClass _ => false
  | RCat r1 r2 => nullable r1 && nullable r2
  | RAlt r1 r2 => nullable r1 || nullable r2
  | RStar _ => true
  end.

Definition rcat (r1 r2 : regex) : regex :=
  match r1 with
  | RNone => RNone
  | REps => r2
  | _ => RCat r1 r2
  end.

Definition ralt (r1 r2 : regex) : regex :=
  match r1, r2 with
  | RNone, _ => r2
  | _, RNone => r1
  | _, _ => RAlt r1 r2
  end.

Fixpoint deriv (c : ascii) (r : regex) : regex :=
  match r with
  | RNone => RNone
  | REps => RNone
  | RClass p => if p c then REps else RNone
  | RCat r1 r2 =>
      if nullable r1 then ralt (rcat (deriv c r1) r2) (deriv c r2)
      else rcat (deriv c r1) r2
  | RAlt r1 r2 => ralt (deriv c r1) (deriv c r2)
  | RStar r1 => rcat (deriv c r1) (RStar r1)
  end.

Fixpoint regex_test (r : regex) (s : string) : bool :=
  match s with
  | EmptyString => nullable r
  | String c s' => regex_test (deriv c r) s'
  end.

(** The strings a pattern denotes; [regex_test] decides this relation
    ([regex_test_spec] below). *)
Inductive matches : regex -> string -> Prop :=
| MEps : matches REps ""
| MClass p c : p c = true -> matches (RClass p) (String c "")
| MCat r1 r2 s1 s2 :
    matches r1 s1 -> matches r2 s2 -> matches (RCat r1 r2) (s1 +:+ s2)
| MAltL r1 r2 s : matches r1 s -> matches (RAlt r1 r2) s
| MAltR r1 r2 s : matches r2 s -> matches (RAlt r1 r2) s
| MStar0 r : matches (RStar r) ""
| MStarS r s1 s2 :
    matches r s1 -> matches (RStar r) s2 -> matches (RStar r) (s1 +:+ s2).

(** Every code unit of [s] satisfies [p]. *)
Fixpoint all_chars (p : ascii -> bool) (s : string) : bool :=
  match s with
  | EmptyString => true
  | String c s' => p c && all_chars p s'
  end.

End Js.


(* ================================================================== *)
(** * netlify/functions/chatbot-proxy.js *)
(* ================================================================== *)

Module ChatbotProxy.
Import Js.
Local Open Scope Z_scope.

(** [CONFIG]: the entries read from the environment.  The two literal
    entries follow as constants. *)
Record config := {
  N8N_WEBHOOK_URL : option string;
  N8N_WEBHOOK_SECRET : option string;
  RATE_LIMIT_PER_MINUTE : Z;
  REQUEST_TIMEOUT : Z
}.

Definition MAX_MESSAGE_LENGTH : nat := 500.
Definition MAX_HISTORY_LENGTH : nat := 5.

(** The configuration when the environment sets only the web hook. *)
Definition default_config (url secret : string) : config :=
  {| N8N_WEBHOOK_URL := Some url; N8N_WEBHOOK_SECRET := Some secret;
     RATE_LIMIT_PER_MINUTE := 10; REQUEST_TIMEOUT := 30000 |}.

(** An entry of [rateLimitStore]. *)
Record entry := { count : Z; timestamp : Z }.

(** [rateLimitStore]: a [Map] from IP to entry.  The two readings of
    [Date.now()] during one synchronous check are the same instant
    [now]. *)
Definition cleanupRateLimitStore (now : Z) (store : gmap string entry)
  : gmap string entry :=
  let oneMinuteAgo := now - 60000 in
  filter (fun kd => ¬ (timestamp kd.2 < oneMinuteAgo)) store.

Section WithConfig.
Variable CONFIG : config.

Definition checkRateLimit (now : Z) (ip : string) (store : gmap string entry)
  : gmap string entry * bool :=
  let store := cleanupRateLimitStore now store in
  let oneMinuteAgo := now - 60000 in
  match store !! ip with
  | None => (<[ip := {| count := 1; timestamp := now |}]> store, true)
  | Some data =>
      if timestamp data <? oneMinuteAgo then
        (<[ip := {| count := 1; timestamp := now |}]> store, true)
      else if count data >=? RATE_LIMIT_PER_MINUTE CONFIG then
        (store, false)
      else
        (<[ip := {| count := count data + 1; timestamp := now |}]> store, true)
  end.

(** The [data] of a successful validation. *)
Record chat_data := {
  d_message : string;
  d_language : string;
  d_sessionId : string;
  d_history : list json
}.

Inductive validation :=
| Invalid (error : string)
| Valid (data : chat_data).

Definition err_message_required : string :=
  "Message is required and must be a string".
Definition err_message_too_long : string :=
  "Message too long (max " +:+ pretty (Z.of_nat MAX_MESSAGE_LENGTH) +:+ " characters)".
Definition err_message_empty : string := "Message cannot be empty".
Definition err_language : string :=
  "Language must be " +:+ dq +:+ "ja" +:+ dq +:+ " or " +:+ dq +:+ "en" +:+ dq.
Definition err_session : string := "Session ID is required".
Definition err_history_format : string := "Invalid history format".
Definition err_history_role : string :=
  "History role must be " +:+ dq +:+ "user" +:+ dq +:+ " or " +:+ dq +:+ "assistant" +:+ dq.

(** The errors that [validateInput] reports about [message]. *)
Definition message_errors : list string :=
  [err_message_required; err_message_too_long; err_message_empty].

(** The [for (const item of history)] loop: the error of the first
    offending item, if any. *)
Fixpoint validateHistory (history : list json) : completion (option string) :=
  match history with
  | [] => Return None
  | item :: rest =>
      role ← get item "role";
      if negb (truthy role) then Return (Some err_history_format) else
      content ← get item "content";
      if negb (truthy content) || negb (is_string role) || negb (is_string content)
      then Return (Some err_history_format)
      else if negb (is_str role "user" || is_str role "assistant")
      then Return (Some err_history_role)
      else validateHistory rest
  end.

(** [history]: the last entries of [body.history] when that is an
    array, and [[]] otherwise. *)
Definition history_window (hist : value) : list json :=
  match hist with
  | Some (JArr items) => slice_last MAX_HISTORY_LENGTH items
  | _ => []
  end.

Definition validateInput (body : json) : completion validation :=
  if negb (truthy (Some body)) || negb (is_object (Some body)) then
    Return (Invalid "Invalid request format")
  else
  message ← get body "message";
  if negb (truthy message) || negb (is_string message) then
    Return (Invalid err_message_required)
  else
  language ← get body "language";
  if negb (truthy language) || negb (is_str language "ja" || is_str language "en") then
    Return (Invalid err_language)
  else
  sessionId ← get body "sessionId";
  if negb (truthy sessionId) || negb (is_string sessionId) then
    Return (Invalid err_session)
  else
  if (MAX_MESSAGE_LENGTH <? strlen (str_of message))%nat then
    Return (Invalid err_message_too_long)
  else
  if (strlen (trim (str_of message)) =? 0)%nat then
    Return (Invalid err_message_empty)
  else
  hist ← get body "history";
  let history := history_window hist in
  bad ← validateHistory history;
  match bad with
  | Some error => Return (Invalid error)
  | None =>
      Return (Valid {| d_message := trim (str_of message);
                       d_language := str_of language;
                       d_sessionId := str_of sessionId;
                       d_history := history |})
  end.

(** What the web hook call comes to: the status and parsed body of
    the response once it has ended, a transport error, the
    request timeout, or a configured URL that [new URL] rejects. *)
Inductive webhook_outcome :=
| WebhookResponse (status : Z) (parsed : option json)
| WebhookError
| WebhookTimeout
| WebhookInvalidUrl.

(** [callN8nWebhook]; [Throw] stands for a rejected promise. *)
Definition callN8nWebhook (net : webhook_outcome) (data : chat_data)
  : completion json :=
  if negb (present (N8N_WEBHOOK_URL CONFIG)) then
    Throw (Error "N8N_WEBHOOK_URL not configured")
  else
    match net with
    | WebhookInvalidUrl => Throw (TypeError "Invalid URL")
    | WebhookResponse status parsed =>
        if (200 <=? status) && (status <? 300) then
          match parsed with
          | Some parsedData => Return parsedData
          | None => Throw (Error "Invalid response from AI service")
          end
        else Throw (Error ("AI service returned error: " +:+ pretty status))
    | WebhookError => Throw (Error "Failed to connect to AI service")
    | WebhookTimeout => Throw (Error "AI service timeout")
    end.

Definition CORS_HEADERS : list (string * string) :=
  [ ("Access-Control-Allow-Origin", "*");
    ("Access-Control-Allow-Headers", "Content-Type, Accept");
    ("Access-Control-Allow-Methods", "POST, OPTIONS");
    ("Content-Type", "application/json") ].

(** [event.body] by what [JSON.parse] makes of it: missing or empty
    (falsy), a non-empty text that is not JSON, or a non-empty text
    that parses to [j]. *)
Inductive body_text :=
| NoBody
| Unparseable
| Parses (j : json).

Record event := {
  httpMethod : string;
  headers : gmap string string;
  body : body_text
}.

(** The response [body]: the empty string or [JSON.stringify] of a
    value. *)
Inductive http_body :=
| EmptyBody
| JsonBody (j : json).

Record response := {
  statusCode : Z;
  resp_headers : list (string * string);
  resp_body : http_body
}.

Definition bilingual (ja en : string) : json :=
  JObj [("ja", JStr ja); ("en", JStr en)].

Definition error_body (error : string) (message : json) : http_body :=
  JsonBody (JObj [("error", JStr error); ("message", message)]).

(** [event.headers['x-forwarded-for']?.split(',')[0]?.trim() ||
     event.headers['client-ip'] || 'unknown'] *)
Definition clientIp (ev : event) : string :=
  let forwarded := (fun h => trim (split_comma_0 h)) <$> (headers ev !! "x-forwarded-for") in
  if present forwarded then default "" forwarded
  else if present (headers ev !! "client-ip") then default "" (headers ev !! "client-ip")
  else "unknown".

(** [JSON.parse(event.body || '{}')] *)
Definition parse_body (b : body_text) : completion json :=
  match b with
  | NoBody => Return (JObj [])
  | Unparseable => Throw (SyntaxError "Unexpected token")
  | Parses j => Return j
  end.

(** The [catch] of the handler: the response for an error thrown
    while the request was processed. *)
Definition error_response (error : js_error) : response :=
  let '(statusCode, errorMessage) :=
    if includes (err_message error) "timeout" then
      (504, bilingual "応答に時間がかかっています。後でお試しください。"
                      "Response is taking too long. Please try again later.")
    else if includes (err_message error) "connect" then
      (503, bilingual "接続エラーが発生しました。後でお試しください。"
                      "Connection error occurred. Please try again later.")
    else if includes (err_message error) "not configured" then
      (500, bilingual "サービス設定エラー。管理者に連絡してください。"
                      "Service configuration error. Please contact administrator.")
    else
      (500, bilingual "申し訳ございません。後でお試しください。"
                      "Sorry, please try again later.") in
  {| statusCode := statusCode; resp_headers := CORS_HEADERS;
     resp_body := error_body "server_error" errorMessage |}.

(** [exports.handler]: the store after the invocation and the
    response. *)
Definition handler (now : Z) (net : webhook_outcome)
    (store : gmap string entry) (ev : event)
  : gmap string entry * response :=
  if String.eqb (httpMethod ev) "OPTIONS" then
    (store, {| statusCode := 200; resp_headers := CORS_HEADERS; resp_body := EmptyBody |})
  else if negb (String.eqb (httpMethod ev) "POST") then
    (store, {| statusCode := 405; resp_headers := CORS_HEADERS;
               resp_body := error_body "Method not allowed"
                              (JStr "Only POST requests are accepted") |})
  else
    let '(store, admitted) := checkRateLimit now (clientIp ev) store in
    if negb admitted then
      (store, {| statusCode := 429; resp_headers := CORS_HEADERS;
                 resp_body := error_body "rate_limit_exceeded"
                   (bilingual "しばらくお待ちください。リクエストが多すぎます。"
                              "Please wait a moment. Too many requests.") |})
    else
      match parse_body (body ev) with
      | Throw _ =>
          (store, {| statusCode := 400; resp_headers := CORS_HEADERS;
                     resp_body := error_body "invalid_json"
                                    (JStr "Invalid JSON in request body") |})
      | Return body =>
          match (validation ← validateInput body;
                 match validation with
                 | Invalid error =>
                     Return {| statusCode := 400; resp_headers := CORS_HEADERS;
                               resp_body := error_body "validation_error" (JStr error) |}
                 | Valid data =>
                     response ← callN8nWebhook net data;
                     Return {| statusCode := 200; resp_headers := CORS_HEADERS;
                               resp_body := JsonBody response |}
                 end) with
          | Return r => (store, r)
          | Throw error => (store, error_response error)
          end
      end.

End WithConfig.

(** The 429 response of the handler, by name. *)
Definition too_many_requests : response :=
  {| statusCode := 429; resp_headers := CORS_HEADERS;
     resp_body := error_body "rate_limit_exceeded"
       (bilingual "しばらくお待ちください。リクエストが多すぎます。"
                  "Please wait a moment. Too many requests.") |}.

(** The two 400 responses of the handler, by name. *)
Definition bad_request (error message : string) : response :=
  {| statusCode := 400; resp_headers := CORS_HEADERS;
     resp_body := error_body error (JStr message) |}.

(** One caller's successive requests, at the given times: the store
    they leave and the verdict of each. *)
Fixpoint checkRateLimits (CONFIG : config) (ip : string) (times : list Z)
    (store : gmap string entry) : gmap string entry * list bool :=
  match times with
  | [] => (store, [])
  | now :: rest =>
      let '(store, verdict) := checkRateLimit CONFIG now ip store in
      let '(store, verdicts) := checkRateLimits CONFIG ip rest store in
      (store, verdict :: verdicts)
  end.

(** The status codes the handler answers with. *)
Definition status_codes : list Z := [200; 400; 405; 429; 500; 503; 504].

(** An entry of [history] as the proxy forwards it: an object whose
    role is user or assistant and whose content is a non-empty string. *)
Definition forwarded_turn (item : json) : Prop :=
  exists fs role content,
    item = JObj fs
    /\ field "role" fs = Some (JStr role) /\ (role = "user" \/ role = "assistant")
    /\ field "content" fs = Some (JStr content) /\ content <> "".

(** The times of the requests that were admitted. *)
Definition admitted (times : list Z) (verdicts : list bool) : list Z :=
  omap (fun '(now, verdict) => if verdict : bool then Some now else None)
       (zip times verdicts).

End ChatbotProxy.

(* ================================================================== *)
(** * netlify/functions/contact-form-proxy.js *)
(* ================================================================== *)

Module ContactFormProxy.
Import Js.
Local Open Scope Z_scope.

(** [CONFIG]: the two entries read from the environment; the literal
    entries follow as constants. *)
Record config := {
  N8N_WEBHOOK_URL : option string;
  API_KEY : option string
}.

Definition RATE_LIMIT_WINDOW : Z := 60 * 60 * 1000.
Definition MAX_REQUESTS_PER_HOUR : Z := 10.
Definition REQUEST_TIMEOUT : Z := 30000.

Inductive rate_limit_check :=
| Allowed
| Denied (retryAfter : Z).

Definition allowed (c : rate_limit_check) : bool :=
  match c with Allowed => true | Denied _ => false end.

(** [rateLimitStore]: a [Map] from IP to the array of request times. *)
Definition checkRateLimit (now : Z) (ip : string) (store : gmap string (list Z))
  : gmap string (list Z) * rate_limit_check :=
  let userRequests := default [] (store !! ip) in
  let recentRequests :=
    filter (fun timestamp => now - timestamp < RATE_LIMIT_WINDOW) userRequests in
  if Z.of_nat (length recentRequests) >=? MAX_REQUESTS_PER_HOUR then
    let oldestRequest := Math_min recentRequests in
    let retryAfter := ceil_div_1000 (oldestRequest + RATE_LIMIT_WINDOW - now) in
    (store, Denied retryAfter)
  else
    (<[ip := recentRequests ++ [now]]> store, Allowed).

(** [normalizedData] *)
Record normalized := {
  n_name : value;
  n_email : value;
  n_company : value;
  n_phone : value;
  n_service : value;
  n_message : value;
  n_consent : value;
  n_language : value
}.

(** The [sanitized] record sent to the web hook. *)
Record contact_data := {
  name : string;
  email : string;
  company : string;
  phone : string;
  service : string;
  message : string;
  consent : bool;
  language : value;
  timestamp : string;
  source : string
}.

Inductive validation :=
| Invalid (errors : list string)
| Valid (data : contact_data).

(** [[^\s@]] *)
Definition not_space_at (c : ascii) : bool :=
  negb (isWhiteSpace c || Ascii.eqb c "@").

(** [/^[^\s@]+@[^\s@]+\.[^\s@]+$/] *)
Definition emailRegex : regex :=
  RCat (RPlus (RClass not_space_at))
    (RCat (RChar "@")
       (RCat (RPlus (RClass not_space_at))
          (RCat (RChar ".") (RPlus (RClass not_space_at))))).

(** The test of one entry of [requiredFields]. *)
Definition missing_or_invalid (v : value) : bool :=
  negb (truthy v) || negb (is_string v) || String.eqb (trim (str_of v)) "".

Definition allowedSources : list string := ["website-contact-form"; "pdf-download"].

(** [cond ? v.trim().substring(0, n) : ''] for an optional field. *)
Definition optional_field (callee : string) (v : value) (n : nat) : completion string :=
  if truthy v then t ← call_trim callee v; Return (substring0 n t) else Return "".

(** The first part of [validateAndSanitize]: the fields under their
    current names, with their defaults. *)
Definition normalize (data : json) : completion normalized :=
  d_name ← get data "name";
  d_firstname ← get data "firstname";
  d_email ← get data "email";
  d_company ← get data "company";
  d_phone ← get data "phone";
  d_service ← get data "service";
  d_projectType ← get data "projectType";
  d_message ← get data "message";
  d_consent ← get data "consent";
  d_language ← get data "language";
  Return
    {| n_name := or_else (or_else d_name d_firstname) (Some (JStr ""));
       n_email := or_else d_email (Some (JStr ""));
       n_company := or_else d_company (Some (JStr ""));
       n_phone := or_else d_phone (Some (JStr ""));
       n_service := or_else (or_else d_service d_projectType) (Some (JStr ""));
       n_message := or_else d_message (Some (JStr ""));
       n_consent := d_consent;
       n_language := or_else d_language (Some (JStr "ja")) |}.

(** The second part: the [errors] array. *)
Definition validation_errors (normalizedData : normalized) : list string :=
  flat_map (fun '(field, v) =>
              if missing_or_invalid v
              then ["Missing or invalid field: " +:+ field] else [])
           [("name", n_name normalizedData);
            ("email", n_email normalizedData);
            ("message", n_message normalizedData)]
  ++ (if truthy (n_email normalizedData) &&
         negb (regex_test emailRegex (default "" (toString <$> n_email normalizedData)))
      then ["Invalid email format"] else [])
  ++ (if truthy (n_message normalizedData) &&
         length_exceeds (default JNull (n_message normalizedData)) 2000
      then ["Message too long (max 2000 characters)"] else []).

(** [requestedSource] *)
Definition requested_source (d_source : value) : string :=
  if truthy d_source && existsb (fun s => is_str d_source s) allowedSources
  then str_of d_source else "website-contact-form".

(** The third part: the [sanitized] record. *)
Definition sanitize (now_iso : string) (normalizedData : normalized)
    (requestedSource : string) : completion contact_data :=
  s_name ← call_trim "normalizedData.name" (n_name normalizedData);
  s_email ← call_trim "normalizedData.email" (n_email normalizedData);
  s_company ← optional_field "normalizedData.company" (n_company normalizedData) 200;
  s_phone ← optional_field "normalizedData.phone" (n_phone normalizedData) 50;
  s_service ← optional_field "normalizedData.service" (n_service normalizedData) 100;
  s_message ← call_trim "normalizedData.message" (n_message normalizedData);
  Return
    {| name := substring0 100 s_name;
       email := substring0 200 (toLowerCase s_email);
       company := s_company;
       phone := s_phone;
       service := s_service;
       message := substring0 2000 s_message;
       consent := match n_consent normalizedData with
                  | Some (JBool true) => true
                  | v => is_str v "true"
                  end;
       language := or_else (n_language normalizedData) (Some (JStr "ja"));
       timestamp := now_iso;
       source := requestedSource |}.

(** [validateAndSanitize]; [now_iso] is [new Date().toISOString()]. *)
Definition validateAndSanitize (now_iso : string) (data : json) : completion validation :=
  normalizedData ← normalize data;
  let errors := validation_errors normalizedData in
  if (0 <? length errors)%nat then Return (Invalid errors) else
  d_source ← get data "source";
  sanitized ← sanitize now_iso normalizedData (requested_source d_source);
  Return (Valid sanitized).

(** [event.body] by what [JSON.parse] makes of it: a text that is not
    JSON (the empty text included), or a text that parses to [j]. *)
Inductive body_text :=
| Unparseable
| Parses (j : json).

Record event := {
  httpMethod : string;
  headers : gmap string string;
  body : body_text
}.

Inductive http_body :=
| EmptyBody
| JsonBody (j : json).

Record response := {
  statusCode : Z;
  resp_headers : list (string * string);
  resp_body : http_body
}.

Definition cors_headers : list (string * string) :=
  [ ("Access-Control-Allow-Origin", "*");
    ("Access-Control-Allow-Headers", "Content-Type");
    ("Access-Control-Allow-Methods", "POST, OPTIONS");
    ("Content-Type", "application/json") ].

Definition respond (status : Z) (fields : list (string * json)) : response :=
  {| statusCode := status; resp_headers := cors_headers;
     resp_body := JsonBody (JObj fields) |}.

(** What [await fetch(...)] comes to: a response with its status, or a
    thrown error (the abort of the 30 s timer, a transport failure). *)
Inductive fetch_outcome :=
| FetchResponse (status : Z)
| FetchThrows (e : js_error).

(** [event.headers['x-forwarded-for'] || event.headers['client-ip'] || 'unknown'] *)
Definition clientIP (ev : event) : string :=
  if present (headers ev !! "x-forwarded-for") then default "" (headers ev !! "x-forwarded-for")
  else if present (headers ev !! "client-ip") then default "" (headers ev !! "client-ip")
  else "unknown".

Section WithConfig.
Variable CONFIG : config.

(** The part of the handler after the rate limit check, inside its
    [try]. *)
Definition process (now_iso : string) (net : fetch_outcome) (b : body_text)
  : completion response :=
  match b with
  | Unparseable => Return (respond 400 [("error", JStr "Invalid JSON format")])
  | Parses requestData =>
      validation ← validateAndSanitize now_iso requestData;
      match validation with
      | Invalid errors =>
          Return (respond 400 [("error", JStr "Validation failed");
                               ("details", JArr (JStr <$> errors))])
      | Valid sanitizedData =>
          if negb (present (N8N_WEBHOOK_URL CONFIG)) || negb (present (API_KEY CONFIG)) then
            Return (respond 500 [("error", JStr "Server configuration error")])
          else
            match net with
            | FetchThrows e => Throw e
            | FetchResponse status =>
                if negb ((200 <=? status) && (status <=? 299)) then
                  Return (respond status [("error", JStr "Failed to process form");
                                          ("statusCode", JNum status)])
                else
                  Return (respond 200 [("success", JBool true);
                                       ("message", JStr "Form submitted successfully")])
            end
      end
  end.

(** [exports.handler]: the store after the invocation and the response. *)
Definition handler (now : Z) (now_iso : string) (net : fetch_outcome)
    (store : gmap string (list Z)) (ev : event)
  : gmap string (list Z) * response :=
  if String.eqb (httpMethod ev) "OPTIONS" then
    (store, {| statusCode := 200; resp_headers := cors_headers; resp_body := EmptyBody |})
  else if negb (String.eqb (httpMethod ev) "POST") then
    (store, respond 405 [("error", JStr "Method not allowed")])
  else
    let '(store, rateLimitCheck) := checkRateLimit now (clientIP ev) store in
    match rateLimitCheck with
    | Denied retryAfter =>
        (store, respond 429 [("error", JStr "Too many requests");
                             ("retryAfter", JNum retryAfter)])
    | Allowed =>
        match process now_iso net (body ev) with
        | Return r => (store, r)
        | Throw error =>
            if String.eqb (err_name error) "AbortError" then
              (store, respond 504 [("error", JStr "Request timeout")])
            else
              (store, respond 500 [("error", JStr "Internal server error")])
        end
    end.

End WithConfig.

(** One caller's successive requests, at the given times: the store
    they leave and the result of each. *)
Fixpoint checkRateLimits (ip : string) (times : list Z) (store : gmap string (list Z))
  : gmap string (list Z) * list rate_limit_check :=
  match times with
  | [] => (store, [])
  | now :: rest =>
      let '(store, result) := checkRateLimit now ip store in
      let '(store, results) := checkRateLimits ip rest store in
      (store, result :: results)
  end.

(** The times of the requests that were allowed. *)
Definition admitted (times : list Z) (results : list rate_limit_check) : list Z :=
  omap (fun '(now, result) => if allowed result then Some now else None)
       (zip times results).

End ContactFormProxy.

(* ================================================================== *)
(** * The chatbot widget script *)
(* ================================================================== *)

Module ChatbotWidget.
Import Js.
Local Open Scope Z_scope.

(** ** Configuration *)

Definition REQUEST_TIMEOUT : Z := 30000.
Definition MAX_MESSAGE_LENGTH : nat := 450.
Definition MAX_HISTORY_LENGTH : nat := 5.
Definition RETRY_ATTEMPTS : nat := 2.

Record limit := { max : Z; window : Z }.

Definition PER_MINUTE : limit := {| max := 8; window := 60 * 1000 |}.
Definition PER_10_MINUTES : limit := {| max := 20; window := 10 * 60 * 1000 |}.
Definition PER_DAY : limit := {| max := 50; window := 24 * 60 * 60 * 1000 |}.

Inductive lang := ja | en.

Definition getCurrentLanguage : lang := ja.

Record localized := { msg_ja : string; msg_en : string }.

Definition localize (m : localized) (l : lang) : string :=
  match l with ja => msg_ja m | en => msg_en m end.

(** ** Rate limiting *)

Record check := {
  name : string;
  check_limit : limit;
  messages : localized
}.

Definition check_PER_MINUTE : check :=
  {| name := "PER_MINUTE"; check_limit := PER_MINUTE;
     messages :=
       {| msg_ja := "メッセージの送信が早すぎます。1分後に再試行してください。";
          msg_en := "You are sending messages too quickly. Please wait 1 minute." |} |}.

Definition check_PER_10_MINUTES : check :=
  {| name := "PER_10_MINUTES"; check_limit := PER_10_MINUTES;
     messages :=
       {| msg_ja := "10分間のメッセージ制限に達しました。しばらくお待ちください。";
          msg_en := "You have reached the 10-minute message limit. Please wait a moment." |} |}.

Definition check_PER_DAY : check :=
  {| name := "PER_DAY"; check_limit := PER_DAY;
     messages :=
       {| msg_ja := "本日のメッセージ制限に達しました。明日また試してください。";
          msg_en := "You have reached the daily message limit. Please try again tomorrow." |} |}.

Definition checks : list check :=
  [check_PER_MINUTE; check_PER_10_MINUTES; check_PER_DAY].

(** The [localStorage] item under [RATE_LIMIT_STORAGE_KEY]: missing, a
    text that [JSON.parse] rejects, or the array of send times that an
    earlier call wrote.  The widget writes nothing else under the key;
    a text from elsewhere that parses to something other than an array
    of numbers has no value here. *)
Inductive stored_times :=
| NoItem
| Corrupt
| Item (messageTimes : list Z).

Inductive rate_limit_result :=
| Allowed
| Denied (reason : string) (retryAfter : Z).

Definition allowed (r : rate_limit_result) : bool :=
  match r with Allowed => true | Denied _ _ => false end.

(** [messageTimes.filter(time => now - time < w)] *)
Definition within (now w : Z) (messageTimes : list Z) : list Z :=
  filter (fun time => now - time < w) messageTimes.

(** The [for (const check of checks)] loop: the denial of the first
    check that is exhausted, if any. *)
Fixpoint run_checks (now : Z) (messageTimes : list Z) (cs : list check)
  : option rate_limit_result :=
  match cs with
  | [] => None
  | check :: rest =>
      let recentMessages := within now (window (check_limit check)) messageTimes in
      if Z.of_nat (length recentMessages) >=? max (check_limit check) then
        let oldestMessage := Math_min recentMessages in
        let retryAfter :=
          ceil_div_1000 (oldestMessage + window (check_limit check) - now) in
        Some (Denied (localize (messages check) getCurrentLanguage) retryAfter)
      else run_checks now messageTimes rest
  end.

(** The array read from storage: [[]] when the item is missing or does
    not parse. *)
Definition load_times (item : stored_times) : list Z :=
  match item with
  | Item messageTimes => messageTimes
  | NoItem | Corrupt => []
  end.

(** [checkRateLimit]: the storage item after the call and the result.
    [writable] tells whether [localStorage.setItem] succeeds; when it
    throws the error is caught and logged. *)
Definition checkRateLimit (writable : bool) (now : Z) (item : stored_times)
  : stored_times * rate_limit_result :=
  let messageTimes := load_times item in
  let messageTimes := within now (window PER_DAY) messageTimes in
  match run_checks now messageTimes checks with
  | Some denial => (item, denial)
  | None =>
      let messageTimes := messageTimes ++ [now] in
      (if writable then Item messageTimes else item, Allowed)
  end.

(** ** Conversation *)

Record turn := { text : string; isUser : bool; timestamp : Z }.

(** An entry of the [history] sent to the proxy. *)
Record wire_turn := { role : string; content : string }.

(** The widget state the functions below read and write: the
    [messageHistory] array and the [sessionStorage] item
    [chatbot_history]. *)
Record state := {
  messageHistory : list turn;
  chatbot_history : option (list turn)
}.

(** [storeConversation]; [writable] tells whether
    [sessionStorage.setItem] succeeds. *)
Definition storeConversation (writable : bool) (st : state) : state :=
  let limitedHistory := slice_last 50 (messageHistory st) in
  if writable then
    {| messageHistory := messageHistory st; chatbot_history := Some limitedHistory |}
  else st.

(** [getHistoryForAPI] *)
Definition getHistoryForAPI (st : state) : list wire_turn :=
  (fun msg => {| role := if isUser msg then "user" else "assistant";
                 content := text msg |})
    <$> slice_last MAX_HISTORY_LENGTH (messageHistory st).

Inductive message_type := normal | warning.

(** [addMessage], without the rendering; [now] is [new Date()]. *)
Definition addMessage (writable : bool) (now : Z)
    (text : string) (isUser : bool) (type : message_type) (st : state) : state :=
  match type with
  | normal =>
      storeConversation writable
        {| messageHistory :=
             messageHistory st ++ [{| text := text; isUser := isUser; timestamp := now |}];
           chatbot_history := chatbot_history st |}
  | warning => st
  end.


(** A run of [addMessage] calls for ordinary messages, one for each
    [(now, text, isUser)] in turn. *)
Definition addMessages (writable : bool) (turns : list (Z * string * bool))
    (st : state) : state :=
  fold_left
    (fun st '(now, text, isUser) => addMessage writable now text isUser normal st)
    turns st.

(** ** Requests and replies *)

(** The body of the POST request. *)
Record request := {
  req_message : string;
  req_language : lang;
  req_sessionId : string;
  req_history : list wire_turn
}.

(** What one [fetch] comes to: the promise rejects (the abort of the
    30 s timer, a transport failure), or a response arrives, with its
    status and what [response.json()] yields. *)
Inductive fetch_outcome :=
| FetchRejects (e : js_error)
| FetchResponse (status : Z) (json_body : completion json).

(** [response.ok] *)
Definition ok (status : Z) : bool := (200 <=? status) && (status <=? 299).

(** The [try] block of [callAI] once the fetch has settled. *)
Definition attempt (o : fetch_outcome) : completion string :=
  match o with
  | FetchRejects e => Throw e
  | FetchResponse status json_body =>
      if negb (ok status) then
        if status =? 429 then Throw (Error "RATE_LIMIT")
        else if status =? 504 then Throw (Error "TIMEOUT")
        else if status >=? 500 then Throw (Error "SERVER_ERROR")
        else Throw (Error "API_ERROR")
      else
        data ← json_body;
        response ← get data "response";
        if negb (truthy response) || negb (is_string response) then
          Throw (Error "INVALID_RESPONSE")
        else Return (str_of response)
  end.

(** What [callAI] does, in order. *)
Inductive effect :=
| Fetch (req : request)
| Sleep (ms : Z).

(** ** The session *)

(** A digit of [toString(16)]. *)
Definition hexDigit (d : Z) : ascii :=
  ascii_of_nat (Z.to_nat (if d <? 10 then 48 + d else 87 + d)).

Fixpoint toString16_digits (fuel : nat) (v : Z) : string :=
  match fuel with
  | O => EmptyString
  | S fuel' =>
      (if v <? 16 then EmptyString else toString16_digits fuel' (v / 16))
      +:+ String (hexDigit (v mod 16)) EmptyString
  end.

(** [v.toString(16)] for an integer [v >= 0]. *)
Definition toString16 (v : Z) : string :=
  toString16_digits (S (Z.to_nat (Z.log2 v))) v.

(** [template.replace(/[xy]/g, callback)], where the [k]-th call of the
    callback finds [random k] as its [Math.random() * 16 | 0]. *)
Fixpoint replace_xy (random : nat -> Z) (k : nat) (template : string) : string :=
  match template with
  | EmptyString => EmptyString
  | String c rest =>
      if Ascii.eqb c "x" || Ascii.eqb c "y" then
        let r := random k in
        let v := if Ascii.eqb c "x" then r else Z.lor (Z.land r 3) 8 in
        toString16 v +:+ replace_xy random (S k) rest
      else String c (replace_xy random k rest)
  end.

Definition generateSessionId (random : nat -> Z) : string :=
  replace_xy random 0 "xxxxxxxx-xxxx-4xxx-yxxx-xxxxxxxxxxxx".

(** The variable [sessionId] of the script and the [sessionStorage]
    item [chatbot_session_id]. *)
Record session := {
  sessionId : option string;
  chatbot_session_id : option string
}.

(** The [DOMException]s of [sessionStorage]: a read where the page may
    not use storage, a write where storage is full or disabled. *)
Definition SecurityError : js_error :=
  {| err_name := "SecurityError"; err_is_TypeError := false;
     err_message := "Failed to read the 'sessionStorage' property from 'Window': Access is denied for this document." |}.
Definition QuotaExceededError : js_error :=
  {| err_name := "QuotaExceededError"; err_is_TypeError := false;
     err_message := "Failed to execute 'setItem' on 'Storage': Setting the value of 'chatbot_session_id' exceeded the quota." |}.

(** What [sessionStorage] allows during a call: [getItem] throws when
    it cannot be read, [setItem] when it cannot be written. *)
Record storage_access := {
  can_read : bool;
  can_write : bool
}.

(** [getSessionId]: the session after the call and what the call comes
    to.  Neither storage call stands in a [try]; the variable is
    assigned before [setItem] is called. *)
Definition getSessionId (access : storage_access) (random : nat -> Z) (s : session)
  : session * completion string :=
  if present (sessionId s) then (s, Return (default "" (sessionId s)))
  else if negb (can_read access) then (s, Throw SecurityError)
  else
    let stored := chatbot_session_id s in
    if present stored then
      ({| sessionId := stored; chatbot_session_id := stored |},
       Return (default "" stored))
    else
      let id := generateSessionId random in
      if can_write access then
        ({| sessionId := Some id; chatbot_session_id := Some id |}, Return id)
      else ({| sessionId := Some id; chatbot_session_id := stored |},
            Throw QuotaExceededError).

(** ** The call to the proxy *)

(** The request body that [callAI] builds. *)
Definition payload (sessionId : string) (st : state) (message : string) : request :=
  {| req_message := message;
     req_language := getCurrentLanguage;
     req_sessionId := sessionId;
     req_history := getHistoryForAPI st |}.

Section CallAI.
(** The conversation, the browser and the network the call runs in.
    For the attempt made with [retryCount = k], [storage k] is what
    [sessionStorage] allows, [random k] the numbers [Math.random]
    gives, and [net k] the outcome of the fetch. *)
Variable st : state.
Variable storage : nat -> storage_access.
Variable random : nat -> nat -> Z.
Variable net : nat -> fetch_outcome.

(** The [try] block of [callAI]: the session, the requests issued and
    the outcome.  [getSessionId()] is evaluated while the request body
    is built, so when it throws [fetch] is not called. *)
Definition try_block (message : string) (retryCount : nat) (s : session)
  : session * list effect * completion string :=
  let '(s, id) := getSessionId (storage retryCount) (random retryCount) s in
  match id with
  | Return id => (s, [Fetch (payload id st message)], attempt (net retryCount))
  | Throw error => (s, [], Throw error)
  end.

(** [callAI(message, retryCount)]: the session it leaves, the effects
    performed and the settlement of the returned promise. *)
Equations? callAI (message : string) (retryCount : nat) (s : session)
  : session * list effect * completion string
  by wf (RETRY_ATTEMPTS - retryCount)%nat lt :=
callAI message retryCount s with try_block message retryCount s := {
  | (s1, sent, Return response) := (s1, sent, Return response)
  | (s1, sent, Throw error) :=
      if String.eqb (err_name error) "AbortError" then
        (s1, sent, Throw (Error "TIMEOUT"))
      else if err_is_TypeError error && includes (err_message error) "fetch" then
        (s1, sent, Throw (Error "NETWORK_ERROR"))
      else
        match lt_dec retryCount RETRY_ATTEMPTS with
        | left _ =>
            if String.eqb (err_message error) "SERVER_ERROR"
               || String.eqb (err_message error) "API_ERROR" then
              let '(s2, effects, result) := callAI message (retryCount + 1) s1 in
              (s2, sent ++ Sleep (1000 * (Z.of_nat retryCount + 1)) :: effects, result)
            else (s1, sent, Throw error)
        | right _ => (s1, sent, Throw error)
        end }.
Proof. lia. Qed.

End CallAI.

(** ** Messages shown for a failed call *)

Definition errorMessages_network : localized :=
  {| msg_ja := "接続エラーが発生しました。インターネット接続をご確認ください。";
     msg_en := "Connection error occurred. Please check your internet connection." |}.
Definition errorMessages_timeout : localized :=
  {| msg_ja := "応答に時間がかかっています。後でお試しください。";
     msg_en := "Response is taking too long. Please try again later." |}.
Definition errorMessages_rateLimit : localized :=
  {| msg_ja := "しばらくお待ちください。リクエストが多すぎます。";
     msg_en := "Please wait a moment. Too many requests." |}.
Definition errorMessages_serverError : localized :=
  {| msg_ja := "申し訳ございません。サーバーエラーが発生しました。";
     msg_en := "Sorry, a server error occurred." |}.
Definition errorMessages_default : localized :=
  {| msg_ja := "申し訳ございません。後でお試しください。";
     msg_en := "Sorry, please try again later." |}.

(** [getErrorMessage] *)
Definition getErrorMessage (error : js_error) : string :=
  let lang := getCurrentLanguage in
  if String.eqb (err_message error) "RATE_LIMIT" then localize errorMessages_rateLimit lang
  else if String.eqb (err_message error) "TIMEOUT" then localize errorMessages_timeout lang
  else if String.eqb (err_message error) "NETWORK_ERROR" then localize errorMessages_network lang
  else if String.eqb (err_message error) "SERVER_ERROR" then localize errorMessages_serverError lang
  else localize errorMessages_default lang.

Definition errorMessages_invalidMessage : localized :=
  {| msg_ja := "メッセージが長すぎます（最大500文字）。";
     msg_en := "Message is too long (max 500 characters)." |}.

(** ** Fallback responses *)

Definition fallbackResponses_greeting : localized :=
  {| msg_ja := "こんにちは！AzenFlowのAIアシスタントです。ご質問がありましたら、お気軽にお尋ねください。";
     msg_en := "Hello! I'm AzenFlow's AI assistant. Please feel free to ask any questions you may have." |}.
Definition fallbackResponses_services : localized :=
  {| msg_ja := "AzenFlowでは、LINEチャットボット、メールアシスタント、Webチャットボット、翻訳チャットボットの4つの主要サービスを提供しています。詳細は各サービスページをご覧ください。";
     msg_en := "AzenFlow offers four main services: LINE Chatbot, Email Assistant, Web Chatbot, and Translation Chatbot. Please visit each service page for details." |}.

(** ** The request on the wire *)

Definition wire_turn_json (t : wire_turn) : json :=
  JObj [("role", JStr (role t)); ("content", JStr (content t))].

(** The body of the POST request as the proxy parses it: [JSON.parse]
    of the [JSON.stringify] in [callAI]. *)
Definition request_json (req : request) : json :=
  JObj [("message", JStr (req_message req));
        ("language", JStr (match req_language req with ja => "ja" | en => "en" end));
        ("sessionId", JStr (req_sessionId req));
        ("history", JArr (wire_turn_json <$> req_history req))].

(** ** Loading the conversation *)

(** [loadConversation]: the stored item, when there is one, is the
    text [storeConversation] wrote. *)
Definition loadConversation (st : state) : state :=
  match chatbot_history st with
  | Some stored => {| messageHistory := stored; chatbot_history := Some stored |}
  | None => st
  end.

(** The timer callback of [initGreeting]; [container] tells whether the
    element [chatbotMessages] exists. *)
Definition initGreeting (container writable : bool) (now : Z) (st : state) : state :=
  if container && (length (messageHistory st) =? 0)%nat then
    addMessage writable now (localize fallbackResponses_greeting getCurrentLanguage)
      false normal st
  else st.

(** [toggleChatbot] on [isOpen] and the conversation; [elements] tells
    whether the toggle and the window exist.  The last component tells
    whether [initGreeting] is called. *)
Definition toggleChatbot (elements : bool) (isOpen : bool) (st : state)
  : bool * state * bool :=
  if negb elements then (isOpen, st, false)
  else
    let isOpen := negb isOpen in
    if isOpen then
      if (length (messageHistory st) =? 0)%nat then
        let st := loadConversation st in
        (isOpen, st, (length (messageHistory st) =? 0)%nat)
      else (isOpen, st, false)
    else (isOpen, st, false).

(** ** Sending a message *)

(** The state [sendMessage] reads and writes: the conversation, the
    [isProcessing] flag and the [localStorage] item of the rate
    limiter. *)
Record widget := {
  conversation : state;
  isProcessing : bool;
  rate_limit_item : stored_times
}.

(** What [sendMessage] shows: an [alert], or a call of [addMessage]. *)
Inductive display :=
| Alert (message : string)
| AddMessage (text : string) (isUser : bool) (type : message_type).

(** [addMessage(response, false)] and the [finally] block. *)
Definition answer (writable : bool) (now : Z) (response : string) (w : widget)
  : widget * list display :=
  ({| conversation := addMessage writable now response false normal (conversation w);
      isProcessing := false;
      rate_limit_item := rate_limit_item w |},
   [AddMessage response false normal]).

(** [sendMessage] up to [await callAI(text)]: the widget, what is
    shown, and whether [callAI(text)] is awaited.  [USE_AI] is the
    configuration entry, which [setAIEnabled] changes; [now] is the
    clock of the rate limit check, [now_user] and [now_bot] the clock
    when the user's message and the fallback answer are added. *)
Definition sendMessage_start (USE_AI writable_local writable_session : bool)
    (now now_user now_bot : Z) (w : widget) (text : string)
  : widget * list display * bool :=
  if String.eqb (trim text) "" || isProcessing w then (w, [], false)
  else if (MAX_MESSAGE_LENGTH <? strlen text)%nat then
    (w, [Alert (localize errorMessages_invalidMessage getCurrentLanguage)], false)
  else
    let '(item, rateLimitCheck) := checkRateLimit writable_local now (rate_limit_item w) in
    match rateLimitCheck with
    | Denied reason _ =>
        ({| conversation :=
              addMessage writable_session now_user reason false warning (conversation w);
            isProcessing := isProcessing w;
            rate_limit_item := item |},
         [AddMessage reason false warning], false)
    | Allowed =>
        let w := {| conversation :=
                      addMessage writable_session now_user text true normal (conversation w);
                    isProcessing := true;
                    rate_limit_item := item |} in
        if USE_AI then (w, [AddMessage text true normal], true)
        else
          let '(w, shown) :=
            answer writable_session now_bot
              (localize fallbackResponses_services getCurrentLanguage) w in
          (w, AddMessage text true normal :: shown, false)
    end.

(** [sendMessage] once [callAI(text)] has settled with [result]. *)
Definition sendMessage_resume (writable_session : bool) (now_bot : Z)
    (result : completion string) (w : widget) : widget * list display :=
  let response :=
    match result with
    | Return response => response
    | Throw error => getErrorMessage error
    end in
  answer writable_session now_bot response w.

(** [sendMessage(text)] from the call to the end, when nothing else
    touches the widget while [callAI] is awaited: the session, the
    widget, what is shown, and the effects of [callAI].  [s] is the
    session and [storage], [random] and [net] the browser and the
    network, as for [callAI]; [writable_session] tells whether
    [storeConversation] can write.  Neither [addMessage] nor the
    removal of the typing indicator throws, so the outer [catch] is not
    entered. *)
Definition sendMessage (USE_AI writable_local writable_session : bool)
    (now now_user now_bot : Z) (storage : nat -> storage_access)
    (random : nat -> nat -> Z) (net : nat -> fetch_outcome)
    (s : session) (w : widget) (text : string)
  : session * widget * list display * list effect :=
  let '(w, shown, awaited) :=
    sendMessage_start USE_AI writable_local writable_session now now_user now_bot w text in
  if awaited then
    let '(s, effects, result) := callAI (conversation w) storage random net text 0 s in
    let '(w, shown') := sendMessage_resume writable_session now_bot result w in
    (s, w, shown ++ shown', effects)
  else (s, w, shown, []).

(** ** Runs of the rate limiter *)

(** Successive calls of [checkRateLimit], at the given times: the
    storage item they leave and the result of each. *)
Fixpoint checkRateLimits (writable : bool) (times : list Z) (item : stored_times)
  : stored_times * list rate_limit_result :=
  match times with
  | [] => (item, [])
  | now :: rest =>
      let '(item, result) := checkRateLimit writable now item in
      let '(item, results) := checkRateLimits writable rest item in
      (item, result :: results)
  end.

(** The times of the calls that were allowed. *)
Definition admitted (times : list Z) (results : list rate_limit_result) : list Z :=
  omap (fun '(now, result) => if allowed result then Some now else None)
       (zip times results).

End ChatbotWidget.

(* ================================================================== *)
(** * The contact form script *)
(* ================================================================== *)

Module ContactForm.
Import Js.
Local Open Scope Z_scope.

(** [capturedData]: the values of the form when the button is
    clicked. *)
Record captured := {
  name : string;
  email : string;
  company : string;
  phone : string;
  service : string;
  message : string;
  consent : bool
}.

Definition getCurrentLanguage : string := "ja".

(** [/^[^\s@]+@[^\s@]+\.[^\s@]+$/], the literal of the proxy. *)
Definition emailRegex : regex := ContactFormProxy.emailRegex.

(** The checks of the click handler, in order: [true] when none of
    them stops the submission. *)
Definition validate (sliderVerified : bool) (capturedData : captured) : bool :=
  if String.eqb (name capturedData) "" || (strlen (trim (name capturedData)) <? 2)%nat
  then false
  else if String.eqb (email capturedData) ""
          || negb (regex_test emailRegex (email capturedData))
  then false
  else if String.eqb (message capturedData) ""
          || (strlen (trim (message capturedData)) <? 10)%nat
  then false
  else if negb (consent capturedData) then false
  else if negb sliderVerified then false
  else true.

(** The request body; [now_iso] is [new Date().toISOString()]. *)
Definition payload (now_iso : string) (capturedData : captured) : json :=
  JObj [("name", JStr (trim (name capturedData)));
        ("email", JStr (toLowerCase (trim (email capturedData))));
        ("company", JStr (trim (company capturedData)));
        ("phone", JStr (trim (phone capturedData)));
        ("service", JStr (service capturedData));
        ("message", JStr (trim (message capturedData)));
        ("consent", JBool (consent capturedData));
        ("language", JStr getCurrentLanguage);
        ("timestamp", JStr now_iso);
        ("source", JStr "website-contact-form")].

(** The argument of [showNotification]. *)
Inductive notification :=
| validation_error
| success
| error (details : json)
| network_error.

(** What the [fetch] comes to: the promise rejects, or a response
    arrives, with its status and what [response.json()] yields. *)
Inductive fetch_outcome :=
| FetchRejects (e : js_error)
| FetchResponse (status : Z) (json_body : completion json).

(** [response.ok] *)
Definition ok (status : Z) : bool := (200 <=? status) && (status <=? 299).

(** The click handler of the submit button: [sliderVerified] after the
    click, the request body if a request is sent, and the notification
    shown. *)
Definition click (sliderVerified : bool) (now_iso : string) (net : fetch_outcome)
    (capturedData : captured) : bool * option json * notification :=
  if negb (validate sliderVerified capturedData) then
    (sliderVerified, None, validation_error)
  else
    let body := payload now_iso capturedData in
    match net with
    | FetchRejects _ => (sliderVerified, Some body, network_error)
    | FetchResponse status json_body =>
        match json_body with
        | Throw _ => (sliderVerified, Some body, network_error)
        | Return result =>
            if negb (ok status) then (sliderVerified, Some body, error result)
            else
              match get result "success" with
              | Throw _ => (sliderVerified, Some body, network_error)
              | Return flag =>
                  if truthy flag then (false, Some body, success)
                  else (sliderVerified, Some body, error result)
              end
        end
    end.

(** The response of the proxy as [fetch] hands it to the script: the
    status of the response, and its body parsed as JSON. *)
Definition served (r : ContactFormProxy.response) : fetch_outcome :=
  FetchResponse (ContactFormProxy.statusCode r)
    match ContactFormProxy.resp_body r with
    | ContactFormProxy.EmptyBody => Throw (SyntaxError "Unexpected end of JSON input")
    | ContactFormProxy.JsonBody j => Return j
    end.

End ContactForm.

(* ================================================================== *)
(** * Properties *)
(* ================================================================== *)

Local Open Scope Z_scope.

(** ** The JavaScript fragment: patterns and [trim] *)

Section JsFragment.
Import Js ContactFormProxy.

Lemma append_nil_l (t : string) : "" +:+ t = t.
Proof. reflexivity. Qed.

Lemma append_cons c (s t : string) : String c s +:+ t = String c (s +:+ t).
Proof. reflexivity. Qed.

Lemma append_empty_r (s : string) : s +:+ "" = s.
Proof. induction s as [|c s IH]; [done|]. by rewrite append_cons, IH. Qed.

Lemma append_assoc (a b c : string) : (a +:+ b) +:+ c = a +:+ (b +:+ c).
Proof. induction a as [|x a IH]; [done|]. by rewrite !append_cons, IH. Qed.

Lemma append_eq_empty a b : a +:+ b = "" -> a = "" /\ b = "".
Proof. destruct a; [done|]. rewrite append_cons. discriminate. Qed.

Lemma nullable_spec r : nullable r = true <-> matches r "".
Proof.
  induction r as [| |p|r1 IH1 r2 IH2|r1 IH1 r2 IH2|r IH]; simpl.
  - split; [discriminate|inversion 1].
  - split; [constructor|done].
  - split; [discriminate|inversion 1].
  - rewrite andb_true_iff, IH1, IH2. split.
    + intros [H1 H2]. exact (MCat _ _ "" "" H1 H2).
    + inversion 1 as [| |? ? s1 s2 H1 H2 E1 E2| | | |]; subst.
      apply append_eq_empty in E2 as [-> ->]. done.
  - rewrite orb_true_iff, IH1, IH2. split.
    + intros [H|H]; [by apply MAltL|by apply MAltR].
    + inversion 1; subst; [by left|by right].
  - split; [constructor|done].
Qed.

Lemma matches_rcat r1 r2 s : matches (rcat r1 r2) s <-> matches (RCat r1 r2) s.
Proof.
  destruct r1; simpl; try done.
  - split; [inversion 1|]. inversion 1 as [| |? ? s1 s2 H1 H2| | | |]; subst. inversion H1.
  - split.
    + intros H. exact (MCat REps r2 "" s MEps H).
    + inversion 1 as [| |? ? s1 s2 H1 H2| | | |]; subst. inversion H1; subst. done.
Qed.

Lemma matches_ralt r1 r2 s : matches (ralt r1 r2) s <-> matches (RAlt r1 r2) s.
Proof.
  assert (Hl : forall r, matches r s <-> matches (RAlt RNone r) s).
  { intros r. split; [by apply MAltR|]. inversion 1 as [| | |? ? ? H1|? ? ? H1| |]; subst;
      [inversion H1|done]. }
  assert (Hr : forall r, matches r s <-> matches (RAlt r RNone) s).
  { intros r. split; [by apply MAltL|]. inversion 1 as [| | |? ? ? H1|? ? ? H1| |]; subst;
      [done|inversion H1]. }
  destruct r1, r2; simpl; try done; try apply Hl; try apply Hr.
Qed.

(** A non-empty match of a star starts with a non-empty match of its
    body. *)
Lemma matches_star_cons r c s :
  matches (RStar r) (String c s) ->
  exists s1 s2, s = s1 +:+ s2 /\ matches r (String c s1) /\ matches (RStar r) s2.
Proof.
  intros H. remember (RStar r) as r' eqn:Er. remember (String c s) as t eqn:Et.
  revert s Et. induction H as [| | | | | |r0 s1 s2 H1 _ H2 IH2]; intros u Et;
    try discriminate.
  injection Er as ->. destruct s1 as [|c1 s1].
  - rewrite append_nil_l in Et. by apply IH2.
  - rewrite append_cons in Et. injection Et as -> <-. by exists s1, s2.
Qed.

Lemma deriv_spec c r s : matches (deriv c r) s <-> matches r (String c s).
Proof.
  revert s. induction r as [| |p|r1 IH1 r2 IH2|r1 IH1 r2 IH2|r IH]; intros s; simpl.
  - split; inversion 1.
  - split; inversion 1.
  - destruct (p c) eqn:Ep.
    + split.
      * inversion 1; subst. by constructor.
      * inversion 1; subst. constructor.
    + split; [inversion 1|]. inversion 1; subst. congruence.
  - assert (Hcat : matches (rcat (deriv c r1) r2) s <->
                   exists s1 s2, s = s1 +:+ s2 /\ matches r1 (String c s1) /\ matches r2 s2).
    { rewrite matches_rcat. split.
      - inversion 1 as [| |? ? s1 s2 H1 H2| | | |]; subst.
        exists s1, s2. split; [done|]. by rewrite <- IH1.
      - intros (s1 & s2 & -> & H1 & H2). apply MCat; [by apply IH1|done]. }
    assert (Hinv : matches (RCat r1 r2) (String c s) <->
              (exists s1 s2, s = s1 +:+ s2 /\ matches r1 (String c s1) /\ matches r2 s2)
              \/ (matches r1 "" /\ matches r2 (String c s))).
    { split.
      - inversion 1 as [| |? ? s1 s2 H1 H2 E1 E2| | | |]; subst.
        destruct s1 as [|c1 s1].
        + rewrite append_nil_l in E2. right. subst. done.
        + rewrite append_cons in E2. injection E2 as -> <-. left. by exists s1, s2.
      - intros [(s1 & s2 & -> & H1 & H2)|[H1 H2]].
        + exact (MCat r1 r2 (String c s1) s2 H1 H2).
        + exact (MCat r1 r2 "" (String c s) H1 H2). }
    rewrite Hinv. destruct (nullable r1) eqn:En.
    + rewrite matches_ralt. apply nullable_spec in En. split.
      * inversion 1; subst; [left; by apply Hcat|right; split; [done|by apply IH2]].
      * intros [H|[_ H]]; [apply MAltL; by apply Hcat|apply MAltR; by apply IH2].
    + rewrite Hcat. split; [by left|]. intros [H|[H _]]; [done|].
      apply nullable_spec in H. congruence.
  - rewrite matches_ralt. split.
    + inversion 1; subst; [apply MAltL; by apply IH1|apply MAltR; by apply IH2].
    + inversion 1; subst; [apply MAltL; by apply IH1|apply MAltR; by apply IH2].
  - rewrite matches_rcat. split.
    + inversion 1 as [| |? ? s1 s2 H1 H2| | | |]; subst.
      apply IH in H1. exact (MStarS r (String c s1) s2 H1 H2).
    + intros H. apply matches_star_cons in H as (s1 & s2 & -> & H1 & H2).
      apply MCat; [by apply IH|done].
Qed.

Theorem regex_test_spec r s : regex_test r s = true <-> matches r s.
Proof.
  revert r. induction s as [|c s IH]; intros r; simpl.
  - apply nullable_spec.
  - rewrite IH. apply deriv_spec.
Qed.

Lemma matches_cat r1 r2 s :
  matches (RCat r1 r2) s <-> exists s1 s2, s = s1 +:+ s2 /\ matches r1 s1 /\ matches r2 s2.
Proof.
  split.
  - inversion 1 as [| |? ? s1 s2 H1 H2| | | |]; subst. by exists s1, s2.
  - intros (s1 & s2 & -> & H1 & H2). by apply MCat.
Qed.

Lemma matches_class p s :
  matches (RClass p) s <-> exists c, s = String c "" /\ p c = true.
Proof.
  split.
  - inversion 1; subst. by eexists.
  - intros (c & -> & Hc). by apply MClass.
Qed.

Lemma matches_char c s : matches (RChar c) s <-> s = String c "".
Proof.
  unfold RChar. rewrite matches_class. split.
  - intros (c' & -> & Hc). by apply Ascii.eqb_eq in Hc as ->.
  - intros ->. exists c. split; [done|apply Ascii.eqb_refl].
Qed.

Lemma matches_star_class p s : matches (RStar (RClass p)) s <-> all_chars p s = true.
Proof.
  split.
  - intros H. remember (RStar (RClass p)) as r eqn:Er.
    induction H as [| | | | | |r0 s1 s2 H1 _ H2 IH2]; try discriminate; [done|].
    injection Er as ->. apply matches_class in H1 as (c & -> & Hc).
    rewrite append_cons, append_nil_l. simpl. rewrite Hc. by apply IH2.
  - induction s as [|c s IH]; simpl; [constructor|].
    intros [Hc Hs]%andb_true_iff.
    change (String c s) with (String c "" +:+ s).
    apply MStarS; [by apply MClass|by apply IH].
Qed.

Lemma matches_plus_class p s :
  matches (RPlus (RClass p)) s <-> s <> "" /\ all_chars p s = true.
Proof.
  unfold RPlus. rewrite matches_cat. split.
  - intros (s1 & s2 & -> & (c & -> & Hc)%matches_class & H2%matches_star_class).
    rewrite append_cons, append_nil_l. simpl. by rewrite Hc, H2.
  - intros [Hne Hall]. destruct s as [|c s]; [done|]. simpl in Hall.
    apply andb_true_iff in Hall as [Hc Hs].
    exists (String c ""), s. split; [done|].
    split; [by apply MClass|by apply matches_star_class].
Qed.

(** The e-mail pattern accepts the strings [local@domain.tld] whose
    three parts are not empty and hold neither white space nor [@]. *)
Theorem emailRegex_spec s :
  regex_test emailRegex s = true <->
  exists a b c,
    s = a +:+ "@" +:+ b +:+ "." +:+ c
    /\ a <> "" /\ all_chars not_space_at a = true
    /\ b <> "" /\ all_chars not_space_at b = true
    /\ c <> "" /\ all_chars not_space_at c = true.
Proof.
  rewrite regex_test_spec. unfold emailRegex. split.
  - intros H.
    apply matches_cat in H as (a & ? & -> & Ha%matches_plus_class & H).
    apply matches_cat in H as (? & ? & -> & ->%matches_char & H).
    apply matches_cat in H as (b & ? & -> & Hb%matches_plus_class & H).
    apply matches_cat in H as (? & c & -> & ->%matches_char & Hc%matches_plus_class).
    exists a, b, c. tauto.
  - intros (a & b & c & -> & Ha1 & Ha2 & Hb1 & Hb2 & Hc1 & Hc2).
    apply MCat; [by apply matches_plus_class|].
    apply MCat; [by apply matches_char|].
    apply MCat; [by apply matches_plus_class|].
    apply MCat; [by apply matches_char|by apply matches_plus_class].
Qed.

Lemma trimStart_spec s :
  exists l, s = l +:+ trimStart s /\ all_chars isWhiteSpace l = true
    /\ (forall c t, trimStart s = String c t -> isWhiteSpace c = false).
Proof.
  induction s as [|c s (l & Hs & Hl & Hhead)]; simpl.
  - exists "". repeat split. intros; discriminate.
  - destruct (isWhiteSpace c) eqn:Ec.
    + exists (String c l). rewrite append_cons, <- Hs. simpl. rewrite Ec. done.
    + exists "". repeat split. intros c' t [= <- <-]. done.
Qed.

Lemma trimEnd_spec s :
  exists r, s = trimEnd s +:+ r /\ all_chars isWhiteSpace r = true
    /\ (forall t c, trimEnd s = t +:+ String c "" -> isWhiteSpace c = false)
    /\ (forall c t, s = String c t -> isWhiteSpace c = false ->
          exists t', trimEnd s = String c t').
Proof.
  induction s as [|c s (r & Hs & Hr & Hlast & _)]; simpl.
  - exists "". repeat split; [|intros; discriminate].
    intros [|? ?] ? E; discriminate.
  - destruct (trimEnd s) as [|c' t'] eqn:Et.
    + rewrite append_nil_l in Hs. subst r.
      destruct (isWhiteSpace c) eqn:Ec.
      * exists (String c s). simpl. rewrite Ec, Hr. repeat split.
        -- intros [|? ?] ? E; discriminate.
        -- intros ? ? [= <- <-] ?. congruence.
      * exists s. repeat split; [done| |].
        -- intros [|? [|? ?]] c2 E; try discriminate. by injection E as <-.
        -- intros ? ? [= <- <-] _. by eexists.
    + exists r. rewrite append_cons, <- Hs. repeat split; [done| |].
      * intros [|c1 t1] c2 E; [discriminate|].
        rewrite append_cons in E. injection E as <- E. by apply (Hlast t1 c2).
      * intros ? ? [= <- <-] _. by eexists.
Qed.

(** [trim] removes white space at both ends and nothing else. *)
Theorem trim_spec s :
  exists l r,
    s = l +:+ trim s +:+ r
    /\ all_chars isWhiteSpace l = true /\ all_chars isWhiteSpace r = true
    /\ (forall c t, trim s = String c t -> isWhiteSpace c = false)
    /\ (forall t c, trim s = t +:+ String c "" -> isWhiteSpace c = false).
Proof.
  destruct (trimStart_spec s) as (l & Hs & Hl & Hhead).
  destruct (trimEnd_spec (trimStart s)) as (r & Ht & Hr & Hlast & Hkeep).
  exists l, r. unfold trim. repeat split; try done.
  - by rewrite <- Ht.
  - intros c t E. destruct (trimStart s) as [|c0 t0] eqn:E0; [discriminate|].
    pose proof (Hhead c0 t0 eq_refl) as Hc0.
    destruct (Hkeep c0 t0 eq_refl Hc0) as (t' & E'). congruence.
Qed.

End JsFragment.

(** ** The chat proxy's rate limiter *)

Section ChatRateLimit.
Import Js ChatbotProxy.
Local Open Scope Z_scope.
Variable CONFIG : config.

Lemma cleanup_lookup now (store : gmap string entry) k :
  cleanupRateLimitStore now store !! k =
    match store !! k with
    | Some d => if decide (timestamp d < now - 60000) then None else Some d
    | None => None
    end.
Proof.
  unfold cleanupRateLimitStore. rewrite map_lookup_filter.
  destruct (store !! k) as [d|]; simpl; [|done].
  destruct (decide (timestamp d < now - 60000)); simpl.
  - rewrite option_guard_False; [done|]. intros Hn. by apply Hn.
  - by rewrite option_guard_True.
Qed.

(** An unknown caller, or one whose last admitted request is more than
    a minute old, starts a new count. *)
Lemma checkRateLimit_reset now ip (store : gmap string entry) :
  (store !! ip = None ∨ ∃ d, store !! ip = Some d ∧ 60000 < now - timestamp d) →
  (checkRateLimit CONFIG now ip store).2 = true ∧
  (checkRateLimit CONFIG now ip store).1 !! ip = Some {| count := 1; timestamp := now |}.
Proof.
  intros H. unfold checkRateLimit. rewrite cleanup_lookup.
  destruct H as [->|(d & -> & Hd)].
  - simpl. by rewrite lookup_insert_eq.
  - rewrite decide_True by lia. simpl. by rewrite lookup_insert_eq.
Qed.

(** A caller below the limit is admitted; the count goes up by one and
    the time stamp moves to the present request. *)
Lemma checkRateLimit_increment now ip (store : gmap string entry) d :
  store !! ip = Some d → now - timestamp d ≤ 60000 →
  count d < RATE_LIMIT_PER_MINUTE CONFIG →
  (checkRateLimit CONFIG now ip store).2 = true ∧
  (checkRateLimit CONFIG now ip store).1 !! ip =
    Some {| count := count d + 1; timestamp := now |}.
Proof.
  intros Hd Hfresh Hlt. unfold checkRateLimit. rewrite cleanup_lookup, Hd.
  rewrite decide_False by lia.
  destruct (timestamp d <? now - 60000) eqn:E1; [lia|].
  destruct (count d >=? RATE_LIMIT_PER_MINUTE CONFIG) eqn:E2; [lia|].
  simpl. by rewrite lookup_insert_eq.
Qed.

(** A caller at the limit is denied and its entry stays as it is. *)
Lemma checkRateLimit_deny now ip (store : gmap string entry) d :
  store !! ip = Some d → now - timestamp d ≤ 60000 →
  RATE_LIMIT_PER_MINUTE CONFIG ≤ count d →
  (checkRateLimit CONFIG now ip store).2 = false ∧
  (checkRateLimit CONFIG now ip store).1 !! ip = Some d.
Proof.
  intros Hd Hfresh Hge. unfold checkRateLimit. rewrite cleanup_lookup, Hd.
  rewrite decide_False by lia.
  destruct (timestamp d <? now - 60000) eqn:E1; [lia|].
  destruct (count d >=? RATE_LIMIT_PER_MINUTE CONFIG) eqn:E2; [|lia].
  simpl. rewrite cleanup_lookup, Hd. by rewrite decide_False by lia.
Qed.

(** The entries of the other callers: only the sweep touches them. *)
Lemma checkRateLimit_others now ip (store : gmap string entry) k :
  k ≠ ip →
  (checkRateLimit CONFIG now ip store).1 !! k =
    match store !! k with
    | Some d => if decide (timestamp d < now - 60000) then None else Some d
    | None => None
    end.
Proof.
  intros Hk. rewrite <- cleanup_lookup. unfold checkRateLimit.
  destruct (cleanupRateLimitStore now store !! ip) as [d|]; simpl.
  - destruct (timestamp d <? now - 60000); simpl.
    + by rewrite lookup_insert_ne.
    + destruct (count d >=? RATE_LIMIT_PER_MINUTE CONFIG); simpl; [done|].
      by rewrite lookup_insert_ne.
  - by rewrite lookup_insert_ne.
Qed.

(** The verdict of the limiter from the caller's entry. *)
Lemma checkRateLimit_verdict now ip (store : gmap string entry) :
  (checkRateLimit CONFIG now ip store).2 =
    match store !! ip with
    | Some d =>
        if decide (now - timestamp d ≤ 60000)
        then bool_decide (count d < RATE_LIMIT_PER_MINUTE CONFIG)
        else true
    | None => true
    end.
Proof.
  destruct (store !! ip) as [d|] eqn:Hd.
  - destruct (decide (now - timestamp d ≤ 60000)).
    + destruct (decide (count d < RATE_LIMIT_PER_MINUTE CONFIG)).
      * rewrite bool_decide_eq_true_2 by done.
        by apply (checkRateLimit_increment now ip store d).
      * rewrite bool_decide_eq_false_2 by done.
        apply (checkRateLimit_deny now ip store d); [done|done|lia].
    + apply checkRateLimit_reset. right. exists d. split; [done|lia].
  - apply checkRateLimit_reset. by left.
Qed.

End ChatRateLimit.

(** C3 (amended).  The chat proxy's limiter keeps, per caller, a count
    and the time of that caller's last admitted request.  With no
    entry, or when more than one minute has passed since that time, the
    entry becomes [{count: 1, timestamp: now}] and the request is
    admitted; otherwise a count below the maximum is incremented, the
    time stamp is set to [now] and the request is admitted; otherwise
    the request is denied and the entry is left as it is.  So once more
    than a minute has passed since the last admitted request, the
    counter restarts and the next request is admitted. *)
Theorem chat_limiter_counts_since_last_admitted
    (CONFIG : ChatbotProxy.config) (now : Z) (ip : string)
    (store : gmap string ChatbotProxy.entry) :
  let r := ChatbotProxy.checkRateLimit CONFIG now ip store in
  ((store !! ip = None ∨
    ∃ d, store !! ip = Some d ∧ (60000 < now - ChatbotProxy.timestamp d)%Z) →
   r.2 = true ∧
   r.1 !! ip = Some {| ChatbotProxy.count := 1; ChatbotProxy.timestamp := now |})
  ∧ (∀ d, store !! ip = Some d →
       (now - ChatbotProxy.timestamp d ≤ 60000)%Z →
       (ChatbotProxy.count d < ChatbotProxy.RATE_LIMIT_PER_MINUTE CONFIG)%Z →
       r.2 = true ∧
       r.1 !! ip = Some {| ChatbotProxy.count := ChatbotProxy.count d + 1;
                           ChatbotProxy.timestamp := now |})
  ∧ (∀ d, store !! ip = Some d →
       (now - ChatbotProxy.timestamp d ≤ 60000)%Z →
       (ChatbotProxy.RATE_LIMIT_PER_MINUTE CONFIG ≤ ChatbotProxy.count d)%Z →
       r.2 = false ∧ r.1 !! ip = Some d).
Proof.
  intros r. subst r. split; [|split].
  - apply checkRateLimit_reset.
  - intros d. apply checkRateLimit_increment.
  - intros d. apply checkRateLimit_deny.
Qed.

(** The three cases of C3 on a caller with ten requests a minute. *)
Lemma chat_limiter_counts_since_last_admitted_witness :
  let cfg := ChatbotProxy.default_config "https://n8n.example/webhook/chat" "s3cret" in
  let ip := "198.51.100.4" in
  let entry c t := {| ChatbotProxy.count := c; ChatbotProxy.timestamp := t |} in
  (ChatbotProxy.checkRateLimit cfg 70000 ip {[ ip := entry 10 5000 ]}).2 = true
  ∧ (ChatbotProxy.checkRateLimit cfg 70000 ip {[ ip := entry 3 20000 ]}).1 !! ip
      = Some (entry 4 70000)
  ∧ (ChatbotProxy.checkRateLimit cfg 70000 ip {[ ip := entry 10 20000 ]}).2 = false.
Proof.
  intros cfg ip entry. split; [|split].
  - apply (chat_limiter_counts_since_last_admitted cfg 70000 ip {[ ip := entry 10 5000 ]}).
    right. exists (entry 10 5000). split; [reflexivity | vm_compute; reflexivity].
  - apply (proj1 (proj2
      (chat_limiter_counts_since_last_admitted cfg 70000 ip {[ ip := entry 3 20000 ]}))
      (entry 3 20000)).
    + reflexivity.
    + vm_compute. discriminate.
    + vm_compute. reflexivity.
  - apply (proj2 (proj2
      (chat_limiter_counts_since_last_admitted cfg 70000 ip {[ ip := entry 10 20000 ]}))
      (entry 10 20000)).
    + reflexivity.
    + vm_compute. discriminate.
    + vm_compute. discriminate.
Defined.

(** C3 as stated fails.  A caller whose count started at time 0 and who
    sends nine more requests at 50 s holds an entry stamped 50000, not
    0: the start of the window is not left unchanged.  An eleventh
    request at 60.001 s, more than one window after the count started,
    is denied.  And a caller at the maximum whose entry is exactly one
    minute old is denied, not reset. *)
Lemma chat_limiter_not_fixed_window :
  let cfg := ChatbotProxy.default_config "https://n8n.example/webhook/chat" "s3cret" in
  let ip := "198.51.100.4" in
  let request t (s : gmap string ChatbotProxy.entry) :=
    (ChatbotProxy.checkRateLimit cfg t ip s).1 in
  let s1 := request 0%Z ∅ in
  let s2 := request 50000%Z s1 in
  let s10 := Nat.iter 8 (request 50000%Z) s2 in
  s1 !! ip = Some {| ChatbotProxy.count := 1; ChatbotProxy.timestamp := 0 |}
  ∧ s2 !! ip = Some {| ChatbotProxy.count := 2; ChatbotProxy.timestamp := 50000 |}
  ∧ s10 !! ip = Some {| ChatbotProxy.count := 10; ChatbotProxy.timestamp := 50000 |}
  ∧ (ChatbotProxy.checkRateLimit cfg 60001 ip s10).2 = false
  ∧ (ChatbotProxy.checkRateLimit cfg 60000 ip
       {[ ip := {| ChatbotProxy.count := 10; ChatbotProxy.timestamp := 0 |} ]}).2 = false.
Proof. vm_compute. repeat split; reflexivity. Qed.

(** ** The chat proxy's handler *)

Section ChatHandler.
Import Js ChatbotProxy.
Local Open Scope Z_scope.
Variable CONFIG : config.

(** The rate limit check of a POST runs whatever the body holds. *)
Lemma handler_post_store now net store ev :
  httpMethod ev = "POST" →
  (handler CONFIG now net store ev).1 = (checkRateLimit CONFIG now (clientIp ev) store).1.
Proof.
  intros Hm. unfold handler. rewrite Hm. simpl.
  destruct (checkRateLimit CONFIG now (clientIp ev) store) as [s a]. simpl.
  destruct a; simpl; [|done].
  destruct (parse_body (body ev)) as [j|e]; simpl; [|done].
  destruct (validateInput j) as [[error|data]|e]; simpl; try done.
  destruct (callN8nWebhook CONFIG net data); done.
Qed.

Lemma handler_post_denied now net store ev :
  httpMethod ev = "POST" →
  (checkRateLimit CONFIG now (clientIp ev) store).2 = false →
  (handler CONFIG now net store ev).2 = too_many_requests.
Proof.
  intros Hm Hd. unfold handler. rewrite Hm. simpl.
  destruct (checkRateLimit CONFIG now (clientIp ev) store) as [s a].
  simpl in Hd. by subst a.
Qed.

Lemma handler_post_unparseable now net store ev :
  httpMethod ev = "POST" →
  (checkRateLimit CONFIG now (clientIp ev) store).2 = true →
  body ev = Unparseable →
  (handler CONFIG now net store ev).2 =
    bad_request "invalid_json" "Invalid JSON in request body".
Proof.
  intros Hm Ha Hb. unfold handler. rewrite Hm, Hb. simpl.
  destruct (checkRateLimit CONFIG now (clientIp ev) store) as [s a].
  simpl in Ha. by subst a.
Qed.

Lemma handler_post_invalid now net store ev j error :
  httpMethod ev = "POST" →
  (checkRateLimit CONFIG now (clientIp ev) store).2 = true →
  parse_body (body ev) = Return j →
  validateInput j = Return (Invalid error) →
  (handler CONFIG now net store ev).2 = bad_request "validation_error" error.
Proof.
  intros Hm Ha Hb Hv. unfold handler. rewrite Hm, Hb. simpl.
  destruct (checkRateLimit CONFIG now (clientIp ev) store) as [s a].
  simpl in Ha. subst a. simpl. by rewrite Hv.
Qed.

(** A request that passes validation is answered with what the web
    hook gives. *)
Lemma handler_post_forwarded now net store ev j data :
  httpMethod ev = "POST" →
  (checkRateLimit CONFIG now (clientIp ev) store).2 = true →
  parse_body (body ev) = Return j →
  validateInput j = Return (Valid data) →
  (handler CONFIG now net store ev).2 =
    match callN8nWebhook CONFIG net data with
    | Return response =>
        {| statusCode := 200; resp_headers := CORS_HEADERS;
           resp_body := JsonBody response |}
    | Throw error => error_response error
    end.
Proof.
  intros Hm Ha Hb Hv. unfold handler. rewrite Hm, Hb. simpl.
  destruct (checkRateLimit CONFIG now (clientIp ev) store) as [s a].
  simpl in Ha. subst a. simpl. rewrite Hv. simpl.
  by destruct (callN8nWebhook CONFIG net data).
Qed.

(** The answer to a failure is a 500, a 503 or a 504. *)
Lemma error_response_status error :
  resp_headers (error_response error) = CORS_HEADERS
  ∧ statusCode (error_response error) ∈ [500; 503; 504].
Proof.
  unfold error_response.
  destruct (includes (err_message error) "timeout"); simpl.
  { split; [done|]. do 2 apply list_elem_of_further. apply list_elem_of_here. }
  destruct (includes (err_message error) "connect"); simpl.
  { split; [done|]. apply list_elem_of_further, list_elem_of_here. }
  destruct (includes (err_message error) "not configured"); simpl;
    (split; [done|apply list_elem_of_here]).
Qed.

End ChatHandler.

(** C10.  A POST from a caller who is not at the limit raises that
    caller's count by one (or starts it at 1) whatever the body holds:
    the store after the invocation is the one the rate limit check
    leaves, so a request answered 400 for malformed JSON or for a
    validation error has used one unit of the budget.  Entries of other
    callers are kept, except that those older than one minute are
    swept. *)
Theorem chat_post_consumes_budget_before_parsing
    (CONFIG : ChatbotProxy.config) (now : Z) (net : ChatbotProxy.webhook_outcome)
    (store : gmap string ChatbotProxy.entry) (ev : ChatbotProxy.event) :
  ChatbotProxy.httpMethod ev = "POST" →
  (∀ d, store !! ChatbotProxy.clientIp ev = Some d →
     now - ChatbotProxy.timestamp d ≤ 60000 →
     ChatbotProxy.count d < ChatbotProxy.RATE_LIMIT_PER_MINUTE CONFIG) →
  let ip := ChatbotProxy.clientIp ev in
  let r := ChatbotProxy.handler CONFIG now net store ev in
  r.1 !! ip =
    Some {| ChatbotProxy.count :=
              match store !! ip with
              | Some d =>
                  if decide (now - ChatbotProxy.timestamp d ≤ 60000)
                  then ChatbotProxy.count d + 1 else 1
              | None => 1
              end;
            ChatbotProxy.timestamp := now |}
  ∧ (∀ k, k ≠ ip →
       r.1 !! k =
         match store !! k with
         | Some d =>
             if decide (ChatbotProxy.timestamp d < now - 60000) then None else Some d
         | None => None
         end)
  ∧ (ChatbotProxy.body ev = ChatbotProxy.Unparseable →
       r.2 = ChatbotProxy.bad_request "invalid_json" "Invalid JSON in request body")
  ∧ (∀ j error,
       ChatbotProxy.parse_body (ChatbotProxy.body ev) = Js.Return j →
       ChatbotProxy.validateInput j = Js.Return (ChatbotProxy.Invalid error) →
       r.2 = ChatbotProxy.bad_request "validation_error" error).
Proof.
  intros Hm Hbelow ip r.
  assert (Hadm : (ChatbotProxy.checkRateLimit CONFIG now ip store).2 = true).
  { rewrite checkRateLimit_verdict. destruct (store !! ip) as [d|] eqn:Hd; [|done].
    destruct (decide (now - ChatbotProxy.timestamp d ≤ 60000)); [|done].
    apply bool_decide_eq_true_2. by apply Hbelow. }
  subst r. rewrite handler_post_store by done. fold ip.
  split; [|split; [|split]].
  - destruct (store !! ip) as [d|] eqn:Hd.
    + destruct (decide (now - ChatbotProxy.timestamp d ≤ 60000)).
      * apply (checkRateLimit_increment CONFIG now ip store d); auto.
      * apply checkRateLimit_reset. right. exists d. split; [done|lia].
    + apply checkRateLimit_reset. by left.
  - intros k Hk. by apply checkRateLimit_others.
  - intros Hb. by apply handler_post_unparseable.
  - intros j error Hb Hv. by apply handler_post_invalid with j.
Qed.

(** C10 on a caller with two requests in the last minute who posts a
    body that is not JSON: the answer is 400 and the count is 3. *)
Lemma chat_post_consumes_budget_before_parsing_witness :
  let cfg := ChatbotProxy.default_config "https://n8n.example/webhook/chat" "s3cret" in
  let ev := {| ChatbotProxy.httpMethod := "POST";
               ChatbotProxy.headers := {[ "x-forwarded-for" := "198.51.100.4, 10.0.0.1" ]};
               ChatbotProxy.body := ChatbotProxy.Unparseable |} in
  let store : gmap string ChatbotProxy.entry :=
    {[ "198.51.100.4" := {| ChatbotProxy.count := 2; ChatbotProxy.timestamp := 40000 |} ]} in
  let r := ChatbotProxy.handler cfg 70000 ChatbotProxy.WebhookTimeout store ev in
  r.1 !! "198.51.100.4" = Some {| ChatbotProxy.count := 3; ChatbotProxy.timestamp := 70000 |}
  ∧ ChatbotProxy.statusCode r.2 = 400.
Proof.
  intros cfg ev store r.
  assert (Hm : ChatbotProxy.httpMethod ev = "POST") by reflexivity.
  assert (Hbelow : ∀ d, store !! ChatbotProxy.clientIp ev = Some d →
            70000 - ChatbotProxy.timestamp d ≤ 60000 →
            ChatbotProxy.count d < ChatbotProxy.RATE_LIMIT_PER_MINUTE cfg).
  { intros d Hd _. vm_compute in Hd. injection Hd as <-. vm_compute. reflexivity. }
  destruct (chat_post_consumes_budget_before_parsing
              cfg 70000 ChatbotProxy.WebhookTimeout store ev Hm Hbelow)
    as (Hcount & _ & Hbad & _).
  split.
  - exact Hcount.
  - fold r in Hbad. rewrite Hbad; reflexivity.
Defined.

(** ** The chat proxy's validation *)

Section ChatValidation.
Import Js ChatbotProxy.

(** The payload: an object with a language and a session the proxy
    accepts. *)
Variable fs : list (string * json).
Variables lang sid : string.
Hypothesis Hlang : field "language" fs = Some (JStr lang).
Hypothesis Hlang_known : lang = "ja" ∨ lang = "en".
Hypothesis Hsid : field "sessionId" fs = Some (JStr sid).
Hypothesis Hsid_nonempty : sid ≠ "".

Lemma truthy_nonempty s : s ≠ "" → truthy (Some (JStr s)) = true.
Proof. intros H. simpl. destruct s; [done|reflexivity]. Qed.

Lemma language_accepted :
  negb (truthy (Some (JStr lang))) ||
  negb (is_str (Some (JStr lang)) "ja" || is_str (Some (JStr lang)) "en") = false.
Proof. destruct Hlang_known as [-> | ->]; reflexivity. Qed.

Lemma validateInput_not_a_string :
  (∀ msg, field "message" fs ≠ Some (JStr msg)) →
  validateInput (JObj fs) = Return (Invalid err_message_required).
Proof.
  intros H. unfold validateInput. simpl.
  destruct (field "message" fs) as [[| | |msg| |]|] eqn:E; simpl;
    try reflexivity; try (destruct b; reflexivity);
    try (destruct (negb (n =? 0)%Z); reflexivity).
  by destruct (H msg).
Qed.

Lemma validateInput_empty_string :
  field "message" fs = Some (JStr "") →
  validateInput (JObj fs) = Return (Invalid err_message_required).
Proof. intros H. unfold validateInput. simpl. by rewrite H. Qed.

(** Past the three presence checks, what is left of [validateInput]. *)
Lemma validateInput_message msg :
  field "message" fs = Some (JStr msg) → msg ≠ "" →
  validateInput (JObj fs) =
    if (MAX_MESSAGE_LENGTH <? strlen msg)%nat then Return (Invalid err_message_too_long)
    else if (strlen (trim msg) =? 0)%nat then Return (Invalid err_message_empty)
    else
      bad ← validateHistory (history_window (field "history" fs));
      match bad with
      | Some error => Return (Invalid error)
      | None =>
          Return (Valid {| d_message := trim msg; d_language := lang;
                           d_sessionId := sid;
                           d_history := history_window (field "history" fs) |})
      end.
Proof.
  intros Hmsg Hne. unfold validateInput. simpl.
  rewrite Hmsg, Hlang, Hsid.
  rewrite (truthy_nonempty msg Hne), (truthy_nonempty sid Hsid_nonempty).
  cbn [negb orb is_string].
  rewrite language_accepted. cbn [str_of].
  reflexivity.
Qed.

End ChatValidation.

(** C4 (amended).  Take a POST that the rate limiter admits, whose
    body parses to a payload with language ja or en, a session id that
    is a non-empty string and a history that is valid or absent.  The
    proxy answers 400 validation_error with an error about the message
    exactly when the message is absent, is not a string, is longer than
    500 characters as sent (before trimming), or is empty once trimmed.
    The empty message is answered 400 with an error that names the
    message, a message of more than 500 characters is answered 400 for
    its length, and every message of at most 500 characters with
    something left after trimming passes validation: it is forwarded
    trimmed, and the answer is the web hook's, never a 400. *)
Theorem chat_message_validation
    (CONFIG : ChatbotProxy.config) (now : Z) (net : ChatbotProxy.webhook_outcome)
    (store : gmap string ChatbotProxy.entry) (ev : ChatbotProxy.event)
    (fs : list (string * Js.json)) (lang sid : string) :
  ChatbotProxy.httpMethod ev = "POST" →
  (ChatbotProxy.checkRateLimit CONFIG now (ChatbotProxy.clientIp ev) store).2 = true →
  ChatbotProxy.body ev = ChatbotProxy.Parses (Js.JObj fs) →
  Js.field "language" fs = Some (Js.JStr lang) →
  lang = "ja" ∨ lang = "en" →
  Js.field "sessionId" fs = Some (Js.JStr sid) →
  sid ≠ "" →
  ChatbotProxy.validateHistory (ChatbotProxy.history_window (Js.field "history" fs))
    = Js.Return None →
  let r := ChatbotProxy.validateInput (Js.JObj fs) in
  let answer := (ChatbotProxy.handler CONFIG now net store ev).2 in
  ((∃ e, e ∈ ChatbotProxy.message_errors
         ∧ answer = ChatbotProxy.bad_request "validation_error" e) ↔
   ((∀ msg, Js.field "message" fs ≠ Some (Js.JStr msg)) ∨
    ∃ msg, Js.field "message" fs = Some (Js.JStr msg) ∧
           (ChatbotProxy.MAX_MESSAGE_LENGTH < Js.strlen msg ∨
            Js.strlen (Js.trim msg) = 0)%nat))
  ∧ (Js.field "message" fs = Some (Js.JStr "") →
       r = Js.Return (ChatbotProxy.Invalid "Message is required and must be a string")
       ∧ answer = ChatbotProxy.bad_request "validation_error"
                    "Message is required and must be a string")
  ∧ (∀ msg, Js.field "message" fs = Some (Js.JStr msg) →
       (500 < Js.strlen msg)%nat →
       r = Js.Return (ChatbotProxy.Invalid "Message too long (max 500 characters)")
       ∧ answer = ChatbotProxy.bad_request "validation_error"
                    "Message too long (max 500 characters)")
  ∧ (∀ msg, Js.field "message" fs = Some (Js.JStr msg) →
       (Js.strlen msg ≤ 500)%nat → (1 ≤ Js.strlen (Js.trim msg))%nat →
       let data :=
         {| ChatbotProxy.d_message := Js.trim msg;
            ChatbotProxy.d_language := lang;
            ChatbotProxy.d_sessionId := sid;
            ChatbotProxy.d_history :=
              ChatbotProxy.history_window (Js.field "history" fs) |} in
       r = Js.Return (ChatbotProxy.Valid data)
       ∧ answer = match ChatbotProxy.callN8nWebhook CONFIG net data with
                  | Js.Return response =>
                      {| ChatbotProxy.statusCode := 200;
                         ChatbotProxy.resp_headers := ChatbotProxy.CORS_HEADERS;
                         ChatbotProxy.resp_body := ChatbotProxy.JsonBody response |}
                  | Js.Throw error => ChatbotProxy.error_response error
                  end
       ∧ ChatbotProxy.statusCode answer ≠ 400).
Proof.
  intros Hpost Hadmitted Hbody Hlang Hknown Hsid Hsidne Hhist r answer.
  assert (Hparse : ChatbotProxy.parse_body (ChatbotProxy.body ev) = Js.Return (Js.JObj fs))
    by (by rewrite Hbody).
  assert (Hinvalid : ∀ e, r = Js.Return (ChatbotProxy.Invalid e) →
            answer = ChatbotProxy.bad_request "validation_error" e).
  { intros e Hr. by apply handler_post_invalid with (Js.JObj fs). }
  assert (Hvalid : ∀ data, r = Js.Return (ChatbotProxy.Valid data) →
            answer = match ChatbotProxy.callN8nWebhook CONFIG net data with
                     | Js.Return response =>
                         {| ChatbotProxy.statusCode := 200;
                            ChatbotProxy.resp_headers := ChatbotProxy.CORS_HEADERS;
                            ChatbotProxy.resp_body := ChatbotProxy.JsonBody response |}
                     | Js.Throw error => ChatbotProxy.error_response error
                     end
            ∧ ChatbotProxy.statusCode answer ≠ 400).
  { intros data Hr.
    pose proof (handler_post_forwarded CONFIG now net store ev (Js.JObj fs) data
                  Hpost Hadmitted Hparse Hr) as Hanswer.
    fold answer in Hanswer. split; [exact Hanswer|]. rewrite Hanswer.
    destruct (ChatbotProxy.callN8nWebhook CONFIG net data) as [response|error];
      [discriminate|].
    destruct (error_response_status error) as [_ Hstatus].
    intros E. rewrite E in Hstatus.
    repeat (apply elem_of_cons in Hstatus as [Hstatus|Hstatus]; [discriminate|]).
    by apply elem_of_nil in Hstatus. }
  assert (Hmsg : ∀ msg, Js.field "message" fs = Some (Js.JStr msg) → msg ≠ "" →
            r = if (ChatbotProxy.MAX_MESSAGE_LENGTH <? Js.strlen msg)%nat
                then Js.Return (ChatbotProxy.Invalid ChatbotProxy.err_message_too_long)
                else if (Js.strlen (Js.trim msg) =? 0)%nat
                then Js.Return (ChatbotProxy.Invalid ChatbotProxy.err_message_empty)
                else Js.Return (ChatbotProxy.Valid
                       {| ChatbotProxy.d_message := Js.trim msg;
                          ChatbotProxy.d_language := lang;
                          ChatbotProxy.d_sessionId := sid;
                          ChatbotProxy.d_history :=
                            ChatbotProxy.history_window (Js.field "history" fs) |})).
  { intros msg Hm Hne. subst r.
    rewrite (validateInput_message fs lang sid Hlang Hknown Hsid Hsidne msg Hm Hne).
    by rewrite Hhist. }
  split; [|split; [|split]].
  - split.
    + intros (e & He & Hanswer).
      destruct (Js.field "message" fs) as [[| | |msg| |]|] eqn:E;
        try (left; intros m; discriminate).
      right. exists msg. split; [done|].
      destruct (decide (msg = "")) as [->|Hne]; [right; reflexivity|].
      pose proof (Hmsg msg eq_refl Hne) as Hr.
      destruct (ChatbotProxy.MAX_MESSAGE_LENGTH <? Js.strlen msg)%nat eqn:E1;
        [left; by apply Nat.ltb_lt|].
      destruct (Js.strlen (Js.trim msg) =? 0)%nat eqn:E2;
        [right; by apply Nat.eqb_eq|].
      destruct (Hvalid _ Hr) as [_ Hstatus]. rewrite Hanswer in Hstatus. done.
    + intros [Hnone | (msg & Hm & Hbad)].
      * exists ChatbotProxy.err_message_required. split; [apply list_elem_of_here|].
        apply Hinvalid. by apply validateInput_not_a_string.
      * destruct (decide (msg = "")) as [->|Hne].
        -- exists ChatbotProxy.err_message_required. split; [apply list_elem_of_here|].
           apply Hinvalid. by apply validateInput_empty_string.
        -- pose proof (Hmsg msg Hm Hne) as Hr.
           destruct (ChatbotProxy.MAX_MESSAGE_LENGTH <? Js.strlen msg)%nat eqn:E1.
           ++ exists ChatbotProxy.err_message_too_long.
              split; [apply list_elem_of_further, list_elem_of_here|].
              by apply Hinvalid.
           ++ apply Nat.ltb_ge in E1.
              destruct Hbad as [Hlong|Hempty]; [lia|].
              rewrite Hempty in Hr. simpl in Hr.
              exists ChatbotProxy.err_message_empty. split; [|by apply Hinvalid].
              do 2 apply list_elem_of_further. apply list_elem_of_here.
  - intros Hm.
    assert (Hr : r = Js.Return (ChatbotProxy.Invalid
                       "Message is required and must be a string"))
      by (by apply validateInput_empty_string).
    split; [exact Hr|by apply Hinvalid].
  - intros msg Hm Hlong.
    assert (Hne : msg ≠ "") by (intros ->; simpl in Hlong; lia).
    pose proof (Hmsg msg Hm Hne) as Hr.
    replace (ChatbotProxy.MAX_MESSAGE_LENGTH <? Js.strlen msg)%nat with true in Hr
      by (symmetry; apply Nat.ltb_lt; unfold ChatbotProxy.MAX_MESSAGE_LENGTH; lia).
    split; [exact Hr|by apply Hinvalid].
  - intros msg Hm Hshort Hleft data.
    assert (Hne : msg ≠ "") by (intros ->; simpl in Hleft; lia).
    pose proof (Hmsg msg Hm Hne) as Hr.
    replace (ChatbotProxy.MAX_MESSAGE_LENGTH <? Js.strlen msg)%nat with false in Hr
      by (symmetry; apply Nat.ltb_ge; unfold ChatbotProxy.MAX_MESSAGE_LENGTH; lia).
    replace (Js.strlen (Js.trim msg) =? 0)%nat with false in Hr
      by (symmetry; apply Nat.eqb_neq; lia).
    split; [exact Hr|]. by apply Hvalid.
Qed.

(** C4 on first requests with the payloads [{message: " hello ", ...}],
    [{message: "", ...}] and [{message: "x".repeat(501), ...}], language
    ja and session abc, and a web hook that replies. *)
Lemma chat_message_validation_witness :
  let cfg := ChatbotProxy.default_config "https://n8n.example/webhook/chat" "s3cret" in
  let reply := Js.JObj [("response", Js.JStr "Hi!")] in
  let net := ChatbotProxy.WebhookResponse 200 (Some reply) in
  let payload m :=
    [("message", Js.JStr m); ("language", Js.JStr "ja"); ("sessionId", Js.JStr "abc")] in
  let ev m := {| ChatbotProxy.httpMethod := "POST";
                 ChatbotProxy.headers := {[ "x-forwarded-for" := "198.51.100.4" ]};
                 ChatbotProxy.body := ChatbotProxy.Parses (Js.JObj (payload m)) |} in
  let answer m := (ChatbotProxy.handler cfg 70000 net ∅ (ev m)).2 in
  (ChatbotProxy.validateInput (Js.JObj (payload " hello "))
     = Js.Return (ChatbotProxy.Valid
         {| ChatbotProxy.d_message := "hello"; ChatbotProxy.d_language := "ja";
            ChatbotProxy.d_sessionId := "abc"; ChatbotProxy.d_history := [] |})
   ∧ ChatbotProxy.statusCode (answer " hello ") ≠ 400)
  ∧ answer ""
    = ChatbotProxy.bad_request "validation_error" "Message is required and must be a string"
  ∧ answer (Js.repeat "x" 501)
    = ChatbotProxy.bad_request "validation_error" "Message too long (max 500 characters)".
Proof.
  intros cfg reply net payload ev answer.
  assert (H : ∀ m,
    ChatbotProxy.httpMethod (ev m) = "POST" ∧
    (ChatbotProxy.checkRateLimit cfg 70000 (ChatbotProxy.clientIp (ev m)) ∅).2 = true ∧
    ChatbotProxy.body (ev m) = ChatbotProxy.Parses (Js.JObj (payload m)) ∧
    Js.field "language" (payload m) = Some (Js.JStr "ja") ∧
    ("ja" = "ja" ∨ "ja" = "en") ∧
    Js.field "sessionId" (payload m) = Some (Js.JStr "abc") ∧
    "abc" ≠ "" ∧
    ChatbotProxy.validateHistory
      (ChatbotProxy.history_window (Js.field "history" (payload m))) = Js.Return None).
  { intros m. repeat split; [by left | discriminate]. }
  split; [|split].
  - destruct (H " hello ") as (H1 & H2 & H3 & H4 & H5 & H6 & H7 & H8).
    destruct (proj2 (proj2 (proj2
      (chat_message_validation cfg 70000 net ∅ (ev " hello ") (payload " hello ") "ja" "abc"
         H1 H2 H3 H4 H5 H6 H7 H8))) " hello ") as (Hr & _ & Hstatus).
    + reflexivity.
    + vm_compute. lia.
    + vm_compute. lia.
    + split; [exact Hr|exact Hstatus].
  - destruct (H "") as (H1 & H2 & H3 & H4 & H5 & H6 & H7 & H8).
    apply (proj1 (proj2
      (chat_message_validation cfg 70000 net ∅ (ev "") (payload "") "ja" "abc"
         H1 H2 H3 H4 H5 H6 H7 H8))).
    reflexivity.
  - destruct (H (Js.repeat "x" 501)) as (H1 & H2 & H3 & H4 & H5 & H6 & H7 & H8).
    apply (proj1 (proj2 (proj2
      (chat_message_validation cfg 70000 net ∅ (ev (Js.repeat "x" 501))
         (payload (Js.repeat "x" 501)) "ja" "abc" H1 H2 H3 H4 H5 H6 H7 H8)))
      (Js.repeat "x" 501)).
    + reflexivity.
    + vm_compute. lia.
Defined.

(** C4 as stated fails.  500 characters followed by a space make a
    message of 501 characters whose trimmed length, 500, lies in
    1..500, and the proxy, which admits the caller, answers 400 for
    the length of the message.  And an empty message from a caller
    who has used up the budget is answered 429, not 400. *)
Lemma chat_message_length_checked_before_trim :
  let cfg := ChatbotProxy.default_config "https://n8n.example/webhook/chat" "s3cret" in
  let net := ChatbotProxy.WebhookResponse 200 (Some (Js.JObj [("response", Js.JStr "Hi!")])) in
  let msg := Js.repeat "x" 500 +:+ " " in
  let body m := Js.JObj [("message", Js.JStr m); ("language", Js.JStr "ja");
                         ("sessionId", Js.JStr "abc")] in
  let ev m := {| ChatbotProxy.httpMethod := "POST";
                 ChatbotProxy.headers := {[ "x-forwarded-for" := "198.51.100.4" ]};
                 ChatbotProxy.body := ChatbotProxy.Parses (body m) |} in
  let spent : gmap string ChatbotProxy.entry :=
    {[ "198.51.100.4" := {| ChatbotProxy.count := 10; ChatbotProxy.timestamp := 69000 |} ]} in
  Js.strlen (Js.trim msg) = 500%nat
  ∧ (ChatbotProxy.checkRateLimit cfg 70000 (ChatbotProxy.clientIp (ev msg)) ∅).2 = true
  ∧ ChatbotProxy.validateInput (body msg)
    = Js.Return (ChatbotProxy.Invalid "Message too long (max 500 characters)")
  ∧ (ChatbotProxy.handler cfg 70000 net ∅ (ev msg)).2
    = ChatbotProxy.bad_request "validation_error" "Message too long (max 500 characters)"
  ∧ (ChatbotProxy.handler cfg 70000 net spent (ev "")).2 = ChatbotProxy.too_many_requests.
Proof. repeat split; vm_compute; reflexivity. Qed.

(** ** The chat proxy's history check *)

Section ChatHistory.
Import Js ChatbotProxy.

(** Entries that pass the check do not decide the outcome. *)
Lemma validateHistory_app pre post :
  validateHistory pre = Return None →
  validateHistory (pre ++ post) = validateHistory post.
Proof.
  induction pre as [|item pre IH]; simpl; [done|].
  destruct (get item "role") as [role|e]; simpl; [|done].
  destruct (negb (truthy role)); [done|].
  destruct (get item "content") as [content|e]; simpl; [|done].
  destruct (negb (truthy content) || negb (is_string role) || negb (is_string content));
    [done|].
  destruct (negb (is_str role "user" || is_str role "assistant")); [done|].
  exact IH.
Qed.

(** An entry whose content is the empty string fails the check,
    whatever its role. *)
Lemma validateHistory_empty_content e rest :
  field "content" e = Some (JStr "") →
  validateHistory (JObj e :: rest) = Return (Some err_history_format).
Proof.
  intros Hc. simpl. destruct (negb (truthy (field "role" e))); [done|].
  by rewrite Hc.
Qed.

End ChatHistory.

(** C9 (amended).  Take a payload with a valid message, language and
    session id, and a history array.  If among the last five entries
    of the history there is one with role user or assistant whose
    content is the empty string, and the entries of those five before
    it are valid, then [validateInput] returns invalid with
    "Invalid history format"; the handler answers 400 validation_error
    with that message when the rate limiter admits the caller, and 429
    when it does not. *)
Theorem chat_empty_history_content_rejected
    (CONFIG : ChatbotProxy.config) (now : Z) (net : ChatbotProxy.webhook_outcome)
    (store : gmap string ChatbotProxy.entry) (ev : ChatbotProxy.event)
    (fs : list (string * Js.json)) (msg lang sid role : string)
    (items pre post : list Js.json) (e : list (string * Js.json)) :
  ChatbotProxy.httpMethod ev = "POST" →
  ChatbotProxy.body ev = ChatbotProxy.Parses (Js.JObj fs) →
  Js.field "message" fs = Some (Js.JStr msg) →
  (Js.strlen msg ≤ 500)%nat → (1 ≤ Js.strlen (Js.trim msg))%nat →
  Js.field "language" fs = Some (Js.JStr lang) → lang = "ja" ∨ lang = "en" →
  Js.field "sessionId" fs = Some (Js.JStr sid) → sid ≠ "" →
  Js.field "history" fs = Some (Js.JArr items) →
  Js.slice_last 5 items = pre ++ Js.JObj e :: post →
  ChatbotProxy.validateHistory pre = Js.Return None →
  Js.field "role" e = Some (Js.JStr role) → role = "user" ∨ role = "assistant" →
  Js.field "content" e = Some (Js.JStr "") →
  ChatbotProxy.validateInput (Js.JObj fs)
    = Js.Return (ChatbotProxy.Invalid "Invalid history format")
  ∧ (ChatbotProxy.handler CONFIG now net store ev).2 =
      if (ChatbotProxy.checkRateLimit CONFIG now (ChatbotProxy.clientIp ev) store).2
      then ChatbotProxy.bad_request "validation_error" "Invalid history format"
      else ChatbotProxy.too_many_requests.
Proof.
  intros Hm Hb Hmsg Hshort Hleft Hlang Hknown Hsid Hsidne Hhist Hwin Hpre Hrole _ Hcontent.
  assert (Hne : msg ≠ "") by (intros ->; simpl in Hleft; lia).
  assert (Hv : ChatbotProxy.validateInput (Js.JObj fs)
               = Js.Return (ChatbotProxy.Invalid "Invalid history format")).
  { rewrite (validateInput_message fs lang sid Hlang Hknown Hsid Hsidne msg Hmsg Hne).
    replace (ChatbotProxy.MAX_MESSAGE_LENGTH <? Js.strlen msg)%nat with false
      by (symmetry; apply Nat.ltb_ge; unfold ChatbotProxy.MAX_MESSAGE_LENGTH; lia).
    replace (Js.strlen (Js.trim msg) =? 0)%nat with false
      by (symmetry; apply Nat.eqb_neq; lia).
    rewrite Hhist. unfold ChatbotProxy.history_window, ChatbotProxy.MAX_HISTORY_LENGTH.
    rewrite Hwin, (validateHistory_app pre _ Hpre).
    by rewrite (validateHistory_empty_content e post Hcontent). }
  split; [exact Hv|].
  destruct (ChatbotProxy.checkRateLimit CONFIG now (ChatbotProxy.clientIp ev) store).2 eqn:Ha.
  - apply handler_post_invalid with (Js.JObj fs); [done|done| |done].
    by rewrite Hb.
  - by apply handler_post_denied.
Qed.

(** C9 on a first request whose history ends with an assistant turn of
    empty content. *)
Lemma chat_empty_history_content_rejected_witness :
  let cfg := ChatbotProxy.default_config "https://n8n.example/webhook/chat" "s3cret" in
  let turn r c := Js.JObj [("role", Js.JStr r); ("content", Js.JStr c)] in
  let fs := [("message", Js.JStr "hello"); ("language", Js.JStr "en");
             ("sessionId", Js.JStr "abc");
             ("history", Js.JArr [turn "user" "hi"; turn "assistant" ""])] in
  let ev := {| ChatbotProxy.httpMethod := "POST";
               ChatbotProxy.headers := {[ "x-forwarded-for" := "198.51.100.4" ]};
               ChatbotProxy.body := ChatbotProxy.Parses (Js.JObj fs) |} in
  ChatbotProxy.validateInput (Js.JObj fs)
    = Js.Return (ChatbotProxy.Invalid "Invalid history format")
  ∧ (ChatbotProxy.handler cfg 70000 ChatbotProxy.WebhookTimeout ∅ ev).2
    = ChatbotProxy.bad_request "validation_error" "Invalid history format".
Proof.
  intros cfg turn fs ev.
  refine (chat_empty_history_content_rejected cfg 70000 ChatbotProxy.WebhookTimeout ∅ ev
            fs "hello" "en" "abc" "assistant"
            [turn "user" "hi"; turn "assistant" ""] [turn "user" "hi"] []
            [("role", Js.JStr "assistant"); ("content", Js.JStr "")]
            _ _ _ _ _ _ _ _ _ _ _ _ _ _ _);
    try reflexivity.
  - vm_compute. lia.
  - vm_compute. lia.
  - by right.
  - discriminate.
  - by right.
Defined.

(** C9 as stated fails: an entry with empty content that is not among
    the last five entries of the history is never looked at, and the
    payload is accepted and forwarded. *)
Lemma chat_old_history_entries_unchecked :
  let cfg := ChatbotProxy.default_config "https://n8n.example/webhook/chat" "s3cret" in
  let turn r c := Js.JObj [("role", Js.JStr r); ("content", Js.JStr c)] in
  let recent := [turn "assistant" "a"; turn "user" "b"; turn "assistant" "c";
                 turn "user" "d"; turn "assistant" "e"] in
  let body := Js.JObj [("message", Js.JStr "hello"); ("language", Js.JStr "en");
                       ("sessionId", Js.JStr "abc");
                       ("history", Js.JArr (turn "user" "" :: recent))] in
  let ev := {| ChatbotProxy.httpMethod := "POST";
               ChatbotProxy.headers := {[ "x-forwarded-for" := "198.51.100.4" ]};
               ChatbotProxy.body := ChatbotProxy.Parses body |} in
  let reply := Js.JObj [("response", Js.JStr "Hi!")] in
  ChatbotProxy.validateInput body
    = Js.Return (ChatbotProxy.Valid
        {| ChatbotProxy.d_message := "hello"; ChatbotProxy.d_language := "en";
           ChatbotProxy.d_sessionId := "abc"; ChatbotProxy.d_history := recent |})
  ∧ ChatbotProxy.statusCode
      (ChatbotProxy.handler cfg 70000
         (ChatbotProxy.WebhookResponse 200 (Some reply)) ∅ ev).2 = 200.
Proof. split; vm_compute; reflexivity. Qed.

(** ** The contact proxy's handler *)

Section ContactHandler.
Import Js ContactFormProxy.
Variable CONFIG : config.

Lemma contact_handler_denied now now_iso net store ev retryAfter :
  httpMethod ev = "POST" →
  (checkRateLimit now (clientIP ev) store).2 = Denied retryAfter →
  (handler CONFIG now now_iso net store ev).2 =
    respond 429 [("error", JStr "Too many requests"); ("retryAfter", JNum retryAfter)].
Proof.
  intros Hm Hd. unfold handler. rewrite Hm. simpl.
  destruct (checkRateLimit now (clientIP ev) store) as [s c].
  simpl in Hd. by subst c.
Qed.

Lemma contact_handler_invalid now now_iso net store ev requestData errors :
  httpMethod ev = "POST" →
  (checkRateLimit now (clientIP ev) store).2 = Allowed →
  body ev = Parses requestData →
  validateAndSanitize now_iso requestData = Return (Invalid errors) →
  (handler CONFIG now now_iso net store ev).2 =
    respond 400 [("error", JStr "Validation failed");
                 ("details", JArr (JStr <$> errors))].
Proof.
  intros Hm Ha Hb Hv. unfold handler. rewrite Hm. simpl.
  destruct (checkRateLimit now (clientIP ev) store) as [s c].
  simpl in Ha. subst c. unfold process. rewrite Hb. simpl. by rewrite Hv.
Qed.

End ContactHandler.

(** C1 (amended).  In both proxies the per-IP rate limit check comes
    before the body is parsed and validated.  A POST to the chat proxy
    whose body is a non-empty text that is not JSON is answered 400
    invalid_json when the limiter admits the caller and 429 when it
    does not; a POST to the contact proxy whose payload
    [validateAndSanitize] rejects is answered 400 "Validation failed"
    when the limiter admits the caller and 429 when it does not. *)
Theorem proxies_check_rate_limit_before_validation
    (CONFIG : ChatbotProxy.config) (now : Z) (net : ChatbotProxy.webhook_outcome)
    (store : gmap string ChatbotProxy.entry) (ev : ChatbotProxy.event)
    (CONFIG' : ContactFormProxy.config) (now' : Z) (now_iso : string)
    (net' : ContactFormProxy.fetch_outcome)
    (store' : gmap string (list Z)) (ev' : ContactFormProxy.event)
    (requestData : Js.json) (errors : list string) :
  ChatbotProxy.httpMethod ev = "POST" →
  ChatbotProxy.body ev = ChatbotProxy.Unparseable →
  ContactFormProxy.httpMethod ev' = "POST" →
  ContactFormProxy.body ev' = ContactFormProxy.Parses requestData →
  ContactFormProxy.validateAndSanitize now_iso requestData
    = Js.Return (ContactFormProxy.Invalid errors) →
  (ChatbotProxy.handler CONFIG now net store ev).2 =
    (if (ChatbotProxy.checkRateLimit CONFIG now (ChatbotProxy.clientIp ev) store).2
     then ChatbotProxy.bad_request "invalid_json" "Invalid JSON in request body"
     else ChatbotProxy.too_many_requests)
  ∧ (ContactFormProxy.handler CONFIG' now' now_iso net' store' ev').2 =
    match (ContactFormProxy.checkRateLimit now' (ContactFormProxy.clientIP ev') store').2 with
    | ContactFormProxy.Allowed =>
        ContactFormProxy.respond 400
          [("error", Js.JStr "Validation failed");
           ("details", Js.JArr (Js.JStr <$> errors))]
    | ContactFormProxy.Denied retryAfter =>
        ContactFormProxy.respond 429
          [("error", Js.JStr "Too many requests"); ("retryAfter", Js.JNum retryAfter)]
    end.
Proof.
  intros Hm Hb Hm' Hb' Hv. split.
  - destruct (ChatbotProxy.checkRateLimit CONFIG now (ChatbotProxy.clientIp ev) store).2
      eqn:Ha.
    + by apply handler_post_unparseable.
    + by apply handler_post_denied.
  - destruct (ContactFormProxy.checkRateLimit now' (ContactFormProxy.clientIP ev') store').2
      as [|retryAfter] eqn:Ha.
    + by apply contact_handler_invalid with requestData.
    + by apply contact_handler_denied.
Qed.

(** C1 on two first requests: both callers are admitted and both get
    their 400. *)
Lemma proxies_check_rate_limit_before_validation_witness :
  let cfg := ChatbotProxy.default_config "https://n8n.example/webhook/chat" "s3cret" in
  let ev := {| ChatbotProxy.httpMethod := "POST";
               ChatbotProxy.headers := {[ "x-forwarded-for" := "198.51.100.4" ]};
               ChatbotProxy.body := ChatbotProxy.Unparseable |} in
  let cfg' := {| ContactFormProxy.N8N_WEBHOOK_URL := Some "https://n8n.example/webhook/contact";
                 ContactFormProxy.API_KEY := Some "s3cret" |} in
  let ev' := {| ContactFormProxy.httpMethod := "POST";
                ContactFormProxy.headers := {[ "x-forwarded-for" := "198.51.100.4" ]};
                ContactFormProxy.body :=
                  ContactFormProxy.Parses (Js.JObj [("name", Js.JStr "Bob")]) |} in
  ChatbotProxy.statusCode
    (ChatbotProxy.handler cfg 70000 ChatbotProxy.WebhookTimeout ∅ ev).2 = 400
  ∧ ContactFormProxy.statusCode
      (ContactFormProxy.handler cfg' 70000 "2025-01-01T00:00:00.000Z"
         (ContactFormProxy.FetchResponse 200) ∅ ev').2 = 400.
Proof.
  intros cfg ev cfg' ev'.
  destruct (proxies_check_rate_limit_before_validation
              cfg 70000 ChatbotProxy.WebhookTimeout ∅ ev
              cfg' 70000 "2025-01-01T00:00:00.000Z" (ContactFormProxy.FetchResponse 200) ∅ ev'
              (Js.JObj [("name", Js.JStr "Bob")])
              ["Missing or invalid field: email"; "Missing or invalid field: message"]
              eq_refl eq_refl eq_refl eq_refl eq_refl) as [H H'].
  split.
  - rewrite H. reflexivity.
  - rewrite H'. reflexivity.
Defined.

(** C1 as stated fails: a caller who is at the limit receives 429, not
    400, for a body that is not JSON (chat proxy) and for a payload
    that fails validation (contact proxy). *)
Lemma proxies_answer_429_before_validating :
  let cfg := ChatbotProxy.default_config "https://n8n.example/webhook/chat" "s3cret" in
  let ev := {| ChatbotProxy.httpMethod := "POST";
               ChatbotProxy.headers := {[ "x-forwarded-for" := "198.51.100.4" ]};
               ChatbotProxy.body := ChatbotProxy.Unparseable |} in
  let store : gmap string ChatbotProxy.entry :=
    {[ "198.51.100.4" := {| ChatbotProxy.count := 10; ChatbotProxy.timestamp := 69000 |} ]} in
  let cfg' := {| ContactFormProxy.N8N_WEBHOOK_URL := Some "https://n8n.example/webhook/contact";
                 ContactFormProxy.API_KEY := Some "s3cret" |} in
  let payload := Js.JObj [("name", Js.JStr "Bob")] in
  let ev' := {| ContactFormProxy.httpMethod := "POST";
                ContactFormProxy.headers := {[ "x-forwarded-for" := "198.51.100.4" ]};
                ContactFormProxy.body := ContactFormProxy.Parses payload |} in
  let store' : gmap string (list Z) :=
    {[ "198.51.100.4" := [60000; 61000; 62000; 63000; 64000;
                          65000; 66000; 67000; 68000; 69000] ]} in
  ChatbotProxy.statusCode
    (ChatbotProxy.handler cfg 70000 ChatbotProxy.WebhookTimeout store ev).2 = 429
  ∧ ContactFormProxy.validateAndSanitize "2025-01-01T00:00:00.000Z" payload
    = Js.Return (ContactFormProxy.Invalid
        ["Missing or invalid field: email"; "Missing or invalid field: message"])
  ∧ ContactFormProxy.statusCode
      (ContactFormProxy.handler cfg' 70000 "2025-01-01T00:00:00.000Z"
         (ContactFormProxy.FetchResponse 200) store' ev').2 = 429.
Proof. repeat split; vm_compute; reflexivity. Qed.

(** ** The widget's rate limiter *)

Section WidgetRateLimit.
Import Js ChatbotWidget.

Lemma ceil_div_1000_spec x :
  1000 * (ceil_div_1000 x - 1) < x ≤ 1000 * ceil_div_1000 x.
Proof.
  unfold ceil_div_1000.
  pose proof (Z.div_mod (- x) 1000 ltac:(lia)) as Hdm.
  pose proof (Z.mod_pos_bound (- x) 1000 ltac:(lia)) as Hm.
  lia.
Qed.

Lemma fold_left_min_le (l : list Z) x : fold_left Z.min l x ≤ x.
Proof.
  revert x. induction l as [|y l IH]; intros x; simpl; [lia|].
  specialize (IH (Z.min x y)). lia.
Qed.

Lemma fold_left_min_lower (l : list Z) x t : t ∈ l → fold_left Z.min l x ≤ t.
Proof.
  revert x. induction l as [|y l IH]; intros x Ht; simpl.
  - by apply elem_of_nil in Ht.
  - apply elem_of_cons in Ht as [->|Ht].
    + pose proof (fold_left_min_le l (Z.min x y)). lia.
    + by apply IH.
Qed.

Lemma fold_left_min_elem (l : list Z) x :
  fold_left Z.min l x = x ∨ fold_left Z.min l x ∈ l.
Proof.
  revert x. induction l as [|y l IH]; intros x; simpl; [by left|].
  destruct (IH (Z.min x y)) as [H|H].
  - rewrite H. destruct (Z.min_spec x y) as [[_ ->]|[_ ->]]; [by left|].
    right. apply list_elem_of_here.
  - right. by apply list_elem_of_further.
Qed.

(** [Math.min] of a non-empty array is its least element. *)
Lemma Math_min_least (l : list Z) :
  l ≠ [] → Math_min l ∈ l ∧ ∀ t, t ∈ l → Math_min l ≤ t.
Proof.
  destruct l as [|x l]; [done|]. intros _. simpl. split.
  - destruct (fold_left_min_elem l x) as [-> | H].
    + apply list_elem_of_here.
    + by apply list_elem_of_further.
  - intros t Ht. apply elem_of_cons in Ht as [->|Ht].
    + apply fold_left_min_le.
    + by apply fold_left_min_lower.
Qed.

(** Pruning to a wider window does not change what a narrower window
    sees. *)
Lemma within_within now w d (l : list Z) :
  w ≤ d → within now w (within now d l) = within now w l.
Proof.
  intros Hwd. unfold within. apply list_filter_filter_l. intros t. lia.
Qed.

Lemma within_recent now w (l : list Z) t : t ∈ within now w l → now - t < w.
Proof. unfold within. rewrite list_elem_of_filter. tauto. Qed.

(** A result of the loop over the checks is a denial. *)
Lemma run_checks_denies now l cs r : run_checks now l cs = Some r → allowed r = false.
Proof.
  induction cs as [|c cs IH]; simpl; [done|].
  destruct (Z.of_nat (length (within now (window (check_limit c)) l)) >=? max (check_limit c)).
  - by intros [= <-].
  - exact IH.
Qed.

(** Storage changes on the admitted path only. *)
Lemma checkRateLimit_denied_keeps_item writable now item :
  allowed (checkRateLimit writable now item).2 = false →
  (checkRateLimit writable now item).1 = item.
Proof.
  unfold checkRateLimit.
  destruct (run_checks now (within now (window PER_DAY) (load_times item)) checks); simpl;
    [done|discriminate].
Qed.

Lemma checkRateLimit_allowed_writes now item :
  allowed (checkRateLimit true now item).2 = true →
  (checkRateLimit true now item).1 =
    Item (within now (window PER_DAY) (load_times item) ++ [now]).
Proof.
  unfold checkRateLimit.
  destruct (run_checks now (within now (window PER_DAY) (load_times item)) checks)
    as [r|] eqn:E; simpl; [|done].
  intros Ha. apply run_checks_denies in E. congruence.
Qed.

(** When the one-minute tier is exhausted the loop stops there. *)
Lemma checkRateLimit_minute_tier writable now item :
  max PER_MINUTE ≤ Z.of_nat (length (within now (window PER_MINUTE) (load_times item))) →
  checkRateLimit writable now item =
    (item,
     Denied (localize (messages check_PER_MINUTE) getCurrentLanguage)
       (ceil_div_1000
          (Math_min (within now (window PER_MINUTE) (load_times item))
           + window PER_MINUTE - now))).
Proof.
  intros Hfull. unfold checkRateLimit, checks. cbn [run_checks check_limit check_PER_MINUTE].
  rewrite within_within by (vm_compute; discriminate).
  destruct (Z.of_nat (length (within now (window PER_MINUTE) (load_times item)))
            >=? max PER_MINUTE) eqn:E; [reflexivity|lia].
Qed.

End WidgetRateLimit.

(** C7.  When the one-minute tier (8 a minute) and the ten-minute tier
    (20 in ten minutes) are both exhausted, [checkRateLimit] denies
    with the message of the one-minute tier, which differs from that of
    the ten-minute tier, and with
    [retryAfter = ceil((oldest + window - now) / 1000)], where
    [oldest] is the least of the stored times within the last minute.
    Nothing is written to storage. *)
Theorem widget_minute_tier_takes_precedence
    (writable : bool) (now : Z) (item : ChatbotWidget.stored_times) :
  let times := ChatbotWidget.load_times item in
  let minute := ChatbotWidget.within now (60 * 1000) times in
  let ten_minutes := ChatbotWidget.within now (10 * 60 * 1000) times in
  8 ≤ Z.of_nat (length minute) →
  20 ≤ Z.of_nat (length ten_minutes) →
  ∃ oldest retryAfter,
    oldest ∈ minute ∧ (∀ t, t ∈ minute → oldest ≤ t)
    ∧ retryAfter = Js.ceil_div_1000 (oldest + 60 * 1000 - now)
    ∧ 1000 * (retryAfter - 1) < oldest + 60 * 1000 - now ≤ 1000 * retryAfter
    ∧ ChatbotWidget.checkRateLimit writable now item =
        (item,
         ChatbotWidget.Denied
           (ChatbotWidget.msg_ja (ChatbotWidget.messages ChatbotWidget.check_PER_MINUTE))
           retryAfter)
    ∧ ChatbotWidget.msg_ja (ChatbotWidget.messages ChatbotWidget.check_PER_MINUTE)
      ≠ ChatbotWidget.msg_ja (ChatbotWidget.messages ChatbotWidget.check_PER_10_MINUTES).
Proof.
  intros times minute ten_minutes Hminute _.
  assert (Hne : minute ≠ []) by (intros E; rewrite E in Hminute; simpl in Hminute; lia).
  destruct (Math_min_least minute Hne) as [Hin Hleast].
  exists (Js.Math_min minute), (Js.ceil_div_1000 (Js.Math_min minute + 60 * 1000 - now)).
  split; [exact Hin|]. split; [exact Hleast|]. split; [reflexivity|].
  split; [apply ceil_div_1000_spec|]. split.
  - apply checkRateLimit_minute_tier. exact Hminute.
  - vm_compute. discriminate.
Qed.

(** C7 on a history of twenty sends in the last ten minutes, eight of
    them in the last minute. *)
Lemma widget_minute_tier_takes_precedence_witness :
  let now := 100000000 in
  let item := ChatbotWidget.Item
    [99500000; 99501000; 99502000; 99503000; 99504000; 99505000;
     99506000; 99507000; 99508000; 99509000; 99510000; 99511000;
     99950000; 99951000; 99952000; 99953000; 99954000; 99955000;
     99956000; 99957000] in
  ∃ retryAfter,
    ChatbotWidget.checkRateLimit true now item =
      (item,
       ChatbotWidget.Denied
         (ChatbotWidget.msg_ja (ChatbotWidget.messages ChatbotWidget.check_PER_MINUTE))
         retryAfter)
    ∧ retryAfter = 10.
Proof.
  intros now item.
  destruct (widget_minute_tier_takes_precedence true now item)
    as (oldest & retryAfter & Hin & Hleast & _ & Hceil & Hres & _).
  - vm_compute. discriminate.
  - vm_compute. discriminate.
  - exists retryAfter. split; [exact Hres|].
    assert (Hlow : 99950000 ≤ oldest).
    { vm_compute in Hin. repeat (apply elem_of_cons in Hin as [->|Hin]; [lia|]).
      by apply elem_of_nil in Hin. }
    assert (Hup : oldest ≤ 99950000).
    { apply Hleast. vm_compute. apply list_elem_of_here. }
    lia.
Defined.

(** C5 (amended).  After a call to the widget's [checkRateLimit] that
    is allowed and whose write to storage succeeds, the stored sequence
    holds no time stamp older than the largest window: every stored
    [t] has [now - t < 24 h].  A denied call leaves the stored sequence
    as it was; it is the sequence the tiers are checked on that is
    pruned, not the stored one. *)
Theorem widget_storage_pruned_when_allowed
    (writable : bool) (now : Z) (item : ChatbotWidget.stored_times) :
  let r := ChatbotWidget.checkRateLimit writable now item in
  (ChatbotWidget.allowed r.2 = true → writable = true →
     ∃ l, r.1 = ChatbotWidget.Item l ∧ ∀ t, t ∈ l → now - t < 24 * 60 * 60 * 1000)
  ∧ (ChatbotWidget.allowed r.2 = false → r.1 = item).
Proof.
  intros r. subst r. split.
  - intros Ha ->.
    exists (ChatbotWidget.within now (ChatbotWidget.window ChatbotWidget.PER_DAY)
              (ChatbotWidget.load_times item) ++ [now]).
    split; [by apply checkRateLimit_allowed_writes|].
    intros t Ht. apply elem_of_app in Ht as [Ht|Ht].
    + apply within_recent in Ht. exact Ht.
    + apply list_elem_of_singleton in Ht as ->. lia.
  - apply checkRateLimit_denied_keeps_item.
Qed.

(** C5 on a history with one send of two days ago and two recent ones
    (allowed: the old one is gone), and on one with a send of two days
    ago and eight in the last minute (denied: storage unchanged). *)
Lemma widget_storage_pruned_when_allowed_witness :
  let now := 200000000 in
  (ChatbotWidget.checkRateLimit true now
     (ChatbotWidget.Item [1000; 199990000; 199995000])).1
    = ChatbotWidget.Item [199990000; 199995000; 200000000]
  ∧ (ChatbotWidget.checkRateLimit true now
       (ChatbotWidget.Item [1000; 199950000; 199951000; 199952000; 199953000;
                            199954000; 199955000; 199956000; 199957000])).1
    = ChatbotWidget.Item [1000; 199950000; 199951000; 199952000; 199953000;
                          199954000; 199955000; 199956000; 199957000].
Proof.
  intros now. split.
  - destruct (proj1 (widget_storage_pruned_when_allowed true now
               (ChatbotWidget.Item [1000; 199990000; 199995000])))
      as (l & Hl & _); [reflexivity|reflexivity|].
    rewrite Hl. vm_compute in Hl. injection Hl as <-. reflexivity.
  - apply (proj2 (widget_storage_pruned_when_allowed true now _)).
    vm_compute. reflexivity.
Defined.

(** C5 as stated fails: on a denied call nothing is written, so a time
    stamp of more than 24 hours ago that was in storage is still
    there after the call. *)
Lemma widget_denied_call_keeps_stale_times :
  let now := 200000000 in
  let item := ChatbotWidget.Item
    [1000; 199950000; 199951000; 199952000; 199953000;
     199954000; 199955000; 199956000; 199957000] in
  let r := ChatbotWidget.checkRateLimit true now item in
  ChatbotWidget.allowed r.2 = false
  ∧ r.1 = item
  ∧ 1000 ∈ ChatbotWidget.load_times r.1
  ∧ 24 * 60 * 60 * 1000 < now - 1000.
Proof.
  repeat split; try (vm_compute; reflexivity).
  apply list_elem_of_here.
Qed.

(** ** The widget's call to the proxy *)

(** C2.  A first message, sent on a page whose [sessionStorage]
    refuses writes, with a proxy that would reply.  The message passes
    the checks of [sendMessage] and [callAI] is called, but
    [getSessionId] throws while the request body is built: [callAI]
    makes no attempt at all, neither the initial one nor a retry.  It
    rejects with the storage error, and the user is shown the default
    error message. *)
Theorem widget_call_without_session_storage_makes_no_attempt :
  let w := {| ChatbotWidget.conversation :=
                {| ChatbotWidget.messageHistory := [];
                   ChatbotWidget.chatbot_history := None |};
              ChatbotWidget.isProcessing := false;
              ChatbotWidget.rate_limit_item := ChatbotWidget.NoItem |} in
  let s := {| ChatbotWidget.sessionId := None; ChatbotWidget.chatbot_session_id := None |} in
  let storage := fun _ : nat =>
    {| ChatbotWidget.can_read := true; ChatbotWidget.can_write := false |} in
  let random := fun _ _ : nat => 7 in
  let net := fun _ : nat =>
    ChatbotWidget.FetchResponse 200
      (Js.Return (Js.JObj [("response", Js.JStr "Hello!")])) in
  let asked :=
    ChatbotWidget.addMessage false 1001 "hello" true ChatbotWidget.normal
      (ChatbotWidget.conversation w) in
  let out := ChatbotWidget.sendMessage true true false 1000 1001 1002
               storage random net s w "hello" in
  (ChatbotWidget.sendMessage_start true true false 1000 1001 1002 w "hello").2 = true
  ∧ ChatbotWidget.callAI asked storage random net "hello" 0 s
    = ({| ChatbotWidget.sessionId := Some "77777777-7777-4777-b777-777777777777";
          ChatbotWidget.chatbot_session_id := None |},
       [], Js.Throw ChatbotWidget.QuotaExceededError)
  ∧ out.2 = []
  ∧ out.1.2 = [ChatbotWidget.AddMessage "hello" true ChatbotWidget.normal;
               ChatbotWidget.AddMessage
                 (ChatbotWidget.localize ChatbotWidget.errorMessages_default
                    ChatbotWidget.getCurrentLanguage)
                 false ChatbotWidget.normal].
Proof. vm_compute. repeat split; reflexivity. Qed.

(** ** The widget's conversation *)

Section WidgetConversation.
Import Js ChatbotWidget.

Lemma slice_last_suffix {A} n (l : list A) :
  ∃ older, l = older ++ slice_last n l ∧ length (slice_last n l) = (n `min` length l)%nat.
Proof.
  exists (take (length l - n) l). unfold slice_last. split.
  - by rewrite take_drop.
  - rewrite length_drop. lia.
Qed.

Lemma slice_last_app {A} n (a b : list A) :
  (n ≤ length b)%nat → slice_last n (a ++ b) = slice_last n b.
Proof.
  intros Hn. unfold slice_last. rewrite length_app.
  replace (length a + length b - n)%nat with (length a + (length b - n))%nat by lia.
  by rewrite drop_app_add.
Qed.

Lemma storeConversation_history writable st :
  messageHistory (storeConversation writable st) = messageHistory st.
Proof. unfold storeConversation. by destruct writable. Qed.

Lemma storeConversation_stored st :
  chatbot_history (storeConversation true st) = Some (slice_last 50 (messageHistory st)).
Proof. reflexivity. Qed.



End WidgetConversation.



(** ** The contact proxy's sanitizer *)

Section ContactSanitize.
Import Js ContactFormProxy.

Lemma substring0_length n s : strlen (substring0 n s) = (n `min` strlen s)%nat.
Proof.
  unfold substring0, strlen. revert s.
  induction n as [|n IH]; intros [|c s]; simpl; [done|done|done|].
  by rewrite IH.
Qed.

(** A required field that passes its test is a string with something
    left after trimming. *)
Lemma required_present v :
  missing_or_invalid v = false → ∃ s, v = Some (JStr s) ∧ trim s ≠ "".
Proof.
  unfold missing_or_invalid. intros H.
  apply orb_false_elim in H as [H Htrim]. apply orb_false_elim in H as [_ Hstr].
  destruct v as [[| | |s| |]|]; try discriminate.
  exists s. split; [done|]. intros E. simpl in Htrim. by rewrite E in Htrim.
Qed.

(** The default [''] does not pass for a required field. *)
Lemma or_else_default_required v s :
  or_else v (Some (JStr "")) = Some (JStr s) → trim s ≠ "" → v = Some (JStr s).
Proof.
  unfold or_else. destruct (truthy v); [done|].
  intros [= <-]. done.
Qed.

(** With no error recorded the three required fields are present. *)
Lemma validation_errors_none n :
  validation_errors n = [] →
  missing_or_invalid (n_name n) = false
  ∧ missing_or_invalid (n_email n) = false
  ∧ missing_or_invalid (n_message n) = false.
Proof.
  unfold validation_errors. simpl. intros H.
  destruct (missing_or_invalid (n_name n)); [discriminate|].
  destruct (missing_or_invalid (n_email n)); [discriminate|].
  destruct (missing_or_invalid (n_message n)); [discriminate|].
  done.
Qed.

Lemma sanitize_fields now_iso n src r sn se sm :
  n_name n = Some (JStr sn) → n_email n = Some (JStr se) → n_message n = Some (JStr sm) →
  sanitize now_iso n src = Return r →
  name r = substring0 100 (trim sn)
  ∧ email r = substring0 200 (toLowerCase (trim se))
  ∧ message r = substring0 2000 (trim sm)
  ∧ source r = src.
Proof.
  intros Hn He Hm. unfold sanitize. rewrite Hn, He, Hm. simpl.
  destruct (optional_field _ (n_company n) 200) as [c|]; simpl; [|discriminate].
  destruct (optional_field _ (n_phone n) 50) as [p|]; simpl; [|discriminate].
  destruct (optional_field _ (n_service n) 100) as [s|]; simpl; [|discriminate].
  by intros [= <-].
Qed.

Lemma validateAndSanitize_valid now_iso data r :
  validateAndSanitize now_iso data = Return (Valid r) →
  ∃ fs n e m,
    data = JObj fs
    ∧ or_else (field "name" fs) (field "firstname" fs) = Some (JStr n)
    ∧ field "email" fs = Some (JStr e)
    ∧ field "message" fs = Some (JStr m)
    ∧ name r = substring0 100 (trim n)
    ∧ email r = substring0 200 (toLowerCase (trim e))
    ∧ message r = substring0 2000 (trim m)
    ∧ source r = requested_source (field "source" fs).
Proof.
  intros H. unfold validateAndSanitize in H.
  destruct data as [|b|z|s|items|fs]; try discriminate;
    try (simpl in H; discriminate).
  exists fs. simpl in H.
  set (n := {| n_name := _ |}) in H.
  destruct (validation_errors n) as [|error errors] eqn:Herr; [|discriminate].
  simpl in H.
  destruct (validation_errors_none n Herr) as (Hname & Hemail & Hmessage).
  apply required_present in Hname as (sn & Hsn & Htn).
  apply required_present in Hemail as (se & Hse & Hte).
  apply required_present in Hmessage as (sm & Hsm & Htm).
  destruct (sanitize now_iso n (requested_source (field "source" fs))) as [r'|] eqn:Hs;
    simpl in H; [|discriminate].
  injection H as ->.
  exists sn, se, sm. split; [reflexivity|].
  split; [exact (or_else_default_required _ _ Hsn Htn)|].
  split; [exact (or_else_default_required _ _ Hse Hte)|].
  split; [exact (or_else_default_required _ _ Hsm Htm)|].
  exact (sanitize_fields now_iso n _ r sn se sm Hsn Hse Hsm Hs).
Qed.

(** [requestedSource] is the supplied source when that is one of the
    two allowed tags, and the default otherwise. *)
Lemma requested_source_spec v :
  (∃ s, v = Some (JStr s) ∧ s ∈ allowedSources ∧ requested_source v = s)
  ∨ ((∀ s, s ∈ allowedSources → v ≠ Some (JStr s))
     ∧ requested_source v = "website-contact-form").
Proof.
  unfold requested_source, allowedSources. simpl.
  destruct v as [[| | |s| |]|]; simpl;
    try (right; split; [intros ? _; discriminate|]; rewrite ?andb_false_r; reflexivity).
  destruct (String.eqb s "website-contact-form") eqn:E1.
  - apply String.eqb_eq in E1 as ->. left. eexists. split; [done|].
    split; [apply list_elem_of_here|reflexivity].
  - destruct (String.eqb s "pdf-download") eqn:E2.
    + apply String.eqb_eq in E2 as ->. left. eexists. split; [done|].
      split; [apply list_elem_of_further, list_elem_of_here|reflexivity].
    + right. simpl. rewrite andb_false_r. split; [|reflexivity].
      apply String.eqb_neq in E1, E2.
      intros s' Hs' [= ->].
      apply elem_of_cons in Hs' as [->|Hs']; [done|].
      apply elem_of_cons in Hs' as [->|Hs']; [done|].
      by apply elem_of_nil in Hs'.
Qed.

(** An optional field that is missing, falsy or a string is sanitized
    without an error. *)
Lemma optional_field_returns callee v n :
  truthy v = false ∨ is_string v = true → ∃ s, optional_field callee v n = Return s.
Proof.
  unfold optional_field. intros [Hf|Hs].
  - rewrite Hf. by eexists.
  - destruct v as [[| | |s| |]|]; try discriminate.
    destruct (truthy (Some (JStr s))); by eexists.
Qed.

(** The sanitizer returns a record for an object that raises no
    validation error and whose company, phone and service (or
    projectType) are strings, falsy or missing. *)
Lemma validateAndSanitize_returns now_iso fs :
  (∀ n, normalize (JObj fs) = Return n →
     validation_errors n = []
     ∧ (truthy (n_company n) = false ∨ is_string (n_company n) = true)
     ∧ (truthy (n_phone n) = false ∨ is_string (n_phone n) = true)
     ∧ (truthy (n_service n) = false ∨ is_string (n_service n) = true)) →
  ∃ r, validateAndSanitize now_iso (JObj fs) = Return (Valid r).
Proof.
  intros H. unfold validateAndSanitize. simpl.
  set (n := {| n_name := _ |}).
  destruct (H n eq_refl) as (Herr & Hc & Hp & Hs).
  rewrite Herr. simpl.
  destruct (validation_errors_none n Herr) as (Hname & Hemail & Hmessage).
  apply required_present in Hname as (sn & Hsn & _).
  apply required_present in Hemail as (se & Hse & _).
  apply required_present in Hmessage as (sm & Hsm & _).
  destruct (optional_field_returns "normalizedData.company" _ 200 Hc) as (c & Ec).
  destruct (optional_field_returns "normalizedData.phone" _ 50 Hp) as (p & Ep).
  destruct (optional_field_returns "normalizedData.service" _ 100 Hs) as (sv & Es).
  unfold sanitize. rewrite Hsn, Hse, Hsm.
  cbn [mbind completion_bind bind call_trim]. rewrite Ec.
  cbn [mbind completion_bind bind]. rewrite Ep.
  cbn [mbind completion_bind bind]. rewrite Es.
  by eexists.
Qed.

End ContactSanitize.

(** C8.  The contact payload
    [{name: "Bob", email: "bob@example.com", message: "hi there", company: 5}]
    passes validation: its three required fields are strings with
    something left after trimming, its email matches the pattern, and
    no error is recorded.  [validateAndSanitize] then returns no
    sanitized record: building it calls [trim] on the number 5, which
    throws a TypeError, and the handler answers 500. *)
Theorem contact_numeric_company_is_not_sanitized :
  let cfg := {| ContactFormProxy.N8N_WEBHOOK_URL := Some "https://n8n.example/webhook/contact";
                ContactFormProxy.API_KEY := Some "s3cret" |} in
  let data := Js.JObj [("name", Js.JStr "Bob"); ("email", Js.JStr "bob@example.com");
                       ("message", Js.JStr "hi there"); ("company", Js.JNum 5)] in
  let ev := {| ContactFormProxy.httpMethod := "POST";
               ContactFormProxy.headers := {[ "x-forwarded-for" := "198.51.100.4" ]};
               ContactFormProxy.body := ContactFormProxy.Parses data |} in
  (∃ n, ContactFormProxy.normalize data = Js.Return n
        ∧ ContactFormProxy.validation_errors n = [])
  ∧ ContactFormProxy.validateAndSanitize "2025-01-01T00:00:00.000Z" data
    = Js.Throw (Js.TypeError "normalizedData.company.trim is not a function")
  ∧ (ContactFormProxy.handler cfg 70000 "2025-01-01T00:00:00.000Z"
       (ContactFormProxy.FetchResponse 200) ∅ ev).2
    = ContactFormProxy.respond 500 [("error", Js.JStr "Internal server error")].
Proof.
  intros cfg data ev. split; [|split].
  - eexists. split; [reflexivity|]. vm_compute. reflexivity.
  - vm_compute. reflexivity.
  - vm_compute. reflexivity.
Qed.

(** X28.  Every contact payload that raises no validation error and
    whose company, phone and service are each missing, falsy or a
    string is sanitized: [validateAndSanitize] returns a record that
    holds the name (or, failing that, the firstname) trimmed and cut to
    100 characters, the email trimmed, lower-cased and cut to 200, the
    message trimmed and cut to 2000, and as source the supplied source
    when that is "website-contact-form" or "pdf-download", and
    "website-contact-form" otherwise.  Whenever the function returns a
    record, the record is of this form. *)
Theorem contact_valid_payload_is_sanitized
    (now_iso : string) (fs : list (string * Js.json)) (n : ContactFormProxy.normalized) :
  let sanitized (r : ContactFormProxy.contact_data) :=
    ∃ sn se sm,
      Js.or_else (Js.field "name" fs) (Js.field "firstname" fs) = Some (Js.JStr sn)
      ∧ Js.field "email" fs = Some (Js.JStr se)
      ∧ Js.field "message" fs = Some (Js.JStr sm)
      ∧ ContactFormProxy.name r = Js.substring0 100 (Js.trim sn)
      ∧ (Js.strlen (ContactFormProxy.name r) ≤ 100)%nat
      ∧ ContactFormProxy.email r = Js.substring0 200 (Js.toLowerCase (Js.trim se))
      ∧ (Js.strlen (ContactFormProxy.email r) ≤ 200)%nat
      ∧ ContactFormProxy.message r = Js.substring0 2000 (Js.trim sm)
      ∧ (Js.strlen (ContactFormProxy.message r) ≤ 2000)%nat
      ∧ ((∃ s, Js.field "source" fs = Some (Js.JStr s)
               ∧ s ∈ ["website-contact-form"; "pdf-download"]
               ∧ ContactFormProxy.source r = s)
         ∨ ((∀ s, s ∈ ["website-contact-form"; "pdf-download"] →
               Js.field "source" fs ≠ Some (Js.JStr s))
            ∧ ContactFormProxy.source r = "website-contact-form")) in
  (ContactFormProxy.normalize (Js.JObj fs) = Js.Return n →
   ContactFormProxy.validation_errors n = [] →
   (Js.truthy (ContactFormProxy.n_company n) = false
    ∨ Js.is_string (ContactFormProxy.n_company n) = true) →
   (Js.truthy (ContactFormProxy.n_phone n) = false
    ∨ Js.is_string (ContactFormProxy.n_phone n) = true) →
   (Js.truthy (ContactFormProxy.n_service n) = false
    ∨ Js.is_string (ContactFormProxy.n_service n) = true) →
   ∃ r, ContactFormProxy.validateAndSanitize now_iso (Js.JObj fs)
          = Js.Return (ContactFormProxy.Valid r)
        ∧ sanitized r)
  ∧ (∀ r, ContactFormProxy.validateAndSanitize now_iso (Js.JObj fs)
            = Js.Return (ContactFormProxy.Valid r) →
          sanitized r).
Proof.
  intros sanitized.
  assert (Hform : ∀ r, ContactFormProxy.validateAndSanitize now_iso (Js.JObj fs)
                         = Js.Return (ContactFormProxy.Valid r) → sanitized r).
  { intros r H.
    destruct (validateAndSanitize_valid now_iso (Js.JObj fs) r H)
      as (fs' & sn & se & sm & [= <-] & Hn & He & Hm & Hname & Hemail & Hmessage & Hsource).
    exists sn, se, sm.
    repeat (split; [first [done | rewrite ?Hname, ?Hemail, ?Hmessage, substring0_length; lia]|]).
    rewrite Hsource. apply requested_source_spec. }
  split; [|exact Hform].
  intros Hn Herr Hc Hp Hs.
  destruct (validateAndSanitize_returns now_iso fs) as (r & Hr).
  { intros n' Hn'. rewrite Hn in Hn'. injection Hn' as <-. done. }
  exists r. split; [exact Hr|by apply Hform].
Qed.

(** X28 on the payload
    [{name: " Bob ", email: "BOB@Example.com", message: "hi there".repeat(2),
      source: "newsletter"}]. *)
Lemma contact_valid_payload_is_sanitized_witness :
  let data := Js.JObj [("name", Js.JStr " Bob "); ("email", Js.JStr "BOB@Example.com");
                       ("message", Js.JStr (Js.repeat "hi there" 2));
                       ("source", Js.JStr "newsletter")] in
  ∃ r,
    ContactFormProxy.validateAndSanitize "2025-01-01T00:00:00.000Z" data
      = Js.Return (ContactFormProxy.Valid r)
    ∧ ContactFormProxy.name r = "Bob"
    ∧ ContactFormProxy.email r = "bob@example.com"
    ∧ ContactFormProxy.message r = "hi therehi there"
    ∧ ContactFormProxy.source r = "website-contact-form".
Proof.
  intros data.
  destruct (ContactFormProxy.normalize data) as [n|e] eqn:Hn;
    [|vm_compute in Hn; discriminate].
  destruct (proj1 (contact_valid_payload_is_sanitized "2025-01-01T00:00:00.000Z" _ n) Hn)
    as (r & Hr & sn & se & sm & Hsn & Hse & Hsm & Hname & _ & Hemail & _ & Hmessage & _ & Hsrc);
    try (vm_compute in Hn; injection Hn as <-; first [by left | vm_compute; reflexivity]).
  exists r. split; [exact Hr|].
  vm_compute in Hsn, Hse, Hsm. injection Hsn as <-. injection Hse as <-. injection Hsm as <-.
  repeat split; [by rewrite Hname | by rewrite Hemail | by rewrite Hmessage |].
  destruct Hsrc as [(s & Hs & _ & _) | [_ Hdefault]]; [|exact Hdefault].
  vm_compute in Hs. injection Hs as <-.
  vm_compute in Hr. injection Hr as <-. reflexivity.
Defined.

(* ================================================================== *)
(** * Further properties of the chat proxy *)
(* ================================================================== *)

Section ChatProxyMore.
Import Js ChatbotProxy.
Variable CONFIG : config.

(** X2.  Whatever the verdict of a check, the store it leaves holds no
    entry whose time stamp is more than one minute old: stale entries
    of every caller are swept on each request. *)
Theorem chat_limiter_store_holds_last_minute_only now ip (store : gmap string entry) k d :
  (checkRateLimit CONFIG now ip store).1 !! k = Some d →
  now - 60000 ≤ timestamp d.
Proof.
  destruct (decide (k = ip)) as [->|Hk].
  - destruct (store !! ip) as [d0|] eqn:Hd0.
    + destruct (decide (now - timestamp d0 ≤ 60000)) as [Hfresh|Hstale].
      * destruct (decide (count d0 < RATE_LIMIT_PER_MINUTE CONFIG)) as [Hlt|Hge].
        -- rewrite (proj2 (checkRateLimit_increment CONFIG now ip store d0 Hd0 Hfresh Hlt)).
           intros [= <-]. simpl. lia.
        -- assert (Hge' : RATE_LIMIT_PER_MINUTE CONFIG ≤ count d0) by lia.
           rewrite (proj2 (checkRateLimit_deny CONFIG now ip store d0 Hd0 Hfresh Hge')).
           intros [= <-]. lia.
      * assert (Hold : 60000 < now - timestamp d0) by lia.
        rewrite (proj2 (checkRateLimit_reset CONFIG now ip store
                          (or_intror (ex_intro _ d0 (conj Hd0 Hold))))).
        intros [= <-]. simpl. lia.
    + rewrite (proj2 (checkRateLimit_reset CONFIG now ip store (or_introl Hd0))).
      intros [= <-]. simpl. lia.
  - rewrite (checkRateLimit_others CONFIG now ip store k Hk).
    destruct (store !! k) as [d0|]; [|done].
    destruct (decide (timestamp d0 < now - 60000)); [done|].
    intros [= <-]. lia.
Qed.

Lemma checkRateLimits_length ip times (store : gmap string entry) :
  length (checkRateLimits CONFIG ip times store).2 = length times.
Proof.
  revert store. induction times as [|now rest IH]; intros store; simpl; [done|].
  destruct (checkRateLimit CONFIG now ip store) as [store' verdict].
  specialize (IH store').
  destruct (checkRateLimits CONFIG ip rest store') as [store'' verdicts].
  simpl in *. by rewrite IH.
Qed.

(** A caller whose entry counts [count d] requests meets a run of
    requests that all fall in one minute, none of them before the
    entry's time stamp's minute began: the run is admitted until the
    count reaches the maximum and denied from there on. *)
Lemma checkRateLimits_from_entry T0 ip times :
  ∀ (store : gmap string entry) d,
    store !! ip = Some d →
    T0 ≤ timestamp d ≤ T0 + 60000 →
    Forall (fun t => T0 ≤ t ≤ T0 + 60000) times →
    ∀ i v, (checkRateLimits CONFIG ip times store).2 !! i = Some v →
      v = bool_decide (count d + Z.of_nat i < RATE_LIMIT_PER_MINUTE CONFIG).
Proof.
  induction times as [|now rest IH]; intros store d Hd Hts Htimes i v; simpl.
  - by rewrite lookup_nil.
  - apply Forall_cons in Htimes as [Hnow Hrest].
    destruct (checkRateLimit CONFIG now ip store) as [store' verdict] eqn:Echeck.
    specialize (IH store').
    destruct (checkRateLimits CONFIG ip rest store') as [store'' verdicts] eqn:Erest.
    simpl in *.
    assert (Hfresh : now - timestamp d ≤ 60000) by lia.
    destruct (decide (count d < RATE_LIMIT_PER_MINUTE CONFIG)) as [Hlt|Hge].
    + destruct (checkRateLimit_increment CONFIG now ip store d Hd Hfresh Hlt)
        as [Hv Hs].
      rewrite Echeck in Hv, Hs. simpl in Hv, Hs. subst verdict.
      destruct i as [|i]; simpl.
      * intros [= <-]. symmetry. apply bool_decide_eq_true_2. lia.
      * intros Hi.
        assert (Hnow' : T0 ≤ now ≤ T0 + 60000) by lia.
        rewrite (IH _ Hs Hnow' Hrest i v Hi). simpl.
        apply bool_decide_ext. lia.
    + assert (Hge' : RATE_LIMIT_PER_MINUTE CONFIG ≤ count d) by lia.
      destruct (checkRateLimit_deny CONFIG now ip store d Hd Hfresh Hge')
        as [Hv Hs].
      rewrite Echeck in Hv, Hs. simpl in Hv, Hs. subst verdict.
      destruct i as [|i]; simpl.
      * intros [= <-]. symmetry. apply bool_decide_eq_false_2. lia.
      * intros Hi. rewrite (IH _ Hs Hts Hrest i v Hi).
        apply bool_decide_ext. lia.
Qed.

(** The caller's bucket is never the empty string. *)
Lemma clientIp_nonempty ev : clientIp ev ≠ "".
Proof.
  unfold clientIp, present.
  destruct ((fun h => trim (split_comma_0 h)) <$> headers ev !! "x-forwarded-for")
    as [f|]; simpl.
  - destruct (String.eqb f "") eqn:Ef; simpl.
    + destruct (headers ev !! "client-ip") as [c|]; simpl; [|done].
      destruct (String.eqb c "") eqn:Ec; simpl; [done|].
      by apply String.eqb_neq in Ec.
    + by apply String.eqb_neq in Ef.
  - destruct (headers ev !! "client-ip") as [c|]; simpl; [|done].
    destruct (String.eqb c "") eqn:Ec; simpl; [done|].
    by apply String.eqb_neq in Ec.
Qed.

End ChatProxyMore.

(** X1.  A caller with no entry sends a run of requests that all fall
    within one minute of the first: with a maximum of at least 1, the
    i-th request (from 0) is admitted exactly when i is below the
    maximum.  With the default of 10, requests 0..9 are admitted and
    every later one of the run is denied. *)
Theorem chat_limiter_admits_max_per_burst
    (CONFIG : ChatbotProxy.config) (ip : string)
    (store : gmap string ChatbotProxy.entry) (t0 : Z) (rest : list Z) :
  store !! ip = None →
  1 ≤ ChatbotProxy.RATE_LIMIT_PER_MINUTE CONFIG →
  Forall (fun t => t0 ≤ t ≤ t0 + 60000) rest →
  let verdicts := (ChatbotProxy.checkRateLimits CONFIG ip (t0 :: rest) store).2 in
  length verdicts = S (length rest)
  ∧ ∀ i v, verdicts !! i = Some v →
      v = bool_decide (Z.of_nat i < ChatbotProxy.RATE_LIMIT_PER_MINUTE CONFIG).
Proof.
  intros Hnone Hmax Hrest verdicts. subst verdicts. split.
  - apply (checkRateLimits_length CONFIG ip (t0 :: rest)).
  - simpl.
    destruct (checkRateLimit_reset CONFIG t0 ip store (or_introl Hnone)) as [Hv Hs].
    destruct (ChatbotProxy.checkRateLimit CONFIG t0 ip store) as [store' verdict].
    simpl in Hv, Hs. subst verdict.
    assert (Hts : t0 ≤ ChatbotProxy.timestamp
                         {| ChatbotProxy.count := 1; ChatbotProxy.timestamp := t0 |}
                       ≤ t0 + 60000) by (simpl; lia).
    pose proof (checkRateLimits_from_entry CONFIG t0 ip rest store' _ Hs Hts Hrest) as Hrun.
    destruct (ChatbotProxy.checkRateLimits CONFIG ip rest store') as [store'' vs].
    simpl in *. intros [|i] v; simpl.
    + intros [= <-]. symmetry. apply bool_decide_eq_true_2. lia.
    + intros Hi. rewrite (Hrun i v Hi). apply bool_decide_ext. lia.
Qed.

(** X1 on twelve requests in one second. *)
Lemma chat_limiter_admits_max_per_burst_witness :
  let cfg := ChatbotProxy.default_config "https://n8n.example/webhook/chat" "s3cret" in
  let rest := [70100; 70200; 70300; 70400; 70500; 70600; 70700; 70800; 70900;
               71000; 71100] in
  (ChatbotProxy.checkRateLimits cfg "198.51.100.4" (70000 :: rest) ∅).2 !! 9%nat = Some true
  ∧ (ChatbotProxy.checkRateLimits cfg "198.51.100.4" (70000 :: rest) ∅).2 !! 10%nat
    = Some false.
Proof.
  intros cfg rest.
  assert (Hnone : (∅ : gmap string ChatbotProxy.entry) !! "198.51.100.4" = None)
    by apply lookup_empty.
  assert (Hmax : 1 ≤ ChatbotProxy.RATE_LIMIT_PER_MINUTE cfg) by (vm_compute; discriminate).
  assert (Hrest : Forall (fun t => 70000 ≤ t ≤ 70000 + 60000) rest)
    by (repeat constructor; vm_compute; discriminate).
  destruct (chat_limiter_admits_max_per_burst cfg "198.51.100.4" ∅ 70000 rest
              Hnone Hmax Hrest) as [_ Hrun].
  split.
  - destruct ((ChatbotProxy.checkRateLimits cfg "198.51.100.4" (70000 :: rest) ∅).2
                !! 9%nat) as [v|] eqn:E; [|vm_compute in E; discriminate].
    by rewrite (Hrun 9%nat v E).
  - destruct ((ChatbotProxy.checkRateLimits cfg "198.51.100.4" (70000 :: rest) ∅).2
                !! 10%nat) as [v|] eqn:E; [|vm_compute in E; discriminate].
    by rewrite (Hrun 10%nat v E).
Defined.

(** X2 on a store with a stale and a fresh entry of other callers. *)
Lemma chat_limiter_store_holds_last_minute_only_witness :
  let store : gmap string ChatbotProxy.entry :=
    {[ "203.0.113.9" := {| ChatbotProxy.count := 4; ChatbotProxy.timestamp := 5000 |};
       "203.0.113.10" := {| ChatbotProxy.count := 2; ChatbotProxy.timestamp := 65000 |} ]} in
  let cfg := ChatbotProxy.default_config "https://n8n.example/webhook/chat" "s3cret" in
  70000 - 60000 ≤ 65000
  ∧ (ChatbotProxy.checkRateLimit cfg 70000 "198.51.100.4" store).1 !! "203.0.113.9" = None.
Proof.
  intros store cfg. split.
  - apply (chat_limiter_store_holds_last_minute_only cfg 70000 "198.51.100.4" store
             "203.0.113.10" {| ChatbotProxy.count := 2; ChatbotProxy.timestamp := 65000 |}).
    vm_compute. reflexivity.
  - vm_compute. reflexivity.
Defined.

Section ChatHandlerMore.
Import Js ChatbotProxy.
Variable CONFIG : config.

Lemma status_codes_error s : s ∈ [500; 503; 504] → s ∈ status_codes.
Proof.
  unfold status_codes. rewrite !elem_of_cons.
  intros [->|[->|[->|H]]]; [tauto|tauto|tauto|]. by apply elem_of_nil in H.
Qed.

(** X3.  Every response of the chat proxy's handler, on every branch,
    carries the CORS headers, and its status is one of 200, 400, 405,
    429, 500, 503 and 504. *)
Theorem chat_handler_statuses_and_cors now net store ev :
  resp_headers (handler CONFIG now net store ev).2 = CORS_HEADERS
  ∧ statusCode (handler CONFIG now net store ev).2 ∈ status_codes.
Proof.
  unfold handler, status_codes.
  destruct (String.eqb (httpMethod ev) "OPTIONS"); simpl.
  { split; [done|]. rewrite !elem_of_cons. tauto. }
  destruct (negb (String.eqb (httpMethod ev) "POST")); simpl.
  { split; [done|]. rewrite !elem_of_cons. tauto. }
  destruct (checkRateLimit CONFIG now (clientIp ev) store) as [s a]. simpl.
  destruct a; simpl; [|split; [done|rewrite !elem_of_cons; tauto]].
  destruct (parse_body (body ev)) as [j|e]; simpl;
    [|split; [done|rewrite !elem_of_cons; tauto]].
  destruct (validateInput j) as [[error|data]|e]; simpl.
  - split; [done|]. rewrite !elem_of_cons. tauto.
  - destruct (callN8nWebhook CONFIG net data) as [r|e]; simpl.
    + split; [done|]. rewrite !elem_of_cons. tauto.
    + destruct (error_response_status e) as [Hh Hs]. split; [done|].
      by apply status_codes_error.
  - destruct (error_response_status e) as [Hh Hs]. split; [done|].
    by apply status_codes_error.
Qed.

(** The response to a validated POST is decided by the web hook call. *)
Lemma handler_post_throws now net store ev j error :
  httpMethod ev = "POST" →
  (checkRateLimit CONFIG now (clientIp ev) store).2 = true →
  parse_body (body ev) = Return j →
  validateInput j = Throw error →
  (handler CONFIG now net store ev).2 = error_response error.
Proof.
  intros Hm Ha Hb Hv. unfold handler. rewrite Hm, Hb. simpl.
  destruct (checkRateLimit CONFIG now (clientIp ev) store) as [s a].
  simpl in Ha. subst a. simpl. by rewrite Hv.
Qed.

(** The rejection of a response outside 2xx never reads as a timeout,
    a connection failure or a missing configuration. *)
Lemma upstream_status_is_500 status :
  100 ≤ status ≤ 599 →
  statusCode (error_response (Error ("AI service returned error: " +:+ pretty status)))
    = 500.
Proof.
  intros Hs.
  assert (Hall : forallb
            (fun s => statusCode (error_response
                        (Error ("AI service returned error: " +:+ pretty s))) =? 500)
            (seqZ 100 500) = true) by (vm_compute; reflexivity).
  rewrite forallb_forall in Hall.
  apply Z.eqb_eq, Hall, list_elem_of_In, elem_of_seqZ. lia.
Qed.

End ChatHandlerMore.

(** X4.  For a POST that the limiter admits and that passes validation,
    with the web hook URL configured, the answer follows the web hook
    call: a 2xx response with a JSON body is passed on with status 200;
    a 2xx response whose body is not JSON gives 500; a response with
    any other status from 100 to 599 gives 500, whatever that status
    is; a transport error gives 503; the request timeout gives 504.
    Without a configured URL the answer is 500, whatever the web hook
    would answer. *)
Theorem chat_handler_maps_upstream_outcome
    (CONFIG : ChatbotProxy.config) (now : Z) (net : ChatbotProxy.webhook_outcome)
    (store : gmap string ChatbotProxy.entry) (ev : ChatbotProxy.event)
    (j : Js.json) (data : ChatbotProxy.chat_data) :
  ChatbotProxy.httpMethod ev = "POST" →
  (ChatbotProxy.checkRateLimit CONFIG now (ChatbotProxy.clientIp ev) store).2 = true →
  ChatbotProxy.parse_body (ChatbotProxy.body ev) = Js.Return j →
  ChatbotProxy.validateInput j = Js.Return (ChatbotProxy.Valid data) →
  let r := (ChatbotProxy.handler CONFIG now net store ev).2 in
  (Js.present (ChatbotProxy.N8N_WEBHOOK_URL CONFIG) = false →
     ChatbotProxy.statusCode r = 500)
  ∧ (Js.present (ChatbotProxy.N8N_WEBHOOK_URL CONFIG) = true →
     match net with
     | ChatbotProxy.WebhookResponse status parsed =>
         if (200 <=? status) && (status <? 300) then
           match parsed with
           | Some response =>
               r = {| ChatbotProxy.statusCode := 200;
                      ChatbotProxy.resp_headers := ChatbotProxy.CORS_HEADERS;
                      ChatbotProxy.resp_body := ChatbotProxy.JsonBody response |}
           | None => ChatbotProxy.statusCode r = 500
           end
         else 100 ≤ status ≤ 599 → ChatbotProxy.statusCode r = 500
     | ChatbotProxy.WebhookError => ChatbotProxy.statusCode r = 503
     | ChatbotProxy.WebhookTimeout => ChatbotProxy.statusCode r = 504
     | ChatbotProxy.WebhookInvalidUrl => ChatbotProxy.statusCode r = 500
     end).
Proof.
  intros Hm Ha Hb Hv r. subst r.
  rewrite (handler_post_forwarded CONFIG now net store ev j data Hm Ha Hb Hv).
  unfold ChatbotProxy.callN8nWebhook. split.
  - intros ->. reflexivity.
  - intros ->. simpl. destruct net as [status parsed| | |]; try reflexivity.
    destruct ((200 <=? status) && (status <? 300)).
    + destruct parsed; reflexivity.
    + apply upstream_status_is_500.
Qed.

(** X4 on a web hook that answers 502. *)
Lemma chat_handler_maps_upstream_outcome_witness :
  let cfg := ChatbotProxy.default_config "https://n8n.example/webhook/chat" "s3cret" in
  let body := Js.JObj [("message", Js.JStr "hello"); ("language", Js.JStr "en");
                       ("sessionId", Js.JStr "abc")] in
  let ev := {| ChatbotProxy.httpMethod := "POST";
               ChatbotProxy.headers := {[ "x-forwarded-for" := "198.51.100.4" ]};
               ChatbotProxy.body := ChatbotProxy.Parses body |} in
  ChatbotProxy.statusCode
    (ChatbotProxy.handler cfg 70000 (ChatbotProxy.WebhookResponse 502 None) ∅ ev).2 = 500.
Proof.
  intros cfg body ev.
  refine (proj2 (chat_handler_maps_upstream_outcome cfg 70000
            (ChatbotProxy.WebhookResponse 502 None) ∅ ev body
            {| ChatbotProxy.d_message := "hello"; ChatbotProxy.d_language := "en";
               ChatbotProxy.d_sessionId := "abc"; ChatbotProxy.d_history := [] |}
            eq_refl _ eq_refl _) _ _).
  - vm_compute. reflexivity.
  - vm_compute. reflexivity.
  - reflexivity.
  - vm_compute. split; discriminate.
Defined.

Section ChatValidationMore.
Import Js ChatbotProxy.

Lemma strlen_append (a b : string) : strlen (a +:+ b) = (strlen a + strlen b)%nat.
Proof.
  unfold strlen. induction a as [|c a IH]; [done|].
  rewrite append_cons. simpl. by rewrite IH.
Qed.

Lemma strlen_trim s : (strlen (trim s) ≤ strlen s)%nat.
Proof.
  destruct (trim_spec s) as (l & r & Hs & _).
  rewrite Hs at 2. rewrite !strlen_append. lia.
Qed.

Lemma slice_last_length {A} n (l : list A) : (length (slice_last n l) ≤ n)%nat.
Proof. unfold slice_last. rewrite length_drop. lia. Qed.

Lemma truthy_string v :
  truthy v = true → is_string v = true → ∃ s, v = Some (JStr s) ∧ s ≠ "".
Proof.
  destruct v as [[| | |s| |]|]; simpl; try discriminate.
  intros Hne _. exists s. split; [done|].
  by apply negb_true_iff, String.eqb_neq in Hne.
Qed.

(** The entries that pass the history check. *)
Lemma validateHistory_forwarded history :
  validateHistory history = Return None → Forall forwarded_turn history.
Proof.
  induction history as [|item rest IH]; simpl; [constructor|].
  destruct item as [|b|n|s|items|fs]; simpl; try discriminate.
  destruct (negb (truthy (field "role" fs))) eqn:Hr; [discriminate|].
  destruct (negb (truthy (field "content" fs)) || negb (is_string (field "role" fs))
            || negb (is_string (field "content" fs))) eqn:Hc; [discriminate|].
  destruct (negb (is_str (field "role" fs) "user" || is_str (field "role" fs) "assistant"))
    eqn:Hu; [discriminate|].
  intros H. constructor; [|by apply IH].
  apply negb_false_iff in Hr.
  apply orb_false_elim in Hc as [Hc Hcs]. apply orb_false_elim in Hc as [Hct Hrs].
  apply negb_false_iff in Hct, Hrs, Hcs, Hu.
  destruct (truthy_string _ Hr Hrs) as (role & Hrole & _).
  destruct (truthy_string _ Hct Hcs) as (content & Hcontent & Hcne).
  exists fs, role, content. rewrite Hrole in Hu. simpl in Hu.
  apply orb_true_iff in Hu. rewrite !String.eqb_eq in Hu. tauto.
Qed.

(** A [null] entry stops the check with a [TypeError]. *)
Lemma validateHistory_null pre post :
  validateHistory pre = Return None →
  validateHistory (pre ++ JNull :: post)
    = Throw (TypeError "Cannot read properties of null (reading 'role')").
Proof. intros Hpre. by rewrite (validateHistory_app pre _ Hpre). Qed.

(** X5.  Whatever [validateInput] accepts, it hands on sanitized: the
    message is trimmed (no white space at either end), not empty and
    at most 500 characters long; the language is ja or en; the session
    id is not empty; the history holds at most five entries, each an
    object with role user or assistant and a non-empty string content. *)
Theorem chat_validated_payload_is_sanitized body data :
  validateInput body = Return (Valid data) →
  (1 ≤ strlen (d_message data) ≤ 500)%nat
  ∧ (∀ c t, d_message data = String c t → isWhiteSpace c = false)
  ∧ (∀ t c, d_message data = t +:+ String c "" → isWhiteSpace c = false)
  ∧ (d_language data = "ja" ∨ d_language data = "en")
  ∧ d_sessionId data ≠ ""
  ∧ (length (d_history data) ≤ 5)%nat
  ∧ Forall forwarded_turn (d_history data).
Proof.
  unfold validateInput.
  destruct (negb (truthy (Some body)) || negb (is_object (Some body))); [discriminate|].
  destruct (get body "message") as [message|]; simpl; [|discriminate].
  destruct (negb (truthy message) || negb (is_string message)) eqn:Hm; [discriminate|].
  destruct (get body "language") as [language|]; simpl; [|discriminate].
  destruct (negb (truthy language) ||
            negb (is_str language "ja" || is_str language "en")) eqn:Hl; [discriminate|].
  destruct (get body "sessionId") as [sessionId|]; simpl; [|discriminate].
  destruct (negb (truthy sessionId) || negb (is_string sessionId)) eqn:Hs; [discriminate|].
  destruct (MAX_MESSAGE_LENGTH <? strlen (str_of message))%nat eqn:Hlen; [discriminate|].
  destruct (strlen (trim (str_of message)) =? 0)%nat eqn:Hempty; [discriminate|].
  destruct (get body "history") as [hist|]; simpl; [|discriminate].
  destruct (validateHistory (history_window hist)) as [[error|]|] eqn:Hh; simpl;
    try discriminate.
  intros [= <-]. simpl.
  apply Nat.ltb_ge in Hlen. apply Nat.eqb_neq in Hempty.
  unfold MAX_MESSAGE_LENGTH in Hlen.
  pose proof (strlen_trim (str_of message)) as Htrim.
  destruct (trim_spec (str_of message)) as (l & r & _ & _ & _ & Hhead & Hlast).
  split; [lia|]. split; [exact Hhead|]. split; [exact Hlast|].
  apply orb_false_elim in Hl as [_ Hl]. apply negb_false_iff, orb_true_iff in Hl.
  apply orb_false_elim in Hs as [Hs1 Hs2].
  split; [|split; [|split]].
  - destruct language as [[| | |lang| |]|]; simpl in *;
      try (destruct Hl; discriminate).
    destruct Hl as [Hl|Hl]; apply String.eqb_eq in Hl; tauto.
  - destruct sessionId as [[| | |sid| |]|]; simpl in *; try discriminate.
    apply negb_false_iff, negb_true_iff, String.eqb_neq in Hs1. exact Hs1.
  - unfold history_window. destruct hist as [[| | | |items|]|]; simpl; try lia.
    apply slice_last_length.
  - by apply validateHistory_forwarded.
Qed.

End ChatValidationMore.

(** X5 on a payload with a padded message and seven turns of history. *)
Lemma chat_validated_payload_is_sanitized_witness :
  let turn r c := Js.JObj [("role", Js.JStr r); ("content", Js.JStr c)] in
  let body := Js.JObj
    [("message", Js.JStr "  hello  "); ("language", Js.JStr "en");
     ("sessionId", Js.JStr "abc");
     ("history", Js.JArr [turn "user" "1"; turn "assistant" "2"; turn "user" "3";
                         turn "assistant" "4"; turn "user" "5"; turn "assistant" "6";
                         turn "user" "7"])] in
  ∃ data,
    ChatbotProxy.validateInput body = Js.Return (ChatbotProxy.Valid data)
    ∧ (Js.strlen (ChatbotProxy.d_message data) ≤ 500)%nat
    ∧ (length (ChatbotProxy.d_history data) ≤ 5)%nat.
Proof.
  intros turn body.
  destruct (ChatbotProxy.validateInput body) as [[error|data]|e] eqn:Hv;
    try (vm_compute in Hv; discriminate).
  exists data. split; [reflexivity|].
  destruct (chat_validated_payload_is_sanitized body data Hv)
    as ([_ Hlen] & _ & _ & _ & _ & Hhist & _).
  split; [exact Hlen|exact Hhist].
Defined.

(** X6.  A [null] among the last five entries of the history, after
    entries that are valid, is not reported as a validation error:
    [validateInput] throws a TypeError, and the handler, once the
    limiter has admitted the caller, answers 500 server_error with the
    general message rather than 400. *)
Theorem chat_null_history_entry_gives_500
    (CONFIG : ChatbotProxy.config) (now : Z) (net : ChatbotProxy.webhook_outcome)
    (store : gmap string ChatbotProxy.entry) (ev : ChatbotProxy.event)
    (fs : list (string * Js.json)) (msg lang sid : string)
    (items pre post : list Js.json) :
  ChatbotProxy.httpMethod ev = "POST" →
  (ChatbotProxy.checkRateLimit CONFIG now (ChatbotProxy.clientIp ev) store).2 = true →
  ChatbotProxy.body ev = ChatbotProxy.Parses (Js.JObj fs) →
  Js.field "message" fs = Some (Js.JStr msg) →
  (Js.strlen msg ≤ 500)%nat → (1 ≤ Js.strlen (Js.trim msg))%nat →
  Js.field "language" fs = Some (Js.JStr lang) → lang = "ja" ∨ lang = "en" →
  Js.field "sessionId" fs = Some (Js.JStr sid) → sid ≠ "" →
  Js.field "history" fs = Some (Js.JArr items) →
  Js.slice_last 5 items = pre ++ Js.JNull :: post →
  ChatbotProxy.validateHistory pre = Js.Return None →
  ChatbotProxy.validateInput (Js.JObj fs)
    = Js.Throw (Js.TypeError "Cannot read properties of null (reading 'role')")
  ∧ (ChatbotProxy.handler CONFIG now net store ev).2
    = {| ChatbotProxy.statusCode := 500;
         ChatbotProxy.resp_headers := ChatbotProxy.CORS_HEADERS;
         ChatbotProxy.resp_body :=
           ChatbotProxy.error_body "server_error"
             (ChatbotProxy.bilingual "申し訳ございません。後でお試しください。"
                                     "Sorry, please try again later.") |}.
Proof.
  intros Hm Ha Hb Hmsg Hshort Hleft Hlang Hknown Hsid Hsidne Hhist Hwin Hpre.
  assert (Hne : msg ≠ "") by (intros ->; simpl in Hleft; lia).
  assert (Hv : ChatbotProxy.validateInput (Js.JObj fs)
               = Js.Throw (Js.TypeError "Cannot read properties of null (reading 'role')")).
  { rewrite (validateInput_message fs lang sid Hlang Hknown Hsid Hsidne msg Hmsg Hne).
    replace (ChatbotProxy.MAX_MESSAGE_LENGTH <? Js.strlen msg)%nat with false
      by (symmetry; apply Nat.ltb_ge; unfold ChatbotProxy.MAX_MESSAGE_LENGTH; lia).
    replace (Js.strlen (Js.trim msg) =? 0)%nat with false
      by (symmetry; apply Nat.eqb_neq; lia).
    rewrite Hhist. unfold ChatbotProxy.history_window, ChatbotProxy.MAX_HISTORY_LENGTH.
    by rewrite Hwin, (validateHistory_null pre post Hpre). }
  split; [exact Hv|].
  rewrite (handler_post_throws CONFIG now net store ev (Js.JObj fs) _ Hm Ha
             ltac:(by rewrite Hb) Hv).
  vm_compute. reflexivity.
Qed.

(** X6 on a history [[null]]. *)
Lemma chat_null_history_entry_gives_500_witness :
  let cfg := ChatbotProxy.default_config "https://n8n.example/webhook/chat" "s3cret" in
  let fs := [("message", Js.JStr "hello"); ("language", Js.JStr "en");
             ("sessionId", Js.JStr "abc"); ("history", Js.JArr [Js.JNull])] in
  let ev := {| ChatbotProxy.httpMethod := "POST";
               ChatbotProxy.headers := {[ "x-forwarded-for" := "198.51.100.4" ]};
               ChatbotProxy.body := ChatbotProxy.Parses (Js.JObj fs) |} in
  ChatbotProxy.statusCode
    (ChatbotProxy.handler cfg 70000 ChatbotProxy.WebhookTimeout ∅ ev).2 = 500.
Proof.
  intros cfg fs ev.
  assert (H : (ChatbotProxy.handler cfg 70000 ChatbotProxy.WebhookTimeout ∅ ev).2
              = {| ChatbotProxy.statusCode := 500;
                   ChatbotProxy.resp_headers := ChatbotProxy.CORS_HEADERS;
                   ChatbotProxy.resp_body :=
                     ChatbotProxy.error_body "server_error"
                       (ChatbotProxy.bilingual "申し訳ございません。後でお試しください。"
                                               "Sorry, please try again later.") |}).
  { refine (proj2 (chat_null_history_entry_gives_500 cfg 70000 ChatbotProxy.WebhookTimeout
              ∅ ev fs "hello" "en" "abc" [Js.JNull] [] []
              eq_refl _ eq_refl eq_refl _ _ eq_refl _ eq_refl _ eq_refl eq_refl eq_refl)).
    - vm_compute. reflexivity.
    - vm_compute. lia.
    - vm_compute. lia.
    - by right.
    - discriminate. }
  by rewrite H.
Defined.

(* ================================================================== *)
(** * Further properties of the contact proxy *)
(* ================================================================== *)

Section ContactRateLimit.
Import Js ContactFormProxy.

(** The requests of a caller that count at [now]. *)
Local Abbreviation recent now store ip :=
  (filter (fun timestamp => now - timestamp < RATE_LIMIT_WINDOW)
          (default [] (store !! ip))).

Lemma contact_checkRateLimit_allowed now ip (store : gmap string (list Z)) :
  Z.of_nat (length (recent now store ip)) < MAX_REQUESTS_PER_HOUR →
  checkRateLimit now ip store = (<[ip := recent now store ip ++ [now]]> store, Allowed).
Proof.
  intros H. unfold checkRateLimit.
  destruct (Z.of_nat (length (recent now store ip)) >=? MAX_REQUESTS_PER_HOUR) eqn:E;
    [lia|done].
Qed.

Lemma contact_checkRateLimit_denied now ip (store : gmap string (list Z)) :
  MAX_REQUESTS_PER_HOUR ≤ Z.of_nat (length (recent now store ip)) →
  checkRateLimit now ip store =
    (store, Denied (ceil_div_1000
                      (Math_min (recent now store ip) + RATE_LIMIT_WINDOW - now))).
Proof.
  intros H. unfold checkRateLimit.
  destruct (Z.of_nat (length (recent now store ip)) >=? MAX_REQUESTS_PER_HOUR) eqn:E;
    [done|lia].
Qed.

(** At a later time a window sees no more than it saw, and no longer
    sees a request that has left it. *)
Lemma recent_later now now' (l : list Z) oldest :
  let seen (at_time : Z) := filter (fun t : Z => at_time - t < RATE_LIMIT_WINDOW) l in
  now ≤ now' → oldest ∈ seen now → RATE_LIMIT_WINDOW ≤ now' - oldest →
  (length (seen now') < length (seen now))%nat.
Proof.
  intros seen Hle Hin Hout. subst seen. simpl in *.
  rewrite <- (list_filter_filter_l (fun t : Z => now' - t < RATE_LIMIT_WINDOW)
                (fun t : Z => now - t < RATE_LIMIT_WINDOW) l) by (intros t; lia).
  apply (length_filter_lt _ _ oldest); [done|lia].
Qed.

End ContactRateLimit.

(** X7.  The contact proxy's limiter is a sliding window over the
    caller's own requests: a request is allowed exactly when fewer than
    10 of the caller's recorded requests are less than one hour old.
    An allowed request replaces the caller's record by those recent
    requests followed by the present one, so that the record never
    holds more than 10 entries and none older than an hour; a denied
    request is not recorded.  The records of other callers are never
    touched. *)
Theorem contact_limiter_sliding_window
    (now : Z) (ip : string) (store : gmap string (list Z)) :
  let recent := filter (fun t => now - t < 60 * 60 * 1000) (default [] (store !! ip)) in
  let r := ContactFormProxy.checkRateLimit now ip store in
  (ContactFormProxy.allowed r.2 = true ↔ (length recent < 10)%nat)
  ∧ (ContactFormProxy.allowed r.2 = true →
       r.1 !! ip = Some (recent ++ [now])
       ∧ (length (recent ++ [now]) ≤ 10)%nat
       ∧ ∀ t, t ∈ recent ++ [now] → now - t < 60 * 60 * 1000)
  ∧ (ContactFormProxy.allowed r.2 = false → r.1 = store)
  ∧ (∀ k, k ≠ ip → r.1 !! k = store !! k).
Proof.
  intros recent r. subst r recent.
  change (60 * 60 * 1000) with ContactFormProxy.RATE_LIMIT_WINDOW.
  set (recent := filter _ _).
  destruct (decide (Z.of_nat (length recent) < ContactFormProxy.MAX_REQUESTS_PER_HOUR))
    as [Hlt|Hge].
  - rewrite (contact_checkRateLimit_allowed now ip store Hlt). simpl. fold recent.
    unfold ContactFormProxy.MAX_REQUESTS_PER_HOUR in Hlt.
    split; [split; [lia|done]|]. split; [|split; [discriminate|]].
    + intros _. split; [apply lookup_insert_eq|]. split.
      * rewrite length_app. simpl. lia.
      * intros t [Ht| ->%list_elem_of_singleton]%elem_of_app;
          [|unfold ContactFormProxy.RATE_LIMIT_WINDOW; lia].
        apply list_elem_of_filter in Ht. tauto.
    + intros k Hk. by rewrite lookup_insert_ne.
  - assert (Hge' : ContactFormProxy.MAX_REQUESTS_PER_HOUR ≤ Z.of_nat (length recent))
      by lia.
    rewrite (contact_checkRateLimit_denied now ip store Hge'). simpl.
    unfold ContactFormProxy.MAX_REQUESTS_PER_HOUR in Hge.
    split; [split; [discriminate|lia]|]. split; [discriminate|]. done.
Qed.

(** X8.  When the contact proxy denies a caller whose record holds at
    most 10 recent requests, none of them in the future, the
    [retryAfter] it reports lies between 1 and 3600 seconds, and it is
    honest: the same caller's request [retryAfter] seconds later is
    allowed. *)
Theorem contact_limiter_retry_after_is_honest
    (now : Z) (ip : string) (store : gmap string (list Z)) (retryAfter : Z) :
  let recent := filter (fun t => now - t < 60 * 60 * 1000) (default [] (store !! ip)) in
  (ContactFormProxy.checkRateLimit now ip store).2 = ContactFormProxy.Denied retryAfter →
  (length recent ≤ 10)%nat →
  Forall (fun t => t ≤ now) recent →
  1 ≤ retryAfter ≤ 3600
  ∧ ContactFormProxy.allowed
      (ContactFormProxy.checkRateLimit (now + 1000 * retryAfter) ip store).2 = true.
Proof.
  intros recent. subst recent.
  change (60 * 60 * 1000) with ContactFormProxy.RATE_LIMIT_WINDOW.
  set (recent := filter _ _).
  intros Hdenied Hlen Hpast.
  destruct (decide (Z.of_nat (length recent) < ContactFormProxy.MAX_REQUESTS_PER_HOUR))
    as [Hlt|Hge].
  { rewrite (contact_checkRateLimit_allowed now ip store Hlt) in Hdenied. discriminate. }
  assert (Hge' : ContactFormProxy.MAX_REQUESTS_PER_HOUR ≤ Z.of_nat (length recent)) by lia.
  rewrite (contact_checkRateLimit_denied now ip store Hge') in Hdenied.
  simpl in Hdenied. injection Hdenied as <-. fold recent.
  unfold ContactFormProxy.MAX_REQUESTS_PER_HOUR in Hge'.
  assert (Hne : recent ≠ []) by (intros E; rewrite E in Hge'; simpl in Hge'; lia).
  destruct (Math_min_least recent Hne) as [Hin _].
  pose proof (ceil_div_1000_spec
                (Js.Math_min recent + ContactFormProxy.RATE_LIMIT_WINDOW - now)) as Hceil.
  set (oldest := Js.Math_min recent) in *.
  set (ra := Js.ceil_div_1000 (oldest + ContactFormProxy.RATE_LIMIT_WINDOW - now)) in *.
  assert (Hwin : now - oldest < ContactFormProxy.RATE_LIMIT_WINDOW)
    by (apply list_elem_of_filter in Hin; tauto).
  assert (Hold : oldest ≤ now) by (rewrite Forall_forall in Hpast; by apply Hpast).
  assert (HW : ContactFormProxy.RATE_LIMIT_WINDOW = 3600000) by reflexivity.
  split; [lia|].
  assert (Hle : now ≤ now + 1000 * ra) by lia.
  assert (Hout : ContactFormProxy.RATE_LIMIT_WINDOW ≤ now + 1000 * ra - oldest) by lia.
  pose proof (recent_later now (now + 1000 * ra) (default [] (store !! ip)) oldest
                Hle Hin Hout) as Hlater.
  simpl in Hlater. fold recent in Hlater.
  rewrite contact_checkRateLimit_allowed; [done|].
  unfold ContactFormProxy.MAX_REQUESTS_PER_HOUR. lia.
Qed.

(** X8 on a caller with ten requests in the last ten seconds. *)
Lemma contact_limiter_retry_after_is_honest_witness :
  let store : gmap string (list Z) :=
    {[ "198.51.100.4" := [60000; 61000; 62000; 63000; 64000;
                          65000; 66000; 67000; 68000; 69000] ]} in
  (ContactFormProxy.checkRateLimit 70000 "198.51.100.4" store).2
    = ContactFormProxy.Denied 3590
  ∧ ContactFormProxy.allowed
      (ContactFormProxy.checkRateLimit (70000 + 1000 * 3590) "198.51.100.4" store).2 = true.
Proof.
  intros store.
  assert (Hd : (ContactFormProxy.checkRateLimit 70000 "198.51.100.4" store).2
               = ContactFormProxy.Denied 3590) by (vm_compute; reflexivity).
  split; [exact Hd|].
  apply (contact_limiter_retry_after_is_honest 70000 "198.51.100.4" store 3590 Hd).
  - vm_compute. lia.
  - vm_compute. repeat constructor; discriminate.
Defined.

(** X7 on a caller with nine requests in the last hour and one older. *)
Lemma contact_limiter_sliding_window_witness :
  let store : gmap string (list Z) :=
    {[ "198.51.100.4" := [1000; 4000000; 4001000; 4002000; 4003000; 4004000;
                          4005000; 4006000; 4007000; 4008000] ]} in
  (ContactFormProxy.checkRateLimit 4100000 "198.51.100.4" store).1 !! "198.51.100.4"
  = Some [4000000; 4001000; 4002000; 4003000; 4004000;
          4005000; 4006000; 4007000; 4008000; 4100000].
Proof.
  intros store.
  destruct (contact_limiter_sliding_window 4100000 "198.51.100.4" store)
    as (Hiff & Hallowed & _).
  destruct (Hallowed (proj2 Hiff ltac:(vm_compute; lia))) as (Hrec & _).
  rewrite Hrec. vm_compute. reflexivity.
Defined.

Section ContactHandlerMore.
Import Js ContactFormProxy.
Variable CONFIG : config.

Lemma optional_field_cases callee v n :
  (∃ s, optional_field callee v n = Return s)
  ∨ (truthy v = true ∧ is_string v = false
     ∧ optional_field callee v n
       = Throw (TypeError (callee +:+ ".trim is not a function"))).
Proof.
  unfold optional_field. destruct (truthy v) eqn:Ht; [|left; by eexists].
  destruct v as [[| | |s| |]|]; simpl; try discriminate; try (right; by repeat split).
  left. by eexists.
Qed.

(** With the required fields in place, a truthy optional field that is
    not a string makes the sanitizer throw. *)
Lemma sanitize_throws now_iso n src :
  validation_errors n = [] →
  (truthy (n_company n) = true ∧ is_string (n_company n) = false)
  ∨ (truthy (n_phone n) = true ∧ is_string (n_phone n) = false)
  ∨ (truthy (n_service n) = true ∧ is_string (n_service n) = false) →
  ∃ msg, sanitize now_iso n src = Throw (TypeError msg).
Proof.
  intros Herr Hbad.
  destruct (validation_errors_none n Herr) as (Hname & Hemail & Hmessage).
  apply required_present in Hname as (sn & Hsn & _).
  apply required_present in Hemail as (se & Hse & _).
  apply required_present in Hmessage as (sm & Hsm & _).
  assert (Hok : ∀ callee v k s, optional_field callee v k = Return s →
                  ¬ (truthy v = true ∧ is_string v = false)).
  { intros callee v k s0 E [Ht Hs]. unfold optional_field in E. rewrite Ht in E.
    destruct v as [[| | |s1| |]|]; discriminate. }
  unfold sanitize. rewrite Hsn, Hse, Hsm.
  cbn [mbind completion_bind bind call_trim].
  destruct (optional_field_cases "normalizedData.company" (n_company n) 200)
    as [(c & Ec)|(_ & _ & Ec)]; rewrite Ec; [|by eexists].
  cbn [mbind completion_bind bind].
  destruct (optional_field_cases "normalizedData.phone" (n_phone n) 50)
    as [(p & Ep)|(_ & _ & Ep)]; rewrite Ep; [|by eexists].
  cbn [mbind completion_bind bind].
  destruct (optional_field_cases "normalizedData.service" (n_service n) 100)
    as [(s & Es)|(_ & _ & Es)]; rewrite Es; [|by eexists].
  exfalso. destruct Hbad as [Hb|[Hb|Hb]];
    [exact (Hok _ _ _ _ Ec Hb)|exact (Hok _ _ _ _ Ep Hb)|exact (Hok _ _ _ _ Es Hb)].
Qed.

Lemma validateAndSanitize_throws now_iso fs n :
  normalize (JObj fs) = Return n →
  validation_errors n = [] →
  (truthy (n_company n) = true ∧ is_string (n_company n) = false)
  ∨ (truthy (n_phone n) = true ∧ is_string (n_phone n) = false)
  ∨ (truthy (n_service n) = true ∧ is_string (n_service n) = false) →
  ∃ msg, validateAndSanitize now_iso (JObj fs) = Throw (TypeError msg).
Proof.
  intros Hn Herr Hbad. unfold validateAndSanitize. rewrite Hn.
  cbn [mbind completion_bind bind]. rewrite Herr.
  cbn [length Nat.ltb Nat.leb get mbind completion_bind bind].
  destruct (sanitize_throws now_iso n (requested_source (field "source" fs)) Herr Hbad)
    as (msg & ->).
  by exists msg.
Qed.

Lemma contact_handler_throws now now_iso net store ev requestData error :
  httpMethod ev = "POST" →
  (checkRateLimit now (clientIP ev) store).2 = Allowed →
  body ev = Parses requestData →
  validateAndSanitize now_iso requestData = Throw error →
  err_name error ≠ "AbortError" →
  (handler CONFIG now now_iso net store ev).2 =
    respond 500 [("error", JStr "Internal server error")].
Proof.
  intros Hm Ha Hb Hv Hname. unfold handler. rewrite Hm. simpl.
  destruct (checkRateLimit now (clientIP ev) store) as [s c].
  simpl in Ha. subst c. unfold process. rewrite Hb. simpl. rewrite Hv. simpl.
  apply String.eqb_neq in Hname. by rewrite Hname.
Qed.

End ContactHandlerMore.

(** X9.  A contact payload that is [null], or an object that raises no
    validation error but whose company, phone or service is a truthy
    value other than a string, is not answered 400: the sanitizer
    throws a TypeError and the handler, once the limiter has allowed
    the caller, answers 500 "Internal server error". *)
Theorem contact_malformed_payload_gives_500
    (CONFIG : ContactFormProxy.config) (now : Z) (now_iso : string)
    (net : ContactFormProxy.fetch_outcome)
    (store : gmap string (list Z)) (ev : ContactFormProxy.event) (data : Js.json) :
  ContactFormProxy.httpMethod ev = "POST" →
  (ContactFormProxy.checkRateLimit now (ContactFormProxy.clientIP ev) store).2
    = ContactFormProxy.Allowed →
  ContactFormProxy.body ev = ContactFormProxy.Parses data →
  (data = Js.JNull
   ∨ ∃ fs n,
       data = Js.JObj fs
       ∧ ContactFormProxy.normalize data = Js.Return n
       ∧ ContactFormProxy.validation_errors n = []
       ∧ ((Js.truthy (ContactFormProxy.n_company n) = true
           ∧ Js.is_string (ContactFormProxy.n_company n) = false)
          ∨ (Js.truthy (ContactFormProxy.n_phone n) = true
             ∧ Js.is_string (ContactFormProxy.n_phone n) = false)
          ∨ (Js.truthy (ContactFormProxy.n_service n) = true
             ∧ Js.is_string (ContactFormProxy.n_service n) = false))) →
  (∃ msg, ContactFormProxy.validateAndSanitize now_iso data = Js.Throw (Js.TypeError msg))
  ∧ (ContactFormProxy.handler CONFIG now now_iso net store ev).2
    = ContactFormProxy.respond 500 [("error", Js.JStr "Internal server error")].
Proof.
  intros Hm Ha Hb Hdata.
  assert (Hthrow : ∃ msg, ContactFormProxy.validateAndSanitize now_iso data
                          = Js.Throw (Js.TypeError msg)).
  { destruct Hdata as [->|(fs & n & -> & Hn & Herr & Hbad)].
    - eexists. reflexivity.
    - by apply validateAndSanitize_throws with n. }
  split; [exact Hthrow|]. destruct Hthrow as (msg & Hv).
  by apply contact_handler_throws with data (Js.TypeError msg).
Qed.

(** X9 on a payload whose company is the number 5. *)
Lemma contact_malformed_payload_gives_500_witness :
  let cfg := {| ContactFormProxy.N8N_WEBHOOK_URL := Some "https://n8n.example/webhook/contact";
                ContactFormProxy.API_KEY := Some "s3cret" |} in
  let data := Js.JObj [("name", Js.JStr "Bob"); ("email", Js.JStr "bob@example.com");
                       ("message", Js.JStr "hi there"); ("company", Js.JNum 5)] in
  let ev := {| ContactFormProxy.httpMethod := "POST";
               ContactFormProxy.headers := {[ "x-forwarded-for" := "198.51.100.4" ]};
               ContactFormProxy.body := ContactFormProxy.Parses data |} in
  ContactFormProxy.statusCode
    (ContactFormProxy.handler cfg 70000 "2025-01-01T00:00:00.000Z"
       (ContactFormProxy.FetchResponse 200) ∅ ev).2 = 500.
Proof.
  intros cfg data ev.
  destruct (ContactFormProxy.normalize data) as [n|e] eqn:Hn;
    [|vm_compute in Hn; discriminate].
  assert (Ha : (ContactFormProxy.checkRateLimit 70000 (ContactFormProxy.clientIP ev) ∅).2
               = ContactFormProxy.Allowed) by (vm_compute; reflexivity).
  destruct (contact_malformed_payload_gives_500 cfg 70000 "2025-01-01T00:00:00.000Z"
              (ContactFormProxy.FetchResponse 200) ∅ ev data eq_refl Ha eq_refl)
    as [_ H].
  - right. eexists _, n. split; [reflexivity|]. split; [exact Hn|].
    vm_compute in Hn. injection Hn as <-. split; [vm_compute; reflexivity|].
    left. split; reflexivity.
  - rewrite H. reflexivity.
Defined.

Section ContactEmail.
Import Js ContactFormProxy.

Lemma lowerChar_not_space_at c : not_space_at c = true → not_space_at (lowerChar c) = true.
Proof. destruct c as [[] [] [] [] [] [] [] []]; vm_compute; congruence. Qed.

Lemma not_space_at_not_space c : not_space_at c = true → isWhiteSpace c = false.
Proof.
  unfold not_space_at. intros H. apply negb_true_iff, orb_false_elim in H. tauto.
Qed.

Lemma toLowerCase_append (a b : string) :
  toLowerCase (a +:+ b) = toLowerCase a +:+ toLowerCase b.
Proof.
  induction a as [|c a IH]; [done|].
  rewrite append_cons. simpl. by rewrite IH, append_cons.
Qed.

Lemma toLowerCase_all (a : string) :
  all_chars not_space_at a = true → all_chars not_space_at (toLowerCase a) = true.
Proof.
  induction a as [|c a IH]; simpl; [done|].
  intros [Hc Ha]%andb_true_iff. by rewrite (lowerChar_not_space_at c Hc), IH.
Qed.

Lemma toLowerCase_nonempty (a : string) : a ≠ "" → toLowerCase a ≠ "".
Proof. by destruct a. Qed.

Lemma all_chars_append p (a b : string) :
  all_chars p (a +:+ b) = all_chars p a && all_chars p b.
Proof.
  induction a as [|c a IH]; [done|].
  rewrite append_cons. simpl. by rewrite IH, andb_assoc.
Qed.

(** A string without white space is its own trim. *)
Lemma trimEnd_no_space (s : string) :
  all_chars (fun c => negb (isWhiteSpace c)) s = true → trimEnd s = s.
Proof.
  induction s as [|c s IH]; simpl; [done|].
  intros [Hc Hs]%andb_true_iff. rewrite (IH Hs).
  apply negb_true_iff in Hc. rewrite Hc. by destruct s.
Qed.

Lemma trim_no_space (s : string) :
  all_chars (fun c => negb (isWhiteSpace c)) s = true → trim s = s.
Proof.
  intros H. unfold trim.
  assert (Hstart : trimStart s = s).
  { destruct s as [|c s]; simpl in *; [done|].
    apply andb_true_iff in H as [Hc _]. apply negb_true_iff in Hc. by rewrite Hc. }
  rewrite Hstart. by apply trimEnd_no_space.
Qed.

Lemma all_chars_impl (p q : ascii → bool) (s : string) :
  (∀ c, p c = true → q c = true) → all_chars p s = true → all_chars q s = true.
Proof.
  intros Hpq. induction s as [|c s IH]; simpl; [done|].
  intros [Hc Hs]%andb_true_iff. by rewrite (Hpq c Hc), IH.
Qed.

Lemma substring0_short n (s : string) : (strlen s ≤ n)%nat → substring0 n s = s.
Proof.
  unfold substring0, strlen. revert n.
  induction s as [|c s IH]; intros [|n] H; simpl in *; try done; try lia.
  rewrite IH; [done|lia].
Qed.

(** An address that matches the pattern holds no white space, and its
    lower-case form matches the pattern too. *)
Lemma email_lowercase_matches e :
  regex_test emailRegex e = true →
  trim e = e ∧ regex_test emailRegex (toLowerCase e) = true.
Proof.
  intros (a & b & c & -> & Ha1 & Ha2 & Hb1 & Hb2 & Hc1 & Hc2)%emailRegex_spec.
  assert (Hns : ∀ s : string, all_chars not_space_at s = true →
                  all_chars (fun c => negb (isWhiteSpace c)) s = true).
  { intros s. apply all_chars_impl. intros ch Hch.
    by rewrite (not_space_at_not_space ch Hch). }
  split.
  - apply trim_no_space. rewrite !all_chars_append.
    by rewrite (Hns a Ha2), (Hns b Hb2), (Hns c Hc2).
  - apply emailRegex_spec.
    exists (toLowerCase a), (toLowerCase b), (toLowerCase c).
    rewrite !toLowerCase_append.
    repeat split; auto using toLowerCase_nonempty, toLowerCase_all.
Qed.

(** With no validation error the address matches the pattern. *)
Lemma validation_errors_email n e :
  validation_errors n = [] → n_email n = Some (JStr e) →
  regex_test emailRegex e = true.
Proof.
  unfold validation_errors. intros Herr He.
  apply app_eq_nil in Herr as [Hreq Herr]. apply app_eq_nil in Herr as [Hmail _].
  rewrite He in Hmail, Hreq. simpl in Hmail, Hreq.
  destruct (missing_or_invalid (n_name n)); [discriminate|].
  destruct (missing_or_invalid (Some (JStr e))) eqn:Hm; [discriminate|].
  unfold missing_or_invalid in Hm. simpl in Hm.
  destruct (negb (String.eqb e "")) eqn:Hne; [|discriminate]. simpl in Hmail.
  destruct (regex_test emailRegex e); [done|discriminate].
Qed.

Lemma validateAndSanitize_email now_iso fs r e :
  validateAndSanitize now_iso (JObj fs) = Return (Valid r) →
  field "email" fs = Some (JStr e) →
  email r = substring0 200 (toLowerCase e) ∧ regex_test emailRegex e = true.
Proof.
  intros H He. unfold validateAndSanitize in H. simpl in H.
  set (n := {| n_name := _ |}) in H.
  destruct (validation_errors n) as [|error errors] eqn:Herr; [|discriminate].
  assert (Hne : n_email n = Some (JStr e)).
  { destruct (validation_errors_none n Herr) as (_ & Hemail & _).
    apply required_present in Hemail as (se & Hse & Hte).
    pose proof (or_else_default_required _ _ Hse Hte) as Hf.
    rewrite He in Hf. injection Hf as ->. exact Hse. }
  pose proof (validation_errors_email n e Herr Hne) as Hmatch.
  split; [|exact Hmatch].
  destruct (validateAndSanitize_valid now_iso (JObj fs) r) as
    (fs' & sn & se & sm & Hfs & _ & He' & _ & _ & Hemail & _).
  { unfold validateAndSanitize. simpl. fold n. rewrite Herr. exact H. }
  injection Hfs as <-. rewrite He in He'. injection He' as <-.
  rewrite Hemail. by rewrite (proj1 (email_lowercase_matches e Hmatch)).
Qed.

End ContactEmail.

(** X10.  The address in a sanitized contact record is the submitted
    address in lower case, cut to 200 characters: an address that
    passed validation holds no white space, so trimming changes
    nothing.  When the address in lower case has at most 200
    characters, nothing is cut and the sanitized address still has the
    shape [local@domain.tld] that the validation asked for. *)
Theorem contact_sanitized_email_is_lowercase_address
    (now_iso : string) (fs : list (string * Js.json))
    (r : ContactFormProxy.contact_data) (e : string) :
  ContactFormProxy.validateAndSanitize now_iso (Js.JObj fs)
    = Js.Return (ContactFormProxy.Valid r) →
  Js.field "email" fs = Some (Js.JStr e) →
  ContactFormProxy.email r = Js.substring0 200 (Js.toLowerCase e)
  ∧ ((Js.strlen (Js.toLowerCase e) ≤ 200)%nat →
       ContactFormProxy.email r = Js.toLowerCase e
       ∧ Js.regex_test ContactFormProxy.emailRegex (ContactFormProxy.email r) = true).
Proof.
  intros Hv He.
  destruct (validateAndSanitize_email now_iso fs r e Hv He) as [Hemail Hmatch].
  split; [exact Hemail|]. intros Hlen.
  assert (Hshort : ContactFormProxy.email r = Js.toLowerCase e).
  { rewrite Hemail. by apply substring0_short. }
  split; [exact Hshort|]. rewrite Hshort.
  apply (email_lowercase_matches e Hmatch).
Qed.

(** X10 on the address [Bob.Smith@Example.COM]. *)
Lemma contact_sanitized_email_is_lowercase_address_witness :
  let fs := [("name", Js.JStr "Bob"); ("email", Js.JStr "Bob.Smith@Example.COM");
             ("message", Js.JStr "hi there")] in
  ∃ r,
    ContactFormProxy.validateAndSanitize "2025-01-01T00:00:00.000Z" (Js.JObj fs)
      = Js.Return (ContactFormProxy.Valid r)
    ∧ ContactFormProxy.email r = "bob.smith@example.com"
    ∧ Js.regex_test ContactFormProxy.emailRegex (ContactFormProxy.email r) = true.
Proof.
  intros fs.
  destruct (ContactFormProxy.validateAndSanitize "2025-01-01T00:00:00.000Z" (Js.JObj fs))
    as [[errors|r]|err] eqn:Hv; try (vm_compute in Hv; discriminate).
  exists r. split; [reflexivity|].
  destruct (contact_sanitized_email_is_lowercase_address _ fs r "Bob.Smith@Example.COM"
              Hv eq_refl) as [_ Hshort].
  destruct Hshort as [Heq Hmatch]; [vm_compute; lia|].
  split; [by rewrite Heq|exact Hmatch].
Defined.

Section ContactHandlerSuccess.
Import Js ContactFormProxy.
Variable CONFIG : config.

(** What the part of the handler after the rate limit check answers
    with status 200. *)
Lemma process_200 now_iso net b r :
  process CONFIG now_iso net b = Return r →
  statusCode r = 200 ↔
    ∃ data sanitized status,
      b = Parses data
      ∧ validateAndSanitize now_iso data = Return (Valid sanitized)
      ∧ present (N8N_WEBHOOK_URL CONFIG) = true ∧ present (API_KEY CONFIG) = true
      ∧ net = FetchResponse status ∧ 200 ≤ status ≤ 299.
Proof.
  unfold process. intros H.
  destruct b as [|data].
  { injection H as <-. simpl. split; [discriminate|]. by intros (? & ? & ? & ? & _). }
  destruct (validateAndSanitize now_iso data) as [[errors|sanitized]|e] eqn:Hv;
    cbn [mbind completion_bind bind] in H; [| |discriminate].
  { injection H as <-. simpl. split; [discriminate|].
    intros (? & ? & ? & [= <-] & Hv' & _). congruence. }
  destruct (present (N8N_WEBHOOK_URL CONFIG)) eqn:Hurl; simpl in H.
  2:{ injection H as <-. simpl. split; [discriminate|].
      by intros (? & ? & ? & _ & _ & ? & _). }
  destruct (present (API_KEY CONFIG)) eqn:Hkey; simpl in H.
  2:{ injection H as <-. simpl. split; [discriminate|].
      by intros (? & ? & ? & _ & _ & _ & ? & _). }
  destruct net as [status|e]; [|discriminate].
  destruct ((200 <=? status) && (status <=? 299)) eqn:Hok; simpl in H;
    injection H as <-; simpl.
  - split; [intros _|done]. exists data, sanitized, status.
    apply andb_true_iff in Hok as [H1 H2]. repeat split; auto; lia.
  - split.
    + intros ->. by vm_compute in Hok.
    + intros (? & ? & s & _ & _ & _ & _ & [= <-] & Hs).
      apply andb_false_iff in Hok as [Hok|Hok]; lia.
Qed.

End ContactHandlerSuccess.

(** X11.  The contact proxy answers a request other than the preflight
    with status 200 only when it has forwarded the form and the web
    hook has accepted it: the method is POST, the rate limiter admits
    the caller, the body parses and passes the validation, both
    configuration entries are set and the web hook answers with a
    status from 200 to 299; and in each such case the answer is 200. *)
Theorem contact_handler_success_means_forwarded
    (CONFIG : ContactFormProxy.config) (now : Z) (now_iso : string)
    (net : ContactFormProxy.fetch_outcome)
    (store : gmap string (list Z)) (ev : ContactFormProxy.event) :
  ContactFormProxy.httpMethod ev ≠ "OPTIONS" →
  ContactFormProxy.statusCode
    (ContactFormProxy.handler CONFIG now now_iso net store ev).2 = 200
  ↔ (ContactFormProxy.httpMethod ev = "POST"
     ∧ (ContactFormProxy.checkRateLimit now (ContactFormProxy.clientIP ev) store).2
       = ContactFormProxy.Allowed
     ∧ ∃ data sanitized status,
         ContactFormProxy.body ev = ContactFormProxy.Parses data
         ∧ ContactFormProxy.validateAndSanitize now_iso data
           = Js.Return (ContactFormProxy.Valid sanitized)
         ∧ Js.present (ContactFormProxy.N8N_WEBHOOK_URL CONFIG) = true
         ∧ Js.present (ContactFormProxy.API_KEY CONFIG) = true
         ∧ net = ContactFormProxy.FetchResponse status
         ∧ 200 ≤ status ≤ 299).
Proof.
  intros Hopt. unfold ContactFormProxy.handler.
  apply String.eqb_neq in Hopt. rewrite Hopt.
  destruct (String.eqb (ContactFormProxy.httpMethod ev) "POST") eqn:Hpost; simpl.
  2:{ split; [discriminate|]. intros [Hp _]. apply String.eqb_neq in Hpost. done. }
  apply String.eqb_eq in Hpost.
  destruct (ContactFormProxy.checkRateLimit now (ContactFormProxy.clientIP ev) store)
    as [store' [|retryAfter]] eqn:Hc; simpl.
  2:{ split; [discriminate|]. by intros (_ & ? & _). }
  destruct (ContactFormProxy.process CONFIG now_iso net (ContactFormProxy.body ev))
    as [r|e] eqn:Hp.
  - simpl. rewrite (process_200 CONFIG now_iso net _ r Hp). tauto.
  - assert (Hno : ¬ ∃ data sanitized status,
              ContactFormProxy.body ev = ContactFormProxy.Parses data
              ∧ ContactFormProxy.validateAndSanitize now_iso data
                = Js.Return (ContactFormProxy.Valid sanitized)
              ∧ Js.present (ContactFormProxy.N8N_WEBHOOK_URL CONFIG) = true
              ∧ Js.present (ContactFormProxy.API_KEY CONFIG) = true
              ∧ net = ContactFormProxy.FetchResponse status
              ∧ 200 ≤ status ≤ 299).
    { intros (data & sanitized & status & Hb & Hv & Hu & Hk & -> & H1 & H2).
      unfold ContactFormProxy.process in Hp. rewrite Hb, Hv in Hp.
      cbn [mbind Js.completion_bind Js.bind] in Hp. rewrite Hu, Hk in Hp. simpl in Hp.
      destruct ((200 <=? status) && (status <=? 299)); discriminate. }
    destruct (String.eqb (Js.err_name e) "AbortError"); simpl;
      (split; [discriminate|]); intros (_ & _ & Hex); by destruct Hno.
Qed.

(** X11 on a form that the web hook accepts with status 201. *)
Lemma contact_handler_success_means_forwarded_witness :
  let CONFIG := {| ContactFormProxy.N8N_WEBHOOK_URL := Some "https://n8n.example/hook";
                   ContactFormProxy.API_KEY := Some "secret" |} in
  let ev := {| ContactFormProxy.httpMethod := "POST";
               ContactFormProxy.headers := {[ "x-forwarded-for" := "203.0.113.7" ]};
               ContactFormProxy.body :=
                 ContactFormProxy.Parses
                   (Js.JObj [("name", Js.JStr "Aiko"); ("email", Js.JStr "aiko@example.jp");
                             ("message", Js.JStr "Please call me back.")]) |} in
  ContactFormProxy.statusCode
    (ContactFormProxy.handler CONFIG 70000 "2025-01-01T00:00:00.000Z"
       (ContactFormProxy.FetchResponse 201) ∅ ev).2 = 200.
Proof.
  intros CONFIG ev.
  assert (Hm : ContactFormProxy.httpMethod ev ≠ "OPTIONS") by discriminate.
  apply (proj2 (contact_handler_success_means_forwarded CONFIG 70000
                  "2025-01-01T00:00:00.000Z" (ContactFormProxy.FetchResponse 201) ∅ ev Hm)).
  split; [reflexivity|]. split; [vm_compute; reflexivity|].
  destruct (ContactFormProxy.validateAndSanitize "2025-01-01T00:00:00.000Z"
              (Js.JObj [("name", Js.JStr "Aiko"); ("email", Js.JStr "aiko@example.jp");
                        ("message", Js.JStr "Please call me back.")]))
    as [[errors|sanitized]|e] eqn:Hv; try (vm_compute in Hv; discriminate).
  exists (Js.JObj [("name", Js.JStr "Aiko"); ("email", Js.JStr "aiko@example.jp");
                   ("message", Js.JStr "Please call me back.")]), sanitized, 201.
  repeat split; try reflexivity; try exact Hv; lia.
Defined.

(** ** The contact form and the contact proxy *)

Section ContactFormToProxy.
Import Js ContactFormProxy.

(** A string whose last code unit is no white space is its own
    [trimEnd]. *)
Lemma trimEnd_fixed (s : string) :
  (∀ t c, s = t +:+ String c "" → isWhiteSpace c = false) → trimEnd s = s.
Proof.
  induction s as [|c s IH]; [done|]. intros Hlast. simpl.
  destruct s as [|c' s'].
  - simpl. by rewrite (Hlast "" c eq_refl).
  - rewrite IH.
    + done.
    + intros t c0 E. apply (Hlast (String c t) c0). by rewrite append_cons, E.
Qed.

Lemma trim_idempotent (s : string) : trim (trim s) = trim s.
Proof.
  destruct (trim_spec s) as (l & r & _ & _ & _ & Hhead & Hlast).
  unfold trim at 1.
  assert (Hstart : trimStart (trim s) = trim s).
  { destruct (trim s) as [|c t] eqn:E; [done|]. simpl.
    by rewrite (Hhead c t eq_refl). }
  rewrite Hstart. by apply trimEnd_fixed.
Qed.

Lemma lowerChar_idempotent c : lowerChar (lowerChar c) = lowerChar c.
Proof. by destruct c as [[] [] [] [] [] [] [] []]. Qed.

Lemma toLowerCase_idempotent (s : string) : toLowerCase (toLowerCase s) = toLowerCase s.
Proof.
  induction s as [|c s IH]; simpl; [done|]. by rewrite lowerChar_idempotent, IH.
Qed.

Lemma trim_empty : trim "" = "".
Proof. reflexivity. Qed.

Lemma or_else_string (s : string) :
  or_else (Some (JStr s)) (Some (JStr "")) = Some (JStr s).
Proof.
  unfold or_else. simpl. destruct (String.eqb s "") eqn:E; simpl; [|done].
  by apply String.eqb_eq in E as ->.
Qed.

Lemma or_else_string_2 (s : string) :
  or_else (or_else (Some (JStr s)) None) (Some (JStr "")) = Some (JStr s).
Proof.
  unfold or_else. simpl. destruct (String.eqb s "") eqn:E; simpl.
  - by apply String.eqb_eq in E as ->.
  - by rewrite E.
Qed.

Lemma optional_field_string callee (s : string) n :
  optional_field callee (Some (JStr s)) n = Return (substring0 n (trim s)).
Proof.
  unfold optional_field. simpl. destruct (String.eqb s "") eqn:E; simpl; [|done].
  apply String.eqb_eq in E as ->. by destruct n.
Qed.

Lemma strlen_zero (s : string) : strlen s = 0%nat → s = "".
Proof. by destruct s. Qed.

Lemma missing_or_invalid_string (s : string) :
  trim s ≠ "" → missing_or_invalid (Some (JStr s)) = false.
Proof.
  intros Ht. unfold missing_or_invalid. simpl.
  assert (Hs : s ≠ "") by (intros ->; by apply Ht).
  apply String.eqb_neq in Hs, Ht. by rewrite Hs, Ht.
Qed.

(** What the checks of the click handler establish. *)
Lemma validate_true sliderVerified d :
  ContactForm.validate sliderVerified d = true →
  (2 ≤ strlen (trim (ContactForm.name d)))%nat
  ∧ regex_test emailRegex (ContactForm.email d) = true
  ∧ (10 ≤ strlen (trim (ContactForm.message d)))%nat
  ∧ ContactForm.consent d = true
  ∧ sliderVerified = true.
Proof.
  unfold ContactForm.validate, ContactForm.emailRegex. intros H.
  destruct (String.eqb (ContactForm.name d) ""); [discriminate|]. simpl in H.
  destruct (Nat.ltb_spec (strlen (trim (ContactForm.name d))) 2); [discriminate|].
  destruct (String.eqb (ContactForm.email d) ""); [discriminate|]. simpl in H.
  destruct (regex_test emailRegex (ContactForm.email d)); [|discriminate]. simpl in H.
  destruct (String.eqb (ContactForm.message d) ""); [discriminate|]. simpl in H.
  destruct (Nat.ltb_spec (strlen (trim (ContactForm.message d))) 10); [discriminate|].
  destruct (ContactForm.consent d); [|discriminate].
  by destruct sliderVerified.
Qed.

Lemma normalize_payload now_iso d :
  normalize (ContactForm.payload now_iso d) =
    Return {| n_name := Some (JStr (trim (ContactForm.name d)));
              n_email := Some (JStr (toLowerCase (trim (ContactForm.email d))));
              n_company := Some (JStr (trim (ContactForm.company d)));
              n_phone := Some (JStr (trim (ContactForm.phone d)));
              n_service := Some (JStr (ContactForm.service d));
              n_message := Some (JStr (trim (ContactForm.message d)));
              n_consent := Some (JBool (ContactForm.consent d));
              n_language := Some (JStr "ja") |}.
Proof.
  unfold normalize, ContactForm.payload.
  cbn [get field String.eqb Ascii.eqb Bool.eqb mbind completion_bind bind].
  by rewrite !or_else_string, !or_else_string_2.
Qed.

Lemma validation_errors_payload n (sn se sm : string) :
  n_name n = Some (JStr sn) → n_email n = Some (JStr se) → n_message n = Some (JStr sm) →
  trim sn ≠ "" → trim se ≠ "" → trim sm ≠ "" →
  regex_test emailRegex se = true →
  validation_errors n =
    if (2000 <? Z.of_nat (strlen sm)) then ["Message too long (max 2000 characters)"] else [].
Proof.
  intros Hn He Hm Hsn Hse Hsm Hre. unfold validation_errors. rewrite Hn, He, Hm.
  cbn [flat_map].
  rewrite !missing_or_invalid_string by done.
  change (default "" (toString <$> Some (JStr se))) with se.
  rewrite Hre, andb_false_r. simpl app.
  assert (Hne : sm ≠ "") by (intros ->; by apply Hsm).
  apply String.eqb_neq in Hne. cbn [truthy length_exceeds]. by rewrite Hne.
Qed.

Lemma trim_nonempty_of_length (s : string) n :
  (S n ≤ strlen (trim s))%nat → trim s ≠ "".
Proof. intros H E. rewrite E in H. simpl in H. lia. Qed.

(** The errors the proxy finds in a request body built by the script:
    none, or the length of the message. *)
Lemma payload_validation_errors sliderVerified now_iso d n :
  ContactForm.validate sliderVerified d = true →
  normalize (ContactForm.payload now_iso d) = Return n →
  validation_errors n =
    if (2000 <? Z.of_nat (strlen (trim (ContactForm.message d))))
    then ["Message too long (max 2000 characters)"] else [].
Proof.
  intros Hvalid Hn. rewrite normalize_payload in Hn. injection Hn as <-.
  destruct (validate_true sliderVerified d Hvalid) as (Hname & Hmail & Hmsg & _).
  destruct (email_lowercase_matches _ Hmail) as [Htrim Hlower].
  destruct (email_lowercase_matches _ Hlower) as [Htrim' _].
  eapply validation_errors_payload; [reflexivity|reflexivity|reflexivity| | | |].
  - rewrite trim_idempotent. by apply (trim_nonempty_of_length _ 1).
  - rewrite Htrim, Htrim'. apply toLowerCase_nonempty.
    intros E. rewrite E in Hmail. by vm_compute in Hmail.
  - rewrite trim_idempotent. by apply (trim_nonempty_of_length _ 9).
  - by rewrite Htrim.
Qed.

(** The proxy's verdict on a request body built by the script. *)
Lemma payload_verdict sliderVerified now_client now_proxy d :
  ContactForm.validate sliderVerified d = true →
  ((strlen (trim (ContactForm.message d)) ≤ 2000)%nat →
     ∃ r, validateAndSanitize now_proxy (ContactForm.payload now_client d)
          = Return (Valid r))
  ∧ ((2000 < strlen (trim (ContactForm.message d)))%nat →
       validateAndSanitize now_proxy (ContactForm.payload now_client d)
       = Return (Invalid ["Message too long (max 2000 characters)"])).
Proof.
  intros Hvalid. split; intros Hlen.
  - unfold ContactForm.payload. apply validateAndSanitize_returns. intros n Hn.
    change (normalize (ContactForm.payload now_client d) = Return n) in Hn.
    rewrite (payload_validation_errors sliderVerified now_client d n Hvalid Hn).
    replace (2000 <? Z.of_nat (strlen (trim (ContactForm.message d)))) with false
      by (symmetry; apply Z.ltb_ge; lia).
    rewrite normalize_payload in Hn. injection Hn as <-. simpl. auto.
  - unfold validateAndSanitize. rewrite normalize_payload.
    cbn [mbind completion_bind bind].
    rewrite (payload_validation_errors sliderVerified now_client d _ Hvalid
               (normalize_payload now_client d)).
    replace (2000 <? Z.of_nat (strlen (trim (ContactForm.message d)))) with true
      by (symmetry; apply Z.ltb_lt; lia).
    reflexivity.
Qed.

End ContactFormToProxy.

(** X12.  A form that passes the checks of the contact form script is
    accepted by the proxy when its trimmed message has at most 2000
    characters, and the sanitized record then holds the trimmed fields
    of the form, each cut to its cap (name 100 characters, company 200,
    phone 50, service 100), the address in lower case cut to 200, the
    consent, the language [ja], the proxy's own clock reading and the
    source [website-contact-form].  The script sets no upper bound on the
    message: with a longer message the proxy rejects the same form,
    and the only error is the length of the message. *)
Theorem contact_form_submission_meets_proxy_validation
    (sliderVerified : bool) (now_client now_proxy : string) (d : ContactForm.captured) :
  ContactForm.validate sliderVerified d = true →
  ((Js.strlen (Js.trim (ContactForm.message d)) ≤ 2000)%nat →
     ∃ r,
       ContactFormProxy.validateAndSanitize now_proxy (ContactForm.payload now_client d)
         = Js.Return (ContactFormProxy.Valid r)
       ∧ ContactFormProxy.name r = Js.substring0 100 (Js.trim (ContactForm.name d))
       ∧ ContactFormProxy.email r = Js.substring0 200 (Js.toLowerCase (ContactForm.email d))
       ∧ ContactFormProxy.company r = Js.substring0 200 (Js.trim (ContactForm.company d))
       ∧ ContactFormProxy.phone r = Js.substring0 50 (Js.trim (ContactForm.phone d))
       ∧ ContactFormProxy.service r = Js.substring0 100 (Js.trim (ContactForm.service d))
       ∧ ContactFormProxy.message r = Js.trim (ContactForm.message d)
       ∧ ContactFormProxy.consent r = true
       ∧ ContactFormProxy.language r = Some (Js.JStr "ja")
       ∧ ContactFormProxy.timestamp r = now_proxy
       ∧ ContactFormProxy.source r = "website-contact-form")
  ∧ ((2000 < Js.strlen (Js.trim (ContactForm.message d)))%nat →
       ContactFormProxy.validateAndSanitize now_proxy (ContactForm.payload now_client d)
         = Js.Return (ContactFormProxy.Invalid ["Message too long (max 2000 characters)"])).
Proof.
  intros Hvalid.
  destruct (validate_true sliderVerified d Hvalid) as (Hname & Hmail & Hmsg & Hconsent & _).
  destruct (email_lowercase_matches _ Hmail) as [Htrim Hlower].
  destruct (email_lowercase_matches _ Hlower) as [Htrim' _].
  pose proof (normalize_payload now_client d) as Hnorm.
  pose proof (payload_validation_errors sliderVerified now_client d _ Hvalid Hnorm) as Herr.
  set (n := {| ContactFormProxy.n_name := _ |}) in Hnorm, Herr.
  unfold ContactFormProxy.validateAndSanitize. rewrite Hnorm.
  cbn [mbind Js.completion_bind Js.bind]. rewrite Herr. split.
  - intros Hlen.
    replace (2000 <? Z.of_nat (Js.strlen (Js.trim (ContactForm.message d)))) with false
      by (symmetry; apply Z.ltb_ge; lia).
    cbn [length Nat.ltb Nat.leb].
    unfold ContactForm.payload.
    cbn [Js.get Js.field String.eqb Ascii.eqb Bool.eqb mbind Js.completion_bind Js.bind].
    unfold ContactFormProxy.sanitize. subst n.
    cbn [ContactFormProxy.n_name ContactFormProxy.n_email ContactFormProxy.n_company
         ContactFormProxy.n_phone ContactFormProxy.n_service ContactFormProxy.n_message
         ContactFormProxy.n_consent ContactFormProxy.n_language Js.call_trim
         mbind Js.completion_bind Js.bind].
    rewrite !optional_field_string.
    cbn [mbind Js.completion_bind Js.bind].
    eexists. split; [reflexivity|].
    cbn [ContactFormProxy.name ContactFormProxy.email ContactFormProxy.company
         ContactFormProxy.phone ContactFormProxy.service ContactFormProxy.message
         ContactFormProxy.consent ContactFormProxy.language ContactFormProxy.timestamp
         ContactFormProxy.source].
    rewrite !trim_idempotent, Htrim, Htrim', toLowerCase_idempotent, Hconsent.
    repeat split; try reflexivity.
    apply substring0_short. lia.
  - intros Hlen.
    replace (2000 <? Z.of_nat (Js.strlen (Js.trim (ContactForm.message d)))) with true
      by (symmetry; apply Z.ltb_lt; lia).
    reflexivity.
Qed.

(** X12 on a filled-in form. *)
Lemma contact_form_submission_meets_proxy_validation_witness :
  let d := {| ContactForm.name := " Aiko Tanaka "; ContactForm.email := "Aiko@Example.JP";
              ContactForm.company := ""; ContactForm.phone := " 03-1234-5678";
              ContactForm.service := "line"; ContactForm.message := "Please call me back. ";
              ContactForm.consent := true |} in
  ∃ r,
    ContactFormProxy.validateAndSanitize "2025-01-01T00:00:05.000Z"
      (ContactForm.payload "2025-01-01T00:00:00.000Z" d)
      = Js.Return (ContactFormProxy.Valid r)
    ∧ ContactFormProxy.name r = "Aiko Tanaka"
    ∧ ContactFormProxy.email r = "aiko@example.jp"
    ∧ ContactFormProxy.message r = "Please call me back.".
Proof.
  intros d.
  assert (Hv : ContactForm.validate true d = true) by (vm_compute; reflexivity).
  assert (Hl : (Js.strlen (Js.trim (ContactForm.message d)) ≤ 2000)%nat)
    by (vm_compute; lia).
  destruct (proj1 (contact_form_submission_meets_proxy_validation true
                     "2025-01-01T00:00:00.000Z" "2025-01-01T00:00:05.000Z" d Hv) Hl)
    as (r & Hr & Hname & Hemail & _ & _ & _ & Hmessage & _).
  exists r. split; [exact Hr|]. split; [exact Hname|]. split; [exact Hemail|exact Hmessage].
Defined.

Section ContactFormRoundTrip.
Import Js ContactFormProxy.
Variable CONFIG : config.

(** The answer of the proxy to a POST request: a JSON object, which
    holds a [success] entry exactly when the status is 200; every other
    status lies outside 200..299. *)
Lemma handler_post_answer now now_iso net store ev :
  httpMethod ev = "POST" →
  let r := (handler CONFIG now now_iso net store ev).2 in
  ∃ fs, resp_body r = JsonBody (JObj fs)
    ∧ ((statusCode r = 200 ∧ field "success" fs = Some (JBool true))
       ∨ (¬ (200 ≤ statusCode r ≤ 299))).
Proof.
  intros Hpost r. subst r. unfold handler. rewrite Hpost. simpl.
  destruct (checkRateLimit now (clientIP ev) store) as [store' [|retryAfter]]; simpl.
  2:{ eexists. split; [reflexivity|]. right. lia. }
  unfold process.
  destruct (body ev) as [|data].
  { simpl. eexists. split; [reflexivity|]. right. lia. }
  destruct (validateAndSanitize now_iso data) as [[errors|sanitized]|e];
    cbn [mbind completion_bind bind].
  - simpl. eexists. split; [reflexivity|]. right. lia.
  - destruct (negb (present (N8N_WEBHOOK_URL CONFIG)) || negb (present (API_KEY CONFIG))).
    { simpl. eexists. split; [reflexivity|]. right. lia. }
    destruct net as [status|e].
    + destruct ((200 <=? status) && (status <=? 299)) eqn:Hok; simpl.
      * eexists. split; [reflexivity|]. by left.
      * eexists. split; [reflexivity|]. right.
        apply andb_false_iff in Hok as [Hok|Hok]; lia.
    + destruct (String.eqb (err_name e) "AbortError"); simpl;
        (eexists; split; [reflexivity|]; right; lia).
  - destruct (String.eqb (err_name e) "AbortError"); simpl;
      (eexists; split; [reflexivity|]; right; lia).
Qed.

(** The status of the answer to a POST request whose body parses. *)
Lemma handler_post_status_200 now now_iso net store ev data :
  httpMethod ev = "POST" → body ev = Parses data →
  statusCode (handler CONFIG now now_iso net store ev).2 = 200 ↔
    (checkRateLimit now (clientIP ev) store).2 = Allowed
    ∧ (∃ sanitized, validateAndSanitize now_iso data = Return (Valid sanitized))
    ∧ present (N8N_WEBHOOK_URL CONFIG) = true ∧ present (API_KEY CONFIG) = true
    ∧ ∃ status, net = FetchResponse status ∧ 200 ≤ status ≤ 299.
Proof.
  intros Hpost Hbody. unfold handler. rewrite Hpost. simpl.
  destruct (checkRateLimit now (clientIP ev) store) as [store' [|retryAfter]]; simpl.
  2:{ split; [discriminate|]. by intros [? _]. }
  destruct (process CONFIG now_iso net (body ev)) as [r|e] eqn:Hp.
  - simpl. rewrite (process_200 CONFIG now_iso net _ r Hp). split.
    + intros (data' & sanitized & status & Hb & Hv & Hu & Hk & Hn & Hs).
      rewrite Hbody in Hb. injection Hb as <-. eauto 10.
    + intros (_ & [sanitized Hv] & Hu & Hk & status & Hn & Hs).
      exists data, sanitized, status. eauto 10.
  - assert (Hno : ¬ ((∃ sanitized, validateAndSanitize now_iso data = Return (Valid sanitized))
                     ∧ present (N8N_WEBHOOK_URL CONFIG) = true
                     ∧ present (API_KEY CONFIG) = true
                     ∧ ∃ status, net = FetchResponse status ∧ 200 ≤ status ≤ 299)).
    { intros ([sanitized Hv] & Hu & Hk & status & -> & Hs).
      unfold process in Hp. rewrite Hbody, Hv in Hp.
      cbn [mbind completion_bind bind] in Hp. rewrite Hu, Hk in Hp. simpl in Hp.
      destruct ((200 <=? status) && (status <=? 299)); discriminate. }
    destruct (String.eqb (err_name e) "AbortError"); simpl;
      (split; [discriminate|]); intros (_ & H); by destruct Hno.
Qed.

(** What the script shows for an answer of the proxy. *)
Lemma click_served sliderVerified now_iso d (r : response) fs :
  ContactForm.validate sliderVerified d = true →
  resp_body r = JsonBody (JObj fs) →
  (statusCode r = 200 ∧ field "success" fs = Some (JBool true))
  ∨ ¬ (200 ≤ statusCode r ≤ 299) →
  ContactForm.click sliderVerified now_iso (ContactForm.served r) d =
    if statusCode r =? 200
    then (false, Some (ContactForm.payload now_iso d), ContactForm.success)
    else (sliderVerified, Some (ContactForm.payload now_iso d), ContactForm.error (JObj fs)).
Proof.
  intros Hv Hb Hcases. unfold ContactForm.click, ContactForm.served.
  rewrite Hv, Hb. simpl negb. cbv iota.
  destruct Hcases as [[Hs Hf]|Hs].
  - rewrite Hs. simpl. by rewrite Hf.
  - unfold ContactForm.ok.
    replace ((200 <=? statusCode r) && (statusCode r <=? 299)) with false
      by (symmetry; apply andb_false_iff; lia).
    simpl. replace (statusCode r =? 200) with false by lia. done.
Qed.

End ContactFormRoundTrip.

(** X13.  The contact form script and the contact proxy end to end.
    When a form passes the checks of the script and the proxy's answer
    to the request reaches the script, the script reports success, and
    resets the slider, exactly when the proxy's limiter admits the
    caller, the trimmed message has at most 2000 characters, both
    configuration entries of the proxy are set and the web hook answers
    with a status from 200 to 299.  In every other case it reports
    [error] with the body of the proxy's answer, never a network
    error, and leaves the slider as it is. *)
Theorem contact_form_reports_success_iff_forwarded
    (CONFIG : ContactFormProxy.config) (now : Z) (now_client now_proxy : string)
    (net : ContactFormProxy.fetch_outcome) (store : gmap string (list Z))
    (hdrs : gmap string string) (d : ContactForm.captured) :
  let ev := {| ContactFormProxy.httpMethod := "POST";
               ContactFormProxy.headers := hdrs;
               ContactFormProxy.body :=
                 ContactFormProxy.Parses (ContactForm.payload now_client d) |} in
  let r := (ContactFormProxy.handler CONFIG now now_proxy net store ev).2 in
  let forwarded :=
    (ContactFormProxy.checkRateLimit now (ContactFormProxy.clientIP ev) store).2
      = ContactFormProxy.Allowed
    ∧ (Js.strlen (Js.trim (ContactForm.message d)) ≤ 2000)%nat
    ∧ Js.present (ContactFormProxy.N8N_WEBHOOK_URL CONFIG) = true
    ∧ Js.present (ContactFormProxy.API_KEY CONFIG) = true
    ∧ ∃ status, net = ContactFormProxy.FetchResponse status ∧ 200 ≤ status ≤ 299 in
  ContactForm.validate true d = true →
  (forwarded →
     ContactForm.click true now_client (ContactForm.served r) d
       = (false, Some (ContactForm.payload now_client d), ContactForm.success))
  ∧ (¬ forwarded →
       ∃ details,
         ContactFormProxy.resp_body r = ContactFormProxy.JsonBody details
         ∧ ContactForm.click true now_client (ContactForm.served r) d
           = (true, Some (ContactForm.payload now_client d), ContactForm.error details)).
Proof.
  intros ev r forwarded Hvalid.
  destruct (handler_post_answer CONFIG now now_proxy net store ev eq_refl)
    as (fs & Hbody & Hcases).
  fold r in Hbody, Hcases.
  pose proof (click_served true now_client d r fs Hvalid Hbody Hcases) as Hclick.
  pose proof (handler_post_status_200 CONFIG now now_proxy net store ev
                (ContactForm.payload now_client d) eq_refl eq_refl) as H200.
  fold r in H200.
  destruct (payload_verdict true now_client now_proxy d Hvalid) as [Hshort Hlong].
  assert (Hiff : ContactFormProxy.statusCode r = 200 ↔ forwarded).
  { rewrite H200. subst forwarded. split.
    - intros (Ha & [sanitized Hs] & Hu & Hk & Hn).
      repeat split; try done.
      destruct (le_lt_dec (Js.strlen (Js.trim (ContactForm.message d))) 2000) as [|Hgt];
        [done|].
      rewrite (Hlong Hgt) in Hs. discriminate.
    - intros (Ha & Hlen & Hu & Hk & Hn).
      repeat split; try done.
      destruct (Hshort Hlen) as (sanitized & Hs). by exists sanitized. }
  split.
  - intros Hf. apply Hiff in Hf. rewrite Hclick, Hf. reflexivity.
  - intros Hnf. exists (Js.JObj fs). split; [exact Hbody|].
    rewrite Hclick.
    destruct (Z.eqb_spec (ContactFormProxy.statusCode r) 200) as [E|E]; [|done].
    by apply Hiff in E.
Qed.

(** X13 on a form that the web hook accepts. *)
Lemma contact_form_reports_success_iff_forwarded_witness :
  let CONFIG := {| ContactFormProxy.N8N_WEBHOOK_URL := Some "https://n8n.example/hook";
                   ContactFormProxy.API_KEY := Some "secret" |} in
  let d := {| ContactForm.name := "Aiko Tanaka"; ContactForm.email := "aiko@example.jp";
              ContactForm.company := ""; ContactForm.phone := "";
              ContactForm.service := ""; ContactForm.message := "Please call me back.";
              ContactForm.consent := true |} in
  let hdrs : gmap string string := {[ "x-forwarded-for" := "203.0.113.7" ]} in
  let ev := {| ContactFormProxy.httpMethod := "POST";
               ContactFormProxy.headers := hdrs;
               ContactFormProxy.body :=
                 ContactFormProxy.Parses (ContactForm.payload "2025-01-01T00:00:00.000Z" d) |} in
  (ContactForm.click true "2025-01-01T00:00:00.000Z"
     (ContactForm.served
        (ContactFormProxy.handler CONFIG 70000 "2025-01-01T00:00:01.000Z"
           (ContactFormProxy.FetchResponse 200) ∅ ev).2) d).2
    = ContactForm.success.
Proof.
  intros CONFIG d hdrs ev.
  assert (Hv : ContactForm.validate true d = true) by (vm_compute; reflexivity).
  assert (Ha : (ContactFormProxy.checkRateLimit 70000 (ContactFormProxy.clientIP ev) ∅).2
               = ContactFormProxy.Allowed) by (vm_compute; reflexivity).
  assert (Hl : (Js.strlen (Js.trim (ContactForm.message d)) ≤ 2000)%nat)
    by (vm_compute; lia).
  assert (Hs : 200 ≤ 200 ≤ 299) by lia.
  rewrite (proj1 (contact_form_reports_success_iff_forwarded CONFIG 70000
                    "2025-01-01T00:00:00.000Z" "2025-01-01T00:00:01.000Z"
                    (ContactFormProxy.FetchResponse 200) ∅ hdrs d Hv)).
  - reflexivity.
  - split; [exact Ha|]. split; [exact Hl|]. split; [reflexivity|]. split; [reflexivity|].
    exists 200. split; [reflexivity|exact Hs].
Defined.

(** ** Further properties of the widget's rate limiter *)

Section WidgetRateLimitMore.
Import Js ChatbotWidget.

Lemma run_checks_none now (l : list Z) cs :
  run_checks now l cs = None ↔
  ∀ c, c ∈ cs →
    Z.of_nat (length (within now (window (check_limit c)) l)) < max (check_limit c).
Proof.
  induction cs as [|c cs IH]; simpl.
  - split; [|done]. intros _ c Hc. by apply elem_of_nil in Hc.
  - destruct (Z.of_nat (length (within now (window (check_limit c)) l))
              >=? max (check_limit c)) eqn:E.
    + split; [discriminate|]. intros H.
      specialize (H c (list_elem_of_here _ _)). lia.
    + rewrite IH. split.
      * intros H c' [->|Hc']%elem_of_cons; [lia|by apply H].
      * intros H c' Hc'. apply H. by apply list_elem_of_further.
Qed.

Lemma checks_window c : c ∈ checks → window (check_limit c) ≤ window PER_DAY.
Proof.
  unfold checks. rewrite !elem_of_cons, elem_of_nil.
  intros [->|[->|[->|[]]]]; vm_compute; discriminate.
Qed.

(** A call is allowed exactly when no tier is exhausted by the stored
    times. *)
Lemma checkRateLimit_allowed_iff writable now item :
  allowed (checkRateLimit writable now item).2 = true ↔
  ∀ c, c ∈ checks →
    Z.of_nat (length (within now (window (check_limit c)) (load_times item)))
      < max (check_limit c).
Proof.
  unfold checkRateLimit.
  destruct (run_checks now (within now (window PER_DAY) (load_times item)) checks)
    as [denial|] eqn:E.
  - simpl. rewrite (run_checks_denies _ _ _ _ E). split; [discriminate|].
    intros H. assert (Hnone : run_checks now
                (within now (window PER_DAY) (load_times item)) checks = None).
    { apply run_checks_none. intros c Hc.
      rewrite within_within by (by apply checks_window). by apply H. }
    congruence.
  - simpl. split; [intros _|done]. intros c Hc.
    rewrite <- (within_within now (window (check_limit c)) (window PER_DAY))
      by (by apply checks_window).
    by apply (proj1 (run_checks_none _ _ _) E).
Qed.

Lemma checkRateLimit_result_cases writable now item :
  let r := checkRateLimit writable now item in
  (allowed r.2 = false ∧ r.1 = item)
  ∨ (r.2 = Allowed ∧
     r.1 = if writable
           then Item (within now (window PER_DAY) (load_times item) ++ [now])
           else item).
Proof.
  unfold checkRateLimit.
  destruct (run_checks now (within now (window PER_DAY) (load_times item)) checks)
    as [denial|] eqn:E; simpl.
  - left. split; [by apply (run_checks_denies _ _ _ _ E)|done].
  - right. by destruct writable.
Qed.

Lemma within_app now w (a b : list Z) :
  within now w (a ++ b) = within now w a ++ within now w b.
Proof. unfold within. apply filter_app. Qed.

Lemma within_later now now' w d (l : list Z) :
  now ≤ now' → w ≤ d → within now' w (within now d l) = within now' w l.
Proof.
  intros Hnow Hw. unfold within. induction l as [|t l IH]; [done|].
  rewrite !filter_cons. destruct (decide (now - t < d)) as [Hd|Hd].
  - rewrite filter_cons. destruct (decide (now' - t < w)); by rewrite IH.
  - rewrite IH. destruct (decide (now' - t < w)); [lia|done].
Qed.

Lemma checkRateLimits_snoc writable times now item :
  checkRateLimits writable (times ++ [now]) item =
    let '(item', results) := checkRateLimits writable times item in
    let '(item'', result) := checkRateLimit writable now item' in
    (item'', results ++ [result]).
Proof.
  revert item. induction times as [|t times IH]; intros item; simpl.
  - by destruct (checkRateLimit writable now item).
  - destruct (checkRateLimit writable t item) as [item1 r1].
    rewrite IH. destruct (checkRateLimits writable times item1) as [item2 rs].
    by destruct (checkRateLimit writable now item2).
Qed.

Lemma widget_checkRateLimits_length writable times item :
  length (checkRateLimits writable times item).2 = length times.
Proof.
  revert item. induction times as [|t times IH]; intros item; simpl; [done|].
  destruct (checkRateLimit writable t item) as [item1 r1].
  specialize (IH item1). destruct (checkRateLimits writable times item1). simpl in *.
  by rewrite IH.
Qed.

Lemma admitted_snoc times results now result :
  length results = length times →
  admitted (times ++ [now]) (results ++ [result]) =
    admitted times results ++ (if allowed result then [now] else []).
Proof.
  intros Hlen. unfold admitted.
  rewrite zip_with_app by done. rewrite omap_app. simpl.
  by destruct (allowed result).
Qed.

(** The times between [T - w] (excluded) and [T] (included). *)
Local Abbreviation window_of T w l := (filter (fun t : Z => T - w < t ∧ t ≤ T) l).

Lemma window_of_app T w (a b : list Z) :
  window_of T w (a ++ b) = window_of T w a ++ window_of T w b.
Proof. apply filter_app. Qed.

Lemma window_of_within T now w (l : list Z) :
  now ≤ T → (length (window_of T w l) ≤ length (within now w l))%nat.
Proof.
  intros HT. unfold within. induction l as [|t l IH]; [done|].
  rewrite !filter_cons.
  destruct (decide (T - w < t ∧ t ≤ T)) as [Hin|Hout].
  - rewrite decide_True by lia. simpl. lia.
  - destruct (decide (now - t < w)); simpl; lia.
Qed.

Lemma Sorted_snoc_inv (times : list Z) now :
  Sorted Z.le (times ++ [now]) → Sorted Z.le times ∧ Forall (fun t => t ≤ now) times.
Proof.
  induction times as [|t times IH]; [by split|].
  simpl. intros [Hs Hhd]%Sorted_inv. destruct (IH Hs) as [Hs' Hall]. split.
  - apply Sorted_cons; [done|]. destruct times; [constructor|].
    simpl in Hhd. apply HdRel_inv in Hhd. by constructor.
  - apply Forall_cons. split; [|done].
    destruct times as [|t' times]; simpl in Hhd; apply HdRel_inv in Hhd; [done|].
    apply Forall_cons in Hall as [Hle _]. lia.
Qed.

(** The run of the limiter over non-decreasing times: the stored
    sequence counts every admitted call of a trailing window, and no
    window holds more admitted calls than a tier allows. *)
Lemma checkRateLimits_caps times item :
  Sorted Z.le times →
  let run := checkRateLimits true times item in
  (∀ T w, Forall (fun t => t ≤ T) times → w ≤ window PER_DAY →
     (length (within T w (admitted times run.2))
      ≤ length (within T w (load_times run.1)))%nat)
  ∧ (∀ T c, c ∈ checks →
       Z.of_nat (length (window_of T (window (check_limit c)) (admitted times run.2)))
       ≤ max (check_limit c)).
Proof.
  induction times as [|now times IH] using rev_ind; intros Hsorted run.
  - subst run. simpl. split.
    + intros T w _ _. simpl. lia.
    + intros T c Hc. unfold checks in Hc. rewrite !elem_of_cons, elem_of_nil in Hc.
      destruct Hc as [->|[->|[->|[]]]]; vm_compute; discriminate.
  - pose proof (Sorted_snoc_inv times now Hsorted) as Hpre.
    destruct Hpre as [Hs Hall].
    specialize (IH Hs). simpl in IH. destruct IH as [Hinv Hcap].
    subst run. rewrite checkRateLimits_snoc.
    pose proof (widget_checkRateLimits_length true times item) as Hlen.
    destruct (checkRateLimits true times item) as [item' results]. simpl in *.
    pose proof (checkRateLimit_result_cases true now item') as Hcases.
    pose proof (checkRateLimit_allowed_iff true now item') as Hiff.
    destruct (checkRateLimit true now item') as [item'' result]. simpl in *.
    rewrite admitted_snoc by done.
    destruct Hcases as [[Hdenied ->]|[-> ->]].
    + rewrite Hdenied, app_nil_r. split; [|done].
      intros T w HT Hw. apply Hinv; [|done].
      apply Forall_app in HT as [HT _]. done.
    + simpl. split.
      * intros T w HT Hw. apply Forall_app in HT as [HT Hnow].
        apply Forall_inv in Hnow.
        rewrite !within_app, !length_app.
        rewrite (within_later now T w _ _ Hnow Hw).
        specialize (Hinv T w HT Hw). lia.
      * intros T c Hc. rewrite window_of_app, length_app.
        destruct (decide (now ≤ T)) as [HT|HT].
        -- pose proof (window_of_within T now (window (check_limit c))
                         (admitted times results) HT) as H1.
           pose proof (Hinv now (window (check_limit c)) Hall (checks_window c Hc)) as H2.
           pose proof (proj1 Hiff eq_refl c Hc) as H3.
           assert (H4 : (length (window_of T (window (check_limit c)) [now]) ≤ 1)%nat).
           { rewrite filter_cons. destruct (decide _); simpl; lia. }
           lia.
        -- assert (H4 : window_of T (window (check_limit c)) [now] = []).
           { rewrite filter_cons. rewrite decide_False by lia. done. }
           rewrite H4. simpl. rewrite Nat.add_0_r. by apply Hcap.
Qed.

End WidgetRateLimitMore.

(** X14.  The widget's [checkRateLimit] allows a call exactly when the
    stored times exhaust none of the three tiers: fewer than 8 of them
    lie in the last minute, fewer than 20 in the last ten minutes and
    fewer than 50 in the last 24 hours.  The sequence an allowed call
    writes to storage has at most 50 entries. *)
Theorem widget_limiter_admits_iff_every_tier_open
    (writable : bool) (now : Z) (item : ChatbotWidget.stored_times) :
  let times := ChatbotWidget.load_times item in
  let sent w := Z.of_nat (length (ChatbotWidget.within now w times)) in
  (ChatbotWidget.allowed (ChatbotWidget.checkRateLimit writable now item).2 = true
   ↔ sent (60 * 1000) < 8 ∧ sent (10 * 60 * 1000) < 20 ∧ sent (24 * 60 * 60 * 1000) < 50)
  ∧ (ChatbotWidget.allowed (ChatbotWidget.checkRateLimit true now item).2 = true →
     ∃ l, (ChatbotWidget.checkRateLimit true now item).1 = ChatbotWidget.Item l
          ∧ (length l ≤ 50)%nat).
Proof.
  intros times sent. subst times sent.
  assert (Hiff : ∀ w, ChatbotWidget.allowed (ChatbotWidget.checkRateLimit w now item).2 = true
    ↔ Z.of_nat (length (ChatbotWidget.within now (60 * 1000)
                          (ChatbotWidget.load_times item))) < 8
      ∧ Z.of_nat (length (ChatbotWidget.within now (10 * 60 * 1000)
                            (ChatbotWidget.load_times item))) < 20
      ∧ Z.of_nat (length (ChatbotWidget.within now (24 * 60 * 60 * 1000)
                            (ChatbotWidget.load_times item))) < 50).
  { intros w. rewrite checkRateLimit_allowed_iff. unfold ChatbotWidget.checks. split.
    - intros H.
      pose proof (H ChatbotWidget.check_PER_MINUTE) as H1.
      pose proof (H ChatbotWidget.check_PER_10_MINUTES) as H2.
      pose proof (H ChatbotWidget.check_PER_DAY) as H3.
      rewrite !elem_of_cons in H1, H2, H3. split; [|split]; auto.
    - intros (H1 & H2 & H3) c Hc. rewrite !elem_of_cons, elem_of_nil in Hc.
      destruct Hc as [->|[->|[->|[]]]]; assumption. }
  split; [apply Hiff|].
  intros Ha. rewrite checkRateLimit_allowed_writes by done.
  eexists. split; [reflexivity|].
  apply Hiff in Ha as (_ & _ & Hday).
  rewrite length_app. simpl. unfold ChatbotWidget.PER_DAY. simpl ChatbotWidget.window. lia.
Qed.

(** X14 on a record of seven sends within the last minute. *)
Lemma widget_limiter_admits_iff_every_tier_open_witness :
  let item := ChatbotWidget.Item [1000; 2000; 3000; 4000; 5000; 6000; 7000] in
  ∃ l, (ChatbotWidget.checkRateLimit true 8000 item).1 = ChatbotWidget.Item l
       ∧ (length l ≤ 50)%nat.
Proof.
  intros item.
  assert (Ha : ChatbotWidget.allowed (ChatbotWidget.checkRateLimit true 8000 item).2 = true)
    by (vm_compute; reflexivity).
  exact (proj2 (widget_limiter_admits_iff_every_tier_open true 8000 item) Ha).
Defined.

(** X15.  Over calls whose clock readings do not decrease and whose
    writes to storage succeed, the widget's limiter keeps to its three
    tiers whatever the storage held at first: among the calls it
    allows, at most 8 lie in any window of one minute, at most 20 in
    any window of ten minutes and at most 50 in any window of 24
    hours. *)
Theorem widget_limiter_caps_every_window
    (times : list Z) (item : ChatbotWidget.stored_times) (T : Z) :
  Sorted Z.le times →
  let results := (ChatbotWidget.checkRateLimits true times item).2 in
  let sent := ChatbotWidget.admitted times results in
  let during w := Z.of_nat (length (filter (fun t => T - w < t ∧ t ≤ T) sent)) in
  during (60 * 1000) ≤ 8 ∧ during (10 * 60 * 1000) ≤ 20
  ∧ during (24 * 60 * 60 * 1000) ≤ 50.
Proof.
  intros Hsorted results sent during. subst results sent during.
  destruct (checkRateLimits_caps times item Hsorted) as [_ Hcap].
  pose proof (Hcap T ChatbotWidget.check_PER_MINUTE) as H1.
  pose proof (Hcap T ChatbotWidget.check_PER_10_MINUTES) as H2.
  pose proof (Hcap T ChatbotWidget.check_PER_DAY) as H3.
  unfold ChatbotWidget.checks in H1, H2, H3. rewrite !elem_of_cons in H1, H2, H3.
  split; [|split]; auto.
Qed.

(** X15 on ten calls one second apart: eight are allowed. *)
Lemma widget_limiter_caps_every_window_witness :
  let times := [0; 1000; 2000; 3000; 4000; 5000; 6000; 7000; 8000; 9000] in
  let results := (ChatbotWidget.checkRateLimits true times ChatbotWidget.NoItem).2 in
  let sent := ChatbotWidget.admitted times results in
  sent = [0; 1000; 2000; 3000; 4000; 5000; 6000; 7000]
  ∧ Z.of_nat (length (filter (fun t => 9000 - 60 * 1000 < t ∧ t ≤ 9000) sent)) ≤ 8.
Proof.
  intros times results sent. split; [vm_compute; reflexivity|].
  assert (Hsorted : Sorted Z.le times).
  { subst times. repeat (apply Sorted_cons; [|first [apply HdRel_nil | apply HdRel_cons; lia]]).
    apply Sorted_nil. }
  exact (proj1 (widget_limiter_caps_every_window times ChatbotWidget.NoItem 9000 Hsorted)).
Defined.

(** ** Runs of the contact proxy's rate limiter *)

Section ContactRateLimitRuns.
Import Js ContactFormProxy.
Variable ip : string.

Local Abbreviation seen T l := (filter (fun t : Z => T - t < RATE_LIMIT_WINDOW) l).
Local Abbreviation during T l :=
  (filter (fun t : Z => T - RATE_LIMIT_WINDOW < t ∧ t ≤ T) l).

Lemma contact_checkRateLimit_cases now (store : gmap string (list Z)) :
  let r := checkRateLimit now ip store in
  (allowed r.2 = false ∧ r.1 = store)
  ∨ (r.2 = Allowed
     ∧ Z.of_nat (length (seen now (default [] (store !! ip)))) < MAX_REQUESTS_PER_HOUR
     ∧ r.1 = <[ip := seen now (default [] (store !! ip)) ++ [now]]> store).
Proof.
  unfold checkRateLimit.
  destruct (Z.of_nat (length (seen now (default [] (store !! ip))))
            >=? MAX_REQUESTS_PER_HOUR) eqn:E; simpl.
  - by left.
  - right. split; [done|]. split; [lia|done].
Qed.

Lemma contact_checkRateLimits_snoc times now (store : gmap string (list Z)) :
  checkRateLimits ip (times ++ [now]) store =
    let '(store', results) := checkRateLimits ip times store in
    let '(store'', result) := checkRateLimit now ip store' in
    (store'', results ++ [result]).
Proof.
  revert store. induction times as [|t times IH]; intros store; simpl.
  - by destruct (checkRateLimit now ip store).
  - destruct (checkRateLimit t ip store) as [store1 r1].
    rewrite IH. destruct (checkRateLimits ip times store1) as [store2 rs].
    by destruct (checkRateLimit now ip store2).
Qed.

Lemma contact_checkRateLimits_length times (store : gmap string (list Z)) :
  length (checkRateLimits ip times store).2 = length times.
Proof.
  revert store. induction times as [|t times IH]; intros store; simpl; [done|].
  destruct (checkRateLimit t ip store) as [store1 r1].
  specialize (IH store1). destruct (checkRateLimits ip times store1). simpl in *.
  by rewrite IH.
Qed.

Lemma contact_admitted_snoc times results now result :
  length results = length times →
  admitted (times ++ [now]) (results ++ [result]) =
    admitted times results ++ (if allowed result then [now] else []).
Proof.
  intros Hlen. unfold admitted.
  rewrite zip_with_app by done. rewrite omap_app. simpl.
  by destruct (allowed result).
Qed.

Lemma seen_later now T (l : list Z) : now ≤ T → seen T (seen now l) = seen T l.
Proof.
  intros Hnow. induction l as [|t l IH]; [done|].
  rewrite !filter_cons. destruct (decide (now - t < RATE_LIMIT_WINDOW)) as [Hd|Hd].
  - rewrite filter_cons. destruct (decide (T - t < RATE_LIMIT_WINDOW)); by rewrite IH.
  - rewrite IH. destruct (decide (T - t < RATE_LIMIT_WINDOW)); [lia|done].
Qed.

Lemma during_seen T now (l : list Z) :
  now ≤ T → (length (during T l) ≤ length (seen now l))%nat.
Proof.
  intros HT. induction l as [|t l IH]; [done|].
  rewrite !filter_cons.
  destruct (decide (T - RATE_LIMIT_WINDOW < t ∧ t ≤ T)) as [Hin|Hout].
  - rewrite decide_True by lia. simpl. lia.
  - destruct (decide (now - t < RATE_LIMIT_WINDOW)); simpl; lia.
Qed.

(** Over non-decreasing times the caller's record counts every allowed
    request of a trailing hour, and no hour holds more allowed
    requests than the limit. *)
Lemma contact_checkRateLimits_caps times (store : gmap string (list Z)) :
  Sorted Z.le times →
  let run := checkRateLimits ip times store in
  (∀ T, Forall (fun t => t ≤ T) times →
     (length (seen T (admitted times run.2))
      ≤ length (seen T (default [] (run.1 !! ip))))%nat)
  ∧ (∀ T, Z.of_nat (length (during T (admitted times run.2))) ≤ MAX_REQUESTS_PER_HOUR).
Proof.
  induction times as [|now times IH] using rev_ind; intros Hsorted run.
  - subst run. simpl. split.
    + intros T _. simpl. lia.
    + intros T. vm_compute. discriminate.
  - pose proof (Sorted_snoc_inv times now Hsorted) as [Hs Hall].
    specialize (IH Hs). simpl in IH. destruct IH as [Hinv Hcap].
    subst run. rewrite contact_checkRateLimits_snoc.
    pose proof (contact_checkRateLimits_length times store) as Hlen.
    destruct (checkRateLimits ip times store) as [store' results]. simpl in *.
    pose proof (contact_checkRateLimit_cases now store') as Hcases.
    destruct (checkRateLimit now ip store') as [store'' result]. simpl in *.
    rewrite contact_admitted_snoc by done.
    destruct Hcases as [[Hdenied ->]|(-> & Hopen & ->)].
    + rewrite Hdenied, app_nil_r. split; [|done].
      intros T HT. apply Hinv. by apply Forall_app in HT as [HT _].
    + simpl. rewrite lookup_insert_eq. simpl. split.
      * intros T HT. apply Forall_app in HT as [HT Hnow]. apply Forall_inv in Hnow.
        rewrite !filter_app, !length_app.
        rewrite (seen_later now T _ Hnow).
        specialize (Hinv T HT). lia.
      * intros T. rewrite filter_app, length_app.
        destruct (decide (now ≤ T)) as [HT|HT].
        -- pose proof (during_seen T now (admitted times results) HT) as H1.
           pose proof (Hinv now Hall) as H2.
           assert (H4 : (length (during T [now]) ≤ 1)%nat).
           { rewrite filter_cons. destruct (decide _); simpl; lia. }
           lia.
        -- assert (H4 : during T [now] = []).
           { rewrite filter_cons. rewrite decide_False by lia. done. }
           rewrite H4. simpl. rewrite Nat.add_0_r. by apply Hcap.
Qed.

End ContactRateLimitRuns.

(** X16.  Over requests of one caller whose clock readings do not
    decrease, the contact proxy's limiter allows at most 10 requests in
    any window of one hour, whatever the store held at first. *)
Theorem contact_limiter_caps_every_hour
    (ip : string) (times : list Z) (store : gmap string (list Z)) (T : Z) :
  Sorted Z.le times →
  let results := (ContactFormProxy.checkRateLimits ip times store).2 in
  let sent := ContactFormProxy.admitted times results in
  Z.of_nat (length (filter (fun t => T - 60 * 60 * 1000 < t ∧ t ≤ T) sent)) ≤ 10.
Proof.
  intros Hsorted results sent. subst results sent.
  exact (proj2 (contact_checkRateLimits_caps ip times store Hsorted) T).
Qed.

(** X16 on twelve requests one minute apart: ten are allowed. *)
Lemma contact_limiter_caps_every_hour_witness :
  let times := [0; 60000; 120000; 180000; 240000; 300000; 360000; 420000; 480000;
                540000; 600000; 660000] in
  let results := (ContactFormProxy.checkRateLimits "203.0.113.7" times ∅).2 in
  let sent := ContactFormProxy.admitted times results in
  sent = [0; 60000; 120000; 180000; 240000; 300000; 360000; 420000; 480000; 540000]
  ∧ Z.of_nat (length (filter (fun t => 660000 - 60 * 60 * 1000 < t ∧ t ≤ 660000) sent)) ≤ 10.
Proof.
  intros times results sent. split; [vm_compute; reflexivity|].
  assert (Hsorted : Sorted Z.le times).
  { subst times.
    repeat (apply Sorted_cons; [|first [apply HdRel_nil | apply HdRel_cons; lia]]).
    apply Sorted_nil. }
  exact (contact_limiter_caps_every_hour "203.0.113.7" times ∅ 660000 Hsorted).
Defined.

(** ** Runs of the chat proxy's rate limiter *)

Section ChatRateLimitRuns.
Import Js ChatbotProxy.
Variable CONFIG : config.
Variable ip : string.
Hypothesis max_positive : 1 ≤ RATE_LIMIT_PER_MINUTE CONFIG.

Local Abbreviation since ts l := (filter (fun a : Z => ts - 60000 ≤ a) l).
Local Abbreviation during T l := (filter (fun a : Z => T - 60000 ≤ a ∧ a ≤ T) l).

Lemma chat_checkRateLimits_snoc times now (store : gmap string entry) :
  checkRateLimits CONFIG ip (times ++ [now]) store =
    let '(store', verdicts) := checkRateLimits CONFIG ip times store in
    let '(store'', verdict) := checkRateLimit CONFIG now ip store' in
    (store'', verdicts ++ [verdict]).
Proof.
  revert store. induction times as [|t times IH]; intros store; simpl.
  - by destruct (checkRateLimit CONFIG now ip store).
  - destruct (checkRateLimit CONFIG t ip store) as [store1 r1].
    rewrite IH. destruct (checkRateLimits CONFIG ip times store1) as [store2 rs].
    by destruct (checkRateLimit CONFIG now ip store2).
Qed.

Lemma chat_admitted_snoc times verdicts now (verdict : bool) :
  length verdicts = length times →
  admitted (times ++ [now]) (verdicts ++ [verdict]) =
    admitted times verdicts ++ (if verdict then [now] else []).
Proof.
  intros Hlen. unfold admitted.
  rewrite zip_with_app by done. rewrite omap_app. simpl.
  by destruct verdict.
Qed.

(** The three things a check does to the caller's entry. *)
Lemma chat_checkRateLimit_cases now (store : gmap string entry) :
  let r := checkRateLimit CONFIG now ip store in
  (r.2 = true ∧ r.1 !! ip = Some {| count := 1; timestamp := now |}
   ∧ (store !! ip = None ∨ ∃ d, store !! ip = Some d ∧ 60000 < now - timestamp d))
  ∨ (∃ d, store !! ip = Some d ∧ now - timestamp d ≤ 60000
       ∧ count d < RATE_LIMIT_PER_MINUTE CONFIG
       ∧ r.2 = true ∧ r.1 !! ip = Some {| count := count d + 1; timestamp := now |})
  ∨ (∃ d, store !! ip = Some d ∧ r.2 = false ∧ r.1 !! ip = Some d).
Proof.
  intros r. subst r.
  destruct (store !! ip) as [d|] eqn:Hd.
  - destruct (decide (now - timestamp d ≤ 60000)) as [Hfresh|Hstale].
    + destruct (decide (count d < RATE_LIMIT_PER_MINUTE CONFIG)) as [Hlt|Hge].
      * right. left. exists d.
        destruct (checkRateLimit_increment CONFIG now ip store d Hd Hfresh Hlt) as [H1 H2].
        by rewrite H1, H2.
      * right. right. exists d.
        assert (Hge' : RATE_LIMIT_PER_MINUTE CONFIG ≤ count d) by lia.
        destruct (checkRateLimit_deny CONFIG now ip store d Hd Hfresh Hge') as [H1 H2].
        by rewrite H1, H2.
    + left. assert (Hold : 60000 < now - timestamp d) by lia.
      destruct (checkRateLimit_reset CONFIG now ip store
                  (or_intror (ex_intro _ d (conj Hd Hold)))) as [H1 H2].
      rewrite H1, H2. split; [done|]. split; [done|]. right. by exists d.
  - left.
    destruct (checkRateLimit_reset CONFIG now ip store (or_introl Hd)) as [H1 H2].
    rewrite H1, H2. split; [done|]. split; [done|]. by left.
Qed.

Lemma since_later ts now (l : list Z) :
  ts ≤ now → (length (since now l) ≤ length (since ts l))%nat.
Proof.
  intros H. induction l as [|a l IH]; [done|].
  rewrite !filter_cons.
  destruct (decide (now - 60000 ≤ a)).
  - rewrite decide_True by lia. simpl. lia.
  - destruct (decide (ts - 60000 ≤ a)); simpl; lia.
Qed.

Lemma since_none now (l : list Z) :
  Forall (fun a => a < now - 60000) l → since now l = [].
Proof.
  induction l as [|a l IH]; [done|]. intros [Ha Hl]%Forall_cons.
  rewrite filter_cons, decide_False by lia. by apply IH.
Qed.

Lemma during_since T now (l : list Z) :
  now ≤ T → (length (during T l) ≤ length (since now l))%nat.
Proof.
  intros HT. induction l as [|a l IH]; [done|].
  rewrite !filter_cons.
  destruct (decide (T - 60000 ≤ a ∧ a ≤ T)).
  - rewrite decide_True by lia. simpl. lia.
  - destruct (decide (now - 60000 ≤ a)); simpl; lia.
Qed.

Lemma during_singleton_out T now : ¬ now ≤ T → during T [now] = [].
Proof. intros H. rewrite filter_cons, decide_False by lia. done. Qed.

Lemma since_singleton now : since now [now] = [now].
Proof. rewrite filter_cons, decide_True by lia. done. Qed.

(** Over non-decreasing times the caller's entry counts every admitted
    request since its time stamp's minute began, and no minute holds
    more admitted requests than the limit. *)
Lemma chat_checkRateLimits_caps times (store : gmap string entry) :
  Sorted Z.le times →
  (∀ d, store !! ip = Some d → 0 ≤ count d) →
  let run := checkRateLimits CONFIG ip times store in
  let sent := admitted times run.2 in
  ((sent = [] ∧ ∀ d, run.1 !! ip = Some d → 0 ≤ count d)
   ∨ (∃ d, run.1 !! ip = Some d ∧ timestamp d ∈ times
        ∧ Forall (fun a => a ≤ timestamp d) sent
        ∧ Z.of_nat (length (since (timestamp d) sent)) ≤ count d))
  ∧ (∀ T, Z.of_nat (length (during T sent)) ≤ RATE_LIMIT_PER_MINUTE CONFIG).
Proof.
  intros Hsorted Hcount.
  induction times as [|now times IH] using rev_ind; intros run sent.
  - subst run sent. simpl. split; [left; by split|]. intros T. simpl. lia.
  - pose proof (Sorted_snoc_inv times now Hsorted) as [Hs Hall].
    specialize (IH Hs). simpl in IH. destruct IH as [Hinv Hcap].
    subst run sent. rewrite chat_checkRateLimits_snoc.
    pose proof (checkRateLimits_length CONFIG ip times store) as Hlen.
    destruct (checkRateLimits CONFIG ip times store) as [store' verdicts]. simpl in *.
    pose proof (chat_checkRateLimit_cases now store') as Hcases.
    destruct (checkRateLimit CONFIG now ip store') as [store'' verdict]. simpl in *.
    rewrite chat_admitted_snoc by done.
    set (A := admitted times verdicts) in *.
    assert (Hstep : ∀ c, verdict = true →
              store'' !! ip = Some {| count := c; timestamp := now |} →
              Forall (fun a => a ≤ now) A →
              Z.of_nat (length (since now A)) + 1 ≤ c →
              c ≤ RATE_LIMIT_PER_MINUTE CONFIG →
              (∃ d, store'' !! ip = Some d ∧ timestamp d ∈ times ++ [now]
                 ∧ Forall (fun a => a ≤ timestamp d) (A ++ [now])
                 ∧ Z.of_nat (length (since (timestamp d) (A ++ [now]))) ≤ count d)
              ∧ (∀ T, Z.of_nat (length (during T (A ++ [now])))
                      ≤ RATE_LIMIT_PER_MINUTE CONFIG)).
    { intros c _ Hentry HA Hsince Hc. split.
      - eexists. split; [exact Hentry|]. simpl. split.
        { apply elem_of_app. right. apply list_elem_of_here. }
        split.
        { apply Forall_app. split; [done|]. apply Forall_singleton. lia. }
        rewrite filter_app, length_app, since_singleton. simpl. lia.
      - intros T. rewrite filter_app, length_app.
        destruct (decide (now ≤ T)) as [HT|HT].
        + pose proof (during_since T now A HT) as H1.
          assert (H4 : (length (during T [now]) ≤ 1)%nat).
          { rewrite filter_cons. destruct (decide _); simpl; lia. }
          lia.
        + rewrite (during_singleton_out T now HT). simpl. rewrite Nat.add_0_r.
          by apply Hcap. }
    assert (HA : Forall (fun a => a ≤ now) A).
    { destruct Hinv as [[-> _]|(d & _ & Hin & Hle & _)]; [constructor|].
      rewrite Forall_forall in Hall. specialize (Hall _ Hin).
      eapply Forall_impl; [exact Hle|]. intros a Ha. simpl in *. lia. }
    destruct Hcases as [(-> & Hentry & Hwhy)|[(d & Hd & Hfresh & Hlt & -> & Hentry)
                                              |(d & Hd & -> & Hentry)]].
    + (* the counter starts again *)
      assert (Hnone : since now A = []).
      { destruct Hinv as [[-> _]|(d & Hd & _ & Hle & _)]; [done|].
        destruct Hwhy as [Hno|(d' & Hd' & Hold)]; [congruence|].
        assert (d' = d) as -> by congruence.
        apply since_none. eapply Forall_impl; [exact Hle|]. intros a Ha. simpl in *. lia. }
      destruct (Hstep 1 eq_refl Hentry HA) as [H1 H2].
      * rewrite Hnone. simpl. lia.
      * exact max_positive.
      * split; [by right|exact H2].
    + (* the counter goes up *)
      destruct (Hstep (count d + 1) eq_refl Hentry HA) as [H1 H2].
      * destruct Hinv as [[HAe Hpos]|(d' & Hd' & Hin & Hle & Hbound)].
        -- rewrite HAe. simpl. specialize (Hpos d Hd). lia.
        -- assert (d' = d) as -> by congruence.
           rewrite Forall_forall in Hall. specialize (Hall _ Hin). simpl in Hall.
           pose proof (since_later (timestamp d) now A Hall). lia.
      * lia.
      * split; [by right|exact H2].
    + (* the request is refused *)
      rewrite app_nil_r. split; [|exact Hcap].
      destruct Hinv as [[HAe Hpos]|(d' & Hd' & Hin & Hle & Hbound)].
      * left. split; [done|]. intros d0 Hd0.
        assert (d0 = d) as -> by congruence. by apply Hpos.
      * right. assert (d' = d) as -> by congruence.
        exists d. split; [done|]. split; [|by split].
        apply elem_of_app. by left.
Qed.

End ChatRateLimitRuns.

(** X17.  Over requests of one caller whose clock readings do not
    decrease, the chat proxy's limiter admits at most
    [RATE_LIMIT_PER_MINUTE] requests in any span of 60 seconds, both
    ends included, when that limit is at least 1 and the caller's
    entry, if the store holds one at first, has a count that is not
    negative. *)
Theorem chat_limiter_caps_every_minute
    (CONFIG : ChatbotProxy.config) (ip : string) (times : list Z)
    (store : gmap string ChatbotProxy.entry) (T : Z) :
  1 ≤ ChatbotProxy.RATE_LIMIT_PER_MINUTE CONFIG →
  (∀ d, store !! ip = Some d → 0 ≤ ChatbotProxy.count d) →
  Sorted Z.le times →
  let verdicts := (ChatbotProxy.checkRateLimits CONFIG ip times store).2 in
  let sent := ChatbotProxy.admitted times verdicts in
  Z.of_nat (length (filter (fun t => T - 60000 ≤ t ∧ t ≤ T) sent))
    ≤ ChatbotProxy.RATE_LIMIT_PER_MINUTE CONFIG.
Proof.
  intros Hmax Hcount Hsorted verdicts sent. subst verdicts sent.
  exact (proj2 (chat_checkRateLimits_caps CONFIG ip Hmax times store Hsorted Hcount) T).
Qed.

(** X17 on twelve requests five seconds apart, with the default limit
    of 10: the first ten are admitted and the last two are not. *)
Lemma chat_limiter_caps_every_minute_witness :
  let CONFIG := ChatbotProxy.default_config "https://n8n.example/hook" "secret" in
  let times := [0; 5000; 10000; 15000; 20000; 25000; 30000; 35000; 40000; 45000;
                50000; 55000] in
  let verdicts := (ChatbotProxy.checkRateLimits CONFIG "203.0.113.7" times ∅).2 in
  let sent := ChatbotProxy.admitted times verdicts in
  sent = [0; 5000; 10000; 15000; 20000; 25000; 30000; 35000; 40000; 45000]
  ∧ Z.of_nat (length (filter (fun t => 55000 - 60000 ≤ t ∧ t ≤ 55000) sent)) ≤ 10.
Proof.
  intros CONFIG times verdicts sent. split; [vm_compute; reflexivity|].
  assert (Hmax : 1 ≤ ChatbotProxy.RATE_LIMIT_PER_MINUTE CONFIG) by (simpl; lia).
  assert (Hcount : ∀ d, (∅ : gmap string ChatbotProxy.entry) !! "203.0.113.7" = Some d →
                     0 ≤ ChatbotProxy.count d).
  { intros d Hd. by rewrite lookup_empty in Hd. }
  assert (Hsorted : Sorted Z.le times).
  { subst times.
    repeat (apply Sorted_cons; [|first [apply HdRel_nil | apply HdRel_cons; lia]]).
    apply Sorted_nil. }
  exact (chat_limiter_caps_every_minute CONFIG "203.0.113.7" times ∅ 55000
           Hmax Hcount Hsorted).
Defined.

(** ** The session id *)

Section WidgetSession.
Import Js ChatbotWidget.

Lemma nibble_cases (v : Z) :
  0 ≤ v < 16 →
  v = 0 ∨ v = 1 ∨ v = 2 ∨ v = 3 ∨ v = 4 ∨ v = 5 ∨ v = 6 ∨ v = 7
  ∨ v = 8 ∨ v = 9 ∨ v = 10 ∨ v = 11 ∨ v = 12 ∨ v = 13 ∨ v = 14 ∨ v = 15.
Proof. lia. Qed.

Lemma toString16_nibble (v : Z) :
  0 ≤ v < 16 → toString16 v = String (hexDigit v) "".
Proof.
  intros H. unfold toString16. cbn [toString16_digits].
  replace (v <? 16) with true by lia.
  rewrite append_nil_l, Z.mod_small by lia. done.
Qed.

Lemma hexDigit_hex (v : Z) :
  0 ≤ v < 16 → In (hexDigit v) (list_ascii_of_string "0123456789abcdef").
Proof.
  intros H. apply nibble_cases in H.
  repeat (destruct H as [->|H];
          [vm_compute; repeat (first [left; reflexivity | right])|]).
  subst. vm_compute. repeat (first [left; reflexivity | right]).
Qed.

(** [(r & 0x3 | 0x8)] is one of 8, 9, 10 and 11. *)
Lemma variant_value (r : Z) :
  0 ≤ r < 16 →
  Z.lor (Z.land r 3) 8 = 8 ∨ Z.lor (Z.land r 3) 8 = 9
  ∨ Z.lor (Z.land r 3) 8 = 10 ∨ Z.lor (Z.land r 3) 8 = 11.
Proof.
  intros H. apply nibble_cases in H.
  repeat (destruct H as [->|H]; [vm_compute; auto|]).
  subst. vm_compute. auto.
Qed.

Lemma variant_nibble (r : Z) : 0 ≤ r < 16 → 0 ≤ Z.lor (Z.land r 3) 8 < 16.
Proof. intros H. destruct (variant_value r H) as [E|[E|[E|E]]]; rewrite E; lia. Qed.

Lemma variant_digit (r : Z) :
  0 ≤ r < 16 →
  hexDigit (Z.lor (Z.land r 3) 8) = "8"%char ∨ hexDigit (Z.lor (Z.land r 3) 8) = "9"%char
  ∨ hexDigit (Z.lor (Z.land r 3) 8) = "a"%char
  ∨ hexDigit (Z.lor (Z.land r 3) 8) = "b"%char.
Proof.
  intros H. destruct (variant_value r H) as [E|[E|[E|E]]]; rewrite E; auto.
Qed.

Lemma strlen_toString16 (v : Z) : (1 ≤ strlen (toString16 v))%nat.
Proof.
  unfold toString16. cbn [toString16_digits]. rewrite strlen_append. simpl. lia.
Qed.

Lemma strlen_replace_xy random k (template : string) :
  (strlen template ≤ strlen (replace_xy random k template))%nat.
Proof.
  revert k. induction template as [|c template IH]; intros k; simpl; [done|].
  destruct (Ascii.eqb c "x" || Ascii.eqb c "y").
  - rewrite strlen_append. pose proof (strlen_toString16
      (if Ascii.eqb c "x" then random k else Z.lor (Z.land (random k) 3) 8)).
    specialize (IH (S k)). unfold strlen in *. lia.
  - simpl. specialize (IH k). unfold strlen in *. lia.
Qed.

Lemma generateSessionId_nonempty random : generateSessionId random ≠ "".
Proof.
  unfold generateSessionId.
  pose proof (strlen_replace_xy random 0 "xxxxxxxx-xxxx-4xxx-yxxx-xxxxxxxxxxxx") as H.
  set (id := replace_xy random 0 "xxxxxxxx-xxxx-4xxx-yxxx-xxxxxxxxxxxx") in *.
  change (strlen "xxxxxxxx-xxxx-4xxx-yxxx-xxxxxxxxxxxx") with 36%nat in H.
  intros E. rewrite E in H. simpl in H. lia.
Qed.

(** The id written out, for random values below 16. *)
Lemma generateSessionId_digits random :
  (∀ k, 0 ≤ random k < 16) →
  let x k := hexDigit (random k) in
  let y k := hexDigit (Z.lor (Z.land (random k) 3) 8) in
  generateSessionId random =
    String (x 0%nat) (String (x 1%nat) (String (x 2%nat) (String (x 3%nat)
    (String (x 4%nat) (String (x 5%nat) (String (x 6%nat) (String (x 7%nat)
    (String "-" (String (x 8%nat) (String (x 9%nat) (String (x 10%nat) (String (x 11%nat)
    (String "-" (String "4" (String (x 12%nat) (String (x 13%nat) (String (x 14%nat)
    (String "-" (String (y 15%nat) (String (x 16%nat) (String (x 17%nat) (String (x 18%nat)
    (String "-" (String (x 19%nat) (String (x 20%nat) (String (x 21%nat) (String (x 22%nat)
    (String (x 23%nat) (String (x 24%nat) (String (x 25%nat) (String (x 26%nat)
    (String (x 27%nat) (String (x 28%nat) (String (x 29%nat) (String (x 30%nat)
    ""))))))))))))))))))))))))))))))))))).
Proof.
  intros Hr x y. subst x y. unfold generateSessionId.
  cbn [replace_xy Ascii.eqb Bool.eqb orb].
  rewrite !toString16_nibble by (first [apply Hr | apply variant_nibble, Hr]).
  rewrite !append_cons, !append_nil_l. reflexivity.
Qed.

End WidgetSession.

(** X24.  [generateSessionId] yields an identifier of the UUID version
    4 shape whenever each [Math.random() * 16 | 0] lies between 0 and
    15: 36 characters, hyphens at positions 8, 13, 18 and 23, the digit
    4 at position 14, one of 8, 9, a and b at position 19 and a
    lower-case hexadecimal digit everywhere else. *)
Theorem widget_session_id_is_uuid_v4 (random : nat → Z) :
  (∀ k, 0 ≤ random k < 16) →
  let id := ChatbotWidget.generateSessionId random in
  Js.strlen id = 36%nat
  ∧ ∀ i c, String.get i id = Some c →
      match i with
      | 8 | 13 | 18 | 23 => c = "-"%char
      | 14 => c = "4"%char
      | 19 => c = "8"%char ∨ c = "9"%char ∨ c = "a"%char ∨ c = "b"%char
      | _ => In c (list_ascii_of_string "0123456789abcdef")
      end%nat.
Proof.
  intros Hr id. subst id. rewrite (generateSessionId_digits random Hr). cbv zeta.
  split; [reflexivity|]. intros i c Hget.
  do 36 (destruct i as [|i];
         [simpl in Hget; injection Hget as <-;
          first [reflexivity | apply hexDigit_hex, Hr | apply variant_digit, Hr]|]).
  simpl in Hget. discriminate.
Qed.

(** X24 on the random values 0, 1, 2, ... taken modulo 16. *)
Lemma widget_session_id_is_uuid_v4_witness :
  ChatbotWidget.generateSessionId (fun k => Z.of_nat k mod 16)
    = "01234567-89ab-4cde-b012-3456789abcde"
  ∧ Js.strlen (ChatbotWidget.generateSessionId (fun k => Z.of_nat k mod 16)) = 36%nat.
Proof.
  split; [vm_compute; reflexivity|].
  apply (widget_session_id_is_uuid_v4 (fun k => Z.of_nat k mod 16)).
  intros k. apply Z.mod_pos_bound. lia.
Defined.

(** ** Calls of [getSessionId] *)

Section WidgetSessionCalls.
Import Js ChatbotWidget.

(** With the variable set, a call returns it and touches nothing. *)
Lemma getSessionId_ready access random s id :
  sessionId s = Some id → id ≠ "" → getSessionId access random s = (s, Return id).
Proof.
  intros Hs Hid. unfold getSessionId. rewrite Hs. simpl.
  apply String.eqb_neq in Hid. by rewrite Hid.
Qed.

(** A call that returns leaves the variable set to the id, which is
    not empty. *)
Lemma getSessionId_returns access random s s1 id :
  getSessionId access random s = (s1, Return id) → sessionId s1 = Some id ∧ id ≠ "".
Proof.
  unfold getSessionId. destruct (present (sessionId s)) eqn:Hvar.
  - intros [= <- <-]. destruct (sessionId s) as [v|]; [|discriminate].
    simpl in *. apply negb_true_iff, String.eqb_neq in Hvar. done.
  - destruct (can_read access); simpl; [|discriminate].
    destruct (present (chatbot_session_id s)) eqn:Hitem.
    + intros [= <- <-]. destruct (chatbot_session_id s) as [v|]; [|discriminate].
      simpl in *. apply negb_true_iff, String.eqb_neq in Hitem. done.
    + destruct (can_write access); [|discriminate]. intros [= <- <-]. simpl.
      split; [done|]. apply generateSessionId_nonempty.
Qed.

(** A call throws only with the variable unset, on a storage that
    cannot be read, or that holds no id and cannot be written. *)
Lemma getSessionId_throws access random s s1 e :
  getSessionId access random s = (s1, Throw e) →
  present (sessionId s) = false
  ∧ ((can_read access = false ∧ e = SecurityError ∧ s1 = s)
     ∨ (can_read access = true ∧ can_write access = false
        ∧ present (chatbot_session_id s) = false
        ∧ e = QuotaExceededError
        ∧ s1 = {| sessionId := Some (generateSessionId random);
                  chatbot_session_id := chatbot_session_id s |})).
Proof.
  unfold getSessionId. destruct (present (sessionId s)) eqn:Hvar; [discriminate|].
  intros H. split; [done|]. revert H. destruct (can_read access); simpl.
  - destruct (present (chatbot_session_id s)) eqn:Hitem; [discriminate|].
    destruct (can_write access); [discriminate|]. intros [= <- <-]. right. done.
  - intros [= <- <-]. left. done.
Qed.

End WidgetSessionCalls.

(** X25.  The session id is stable and never empty: once
    [getSessionId] has returned an id, every later call returns the
    same id and changes nothing, whatever the storage and the random
    source then do.  A call throws only while the script's variable
    is unset and [sessionStorage] fails.  When the read fails, the
    session is left as it was, so that the next call meets the storage
    again.  When the write fails, the variable holds the id that was
    generated: the later calls return it, although storage does not
    hold it. *)
Theorem widget_session_id_is_stable
    (access : ChatbotWidget.storage_access) (random : nat → Z)
    (s : ChatbotWidget.session) :
  let out := ChatbotWidget.getSessionId access random s in
  match out.2 with
  | Js.Return id =>
      id ≠ ""
      ∧ ∀ access' random',
          ChatbotWidget.getSessionId access' random' out.1 = (out.1, Js.Return id)
  | Js.Throw error =>
      Js.present (ChatbotWidget.sessionId s) = false
      ∧ ((ChatbotWidget.can_read access = false
          ∧ error = ChatbotWidget.SecurityError
          ∧ out.1 = s)
         ∨ (ChatbotWidget.can_read access = true
            ∧ ChatbotWidget.can_write access = false
            ∧ Js.present (ChatbotWidget.chatbot_session_id s) = false
            ∧ error = ChatbotWidget.QuotaExceededError
            ∧ ChatbotWidget.chatbot_session_id out.1 = ChatbotWidget.chatbot_session_id s
            ∧ ChatbotWidget.generateSessionId random ≠ ""
            ∧ ∀ access' random',
                ChatbotWidget.getSessionId access' random' out.1
                = (out.1, Js.Return (ChatbotWidget.generateSessionId random))))
  end.
Proof.
  intros out. subst out.
  destruct (ChatbotWidget.getSessionId access random s) as [s1 [id|error]] eqn:Hget;
    cbn [fst snd].
  - destruct (getSessionId_returns _ _ _ _ _ Hget) as [Hs1 Hid].
    split; [exact Hid|]. intros access' random'. by apply getSessionId_ready.
  - destruct (getSessionId_throws _ _ _ _ _ Hget)
      as (Hvar & [(Hr & -> & ->)|(Hr & Hw & Hitem & -> & ->)]).
    + split; [exact Hvar|]. left. done.
    + split; [exact Hvar|]. right.
      pose proof (generateSessionId_nonempty random) as Hne.
      repeat split; try done.
      intros access' random'. by apply getSessionId_ready.
Qed.

(** ** The widget's call to the proxy, step by step *)

Section WidgetCall.
Import Js ChatbotWidget.
Variable st : state.
Variable storage : nat → storage_access.
Variable random : nat → nat → Z.
Variable net : nat → fetch_outcome.
Variable message : string.

Local Abbreviation call := (callAI st storage random net message).

(** The [try] block and what the [catch] block does with its error. *)
Lemma callAI_catch k s :
  call k s =
    let '(s1, sent, outcome) := try_block st storage random net message k s in
    match outcome with
    | Return response => (s1, sent, Return response)
    | Throw error =>
        if String.eqb (err_name error) "AbortError" then
          (s1, sent, Throw (Error "TIMEOUT"))
        else if err_is_TypeError error && includes (err_message error) "fetch" then
          (s1, sent, Throw (Error "NETWORK_ERROR"))
        else if bool_decide (k < RETRY_ATTEMPTS)%nat &&
                (String.eqb (err_message error) "SERVER_ERROR"
                 || String.eqb (err_message error) "API_ERROR") then
          ((call (k + 1)%nat s1).1.1,
           sent ++ Sleep (1000 * (Z.of_nat k + 1)) :: (call (k + 1)%nat s1).1.2,
           (call (k + 1)%nat s1).2)
        else (s1, sent, Throw error)
    end.
Proof.
  rewrite callAI_equation_1.
  destruct (try_block st storage random net message k s) as [[s1 sent] [response|error]].
  - by rewrite callAI_clause_1_equation_1.
  - rewrite callAI_clause_1_equation_2.
    destruct (String.eqb (err_name error) "AbortError"); [done|].
    destruct (err_is_TypeError error && includes (err_message error) "fetch"); [done|].
    destruct (lt_dec k RETRY_ATTEMPTS) as [Hlt|Hge].
    + rewrite bool_decide_eq_true_2 by done. simpl.
      destruct (String.eqb (err_message error) "SERVER_ERROR"
                || String.eqb (err_message error) "API_ERROR"); [|done].
      by destruct (call (k + 1)%nat s1) as [[s2 effects] result].
    + by rewrite bool_decide_eq_false_2.
Qed.

(** When [getSessionId] throws, no request is made and the error is
    rethrown at once: it is none of the errors that the [catch] block
    renames or retries. *)
Lemma callAI_no_session k s s1 e :
  getSessionId (storage k) (random k) s = (s1, Throw e) →
  call k s = (s1, [], Throw e).
Proof.
  intros H. rewrite callAI_catch. unfold try_block. rewrite H.
  apply getSessionId_throws in H as (_ & [(_ & -> & _)|(_ & _ & _ & -> & _)]);
    simpl; by rewrite andb_false_r.
Qed.

(** The session once [getSessionId] has returned [id]. *)
Variable s1 : session.
Variable id : string.
Hypothesis Hs1 : sessionId s1 = Some id.
Hypothesis Hid : id ≠ "".

Local Abbreviation run k := (callAI st storage random net message k s1).
Local Abbreviation sent := (Fetch (payload id st message)).

Lemma try_block_ready k :
  try_block st storage random net message k s1 = (s1, [sent], attempt (net k)).
Proof. unfold try_block. by rewrite (getSessionId_ready _ _ s1 id Hs1 Hid). Qed.

(** A call that obtains the id goes on as a call made with the id in
    place. *)
Lemma callAI_enter k s :
  getSessionId (storage k) (random k) s = (s1, Return id) → call k s = run k.
Proof.
  intros H. rewrite !callAI_catch, try_block_ready. unfold try_block. by rewrite H.
Qed.

Lemma callAI_session k : (run k).1.1 = s1.
Proof.
  assert (H : ∀ n k, (RETRY_ATTEMPTS - k ≤ n)%nat → (run k).1.1 = s1).
  { clear k. induction n as [|n IH]; intros k Hk;
      rewrite callAI_catch, try_block_ready;
      (destruct (attempt (net k)) as [response|error]; [done|]);
      (destruct (String.eqb (err_name error) "AbortError"); [done|]);
      (destruct (err_is_TypeError error && includes (err_message error) "fetch");
         [done|]).
    - rewrite bool_decide_eq_false_2 by lia. done.
    - destruct (bool_decide (k < RETRY_ATTEMPTS)%nat &&
                (String.eqb (err_message error) "SERVER_ERROR"
                 || String.eqb (err_message error) "API_ERROR")); [|done].
      cbn [fst]. apply IH. lia. }
  by apply (H (RETRY_ATTEMPTS - k)%nat).
Qed.

Lemma callAI_success k response :
  attempt (net k) = Return response → run k = (s1, [sent], Return response).
Proof. intros H. by rewrite callAI_catch, try_block_ready, H. Qed.

(** What the [catch] block does with the error of a failed attempt. *)
Lemma callAI_failure k error :
  attempt (net k) = Throw error →
  run k =
    if String.eqb (err_name error) "AbortError" then (s1, [sent], Throw (Error "TIMEOUT"))
    else if err_is_TypeError error && includes (err_message error) "fetch" then
      (s1, [sent], Throw (Error "NETWORK_ERROR"))
    else if bool_decide (k < RETRY_ATTEMPTS)%nat &&
            (String.eqb (err_message error) "SERVER_ERROR"
             || String.eqb (err_message error) "API_ERROR") then
      (s1, sent :: Sleep (1000 * (Z.of_nat k + 1)) :: (run (k + 1)%nat).1.2,
       (run (k + 1)%nat).2)
    else (s1, [sent], Throw error).
Proof.
  intros H. rewrite callAI_catch, try_block_ready, H.
  by rewrite (callAI_session (k + 1)).
Qed.

(** One step of the call: it ends after this attempt, or it sleeps
    [1000 * (k + 1)] ms and goes on as the call with the next retry
    count. *)
Lemma callAI_step k :
  (∃ result, run k = (s1, [sent], result)) ∨
  ((k < RETRY_ATTEMPTS)%nat ∧
   run k = (s1, sent :: Sleep (1000 * (Z.of_nat k + 1)) :: (run (k + 1)%nat).1.2,
            (run (k + 1)%nat).2)).
Proof.
  destruct (attempt (net k)) as [response|error] eqn:E.
  - left. eexists. by apply callAI_success.
  - rewrite (callAI_failure k error E).
    destruct (String.eqb (err_name error) "AbortError"); [left; by eexists|].
    destruct (err_is_TypeError error && includes (err_message error) "fetch");
      [left; by eexists|].
    destruct (bool_decide (k < RETRY_ATTEMPTS)%nat) eqn:Hk; simpl; [|left; by eexists].
    destruct (String.eqb (err_message error) "SERVER_ERROR"
              || String.eqb (err_message error) "API_ERROR"); [|left; by eexists].
    right. split; [|done]. by apply bool_decide_eq_true_1 in Hk.
Qed.

(** A response with a status from 500 up, other than 504, is a
    [SERVER_ERROR]. *)
Lemma attempt_server_error status json_body :
  500 ≤ status → status ≠ 504 →
  attempt (FetchResponse status json_body) = Throw (Error "SERVER_ERROR").
Proof.
  intros H500 H504. unfold attempt, ok.
  replace (status <=? 299) with false by lia. rewrite andb_false_r. simpl.
  replace (status =? 429) with false by lia.
  replace (status =? 504) with false by lia.
  by replace (status >=? 500) with true by lia.
Qed.

Lemma callAI_server_error_retries k status json_body :
  net k = FetchResponse status json_body → 500 ≤ status → status ≠ 504 →
  (k < RETRY_ATTEMPTS)%nat →
  run k = (s1, sent :: Sleep (1000 * (Z.of_nat k + 1)) :: (run (k + 1)%nat).1.2,
           (run (k + 1)%nat).2).
Proof.
  intros Hnet H500 H504 Hk.
  rewrite (callAI_failure k (Error "SERVER_ERROR"))
    by (rewrite Hnet; by apply attempt_server_error).
  simpl. by rewrite bool_decide_eq_true_2.
Qed.

Lemma callAI_server_error_gives_up k status json_body :
  net k = FetchResponse status json_body → 500 ≤ status → status ≠ 504 →
  (RETRY_ATTEMPTS ≤ k)%nat →
  run k = (s1, [sent], Throw (Error "SERVER_ERROR")).
Proof.
  intros Hnet H500 H504 Hk.
  rewrite (callAI_failure k (Error "SERVER_ERROR"))
    by (rewrite Hnet; by apply attempt_server_error).
  simpl. rewrite bool_decide_eq_false_2; [done|lia].
Qed.

(** The failures that end the call at once. *)
Lemma callAI_abort k e :
  net k = FetchRejects e → err_name e = "AbortError" →
  run k = (s1, [sent], Throw (Error "TIMEOUT")).
Proof.
  intros Hnet Hname. rewrite (callAI_failure k e) by (by rewrite Hnet).
  by rewrite Hname.
Qed.

Lemma callAI_504 k json_body :
  net k = FetchResponse 504 json_body → run k = (s1, [sent], Throw (Error "TIMEOUT")).
Proof.
  intros Hnet. rewrite (callAI_failure k (Error "TIMEOUT")) by (by rewrite Hnet).
  simpl. by rewrite andb_false_r.
Qed.

Lemma callAI_429 k json_body :
  net k = FetchResponse 429 json_body → run k = (s1, [sent], Throw (Error "RATE_LIMIT")).
Proof.
  intros Hnet. rewrite (callAI_failure k (Error "RATE_LIMIT")) by (by rewrite Hnet).
  simpl. by rewrite andb_false_r.
Qed.

Lemma callAI_network_error k e :
  net k = FetchRejects e → err_name e ≠ "AbortError" →
  err_is_TypeError e = true → includes (err_message e) "fetch" = true →
  run k = (s1, [sent], Throw (Error "NETWORK_ERROR")).
Proof.
  intros Hnet Hname Htype Hfetch. rewrite (callAI_failure k e) by (by rewrite Hnet).
  replace (String.eqb (err_name e) "AbortError") with false
    by (symmetry; by apply String.eqb_neq).
  by rewrite Htype, Hfetch.
Qed.

End WidgetCall.

(** X27.  The retry policy of [callAI], for a call whose first attempt
    obtains the session id [id].  The call makes one request and at
    most two more, all with the same body, and before retry k
    (k = 1, 2) it waits 1000·k ms: its effects are one of [fetch],
    [fetch; wait 1000; fetch] and
    [fetch; wait 1000; fetch; wait 2000; fetch].  Given three
    consecutive responses with a status of 500 or more other than 504,
    it makes exactly three requests and then fails with SERVER_ERROR.
    An attempt that fails as TIMEOUT (abort, or HTTP 504), RATE_LIMIT
    (HTTP 429) or NETWORK_ERROR is never followed by a retry, at any
    retry count. *)
Theorem widget_call_retry_policy
    (st : ChatbotWidget.state) (storage : nat → ChatbotWidget.storage_access)
    (random : nat → nat → Z) (net : nat → ChatbotWidget.fetch_outcome)
    (message : string) (s s1 : ChatbotWidget.session) (id : string) :
  ChatbotWidget.getSessionId (storage 0%nat) (random 0%nat) s = (s1, Js.Return id) →
  let call := ChatbotWidget.callAI st storage random net message in
  let sent := ChatbotWidget.Fetch (ChatbotWidget.payload id st message) in
  let wait := ChatbotWidget.Sleep in
  call 0%nat s = call 0%nat s1
  ∧ (call 0%nat s).1.1 = s1
  ∧ ((call 0%nat s).1.2 = [sent]
     ∨ (call 0%nat s).1.2 = [sent; wait 1000; sent]
     ∨ (call 0%nat s).1.2 = [sent; wait 1000; sent; wait 2000; sent])
  ∧ ((∀ k, (k < 3)%nat →
        ∃ status json_body,
          net k = ChatbotWidget.FetchResponse status json_body
          ∧ 500 ≤ status ∧ status ≠ 504) →
     call 0%nat s = (s1, [sent; wait 1000; sent; wait 2000; sent],
                     Js.Throw (Js.Error "SERVER_ERROR")))
  ∧ (∀ k e, net k = ChatbotWidget.FetchRejects e →
       Js.err_name e = "AbortError" →
       call k s1 = (s1, [sent], Js.Throw (Js.Error "TIMEOUT")))
  ∧ (∀ k json_body, net k = ChatbotWidget.FetchResponse 504 json_body →
       call k s1 = (s1, [sent], Js.Throw (Js.Error "TIMEOUT")))
  ∧ (∀ k json_body, net k = ChatbotWidget.FetchResponse 429 json_body →
       call k s1 = (s1, [sent], Js.Throw (Js.Error "RATE_LIMIT")))
  ∧ (∀ k e, net k = ChatbotWidget.FetchRejects e →
       Js.err_name e ≠ "AbortError" →
       Js.err_is_TypeError e = true →
       Js.includes (Js.err_message e) "fetch" = true →
       call k s1 = (s1, [sent], Js.Throw (Js.Error "NETWORK_ERROR"))).
Proof.
  intros Hget call sent wait. subst call sent wait.
  destruct (getSessionId_returns _ _ _ _ _ Hget) as [Hs1 Hid].
  pose proof (callAI_enter st storage random net message s1 id Hs1 Hid 0 s Hget) as Henter.
  split; [exact Henter|]. rewrite Henter.
  split; [by apply callAI_session with id|].
  split; [|split; [|split; [|split; [|split]]]].
  - destruct (callAI_step st storage random net message s1 id Hs1 Hid 0)
      as [[r0 H0]|[_ H0]]; rewrite H0; [by left|]. right.
    destruct (callAI_step st storage random net message s1 id Hs1 Hid 1)
      as [[r1 H1]|[_ H1]]; simpl; rewrite H1; [by left|]. right.
    destruct (callAI_step st storage random net message s1 id Hs1 Hid 2)
      as [[r2 H2]|[Hlt _]]; [simpl; by rewrite H2|].
    unfold ChatbotWidget.RETRY_ATTEMPTS in Hlt. lia.
  - intros Hnet.
    destruct (Hnet 0%nat ltac:(lia)) as (c0 & b0 & E0 & Hs0 & Hn0).
    destruct (Hnet 1%nat ltac:(lia)) as (c1 & b1 & E1 & Hc1 & Hn1).
    destruct (Hnet 2%nat ltac:(lia)) as (c2 & b2 & E2 & Hc2 & Hn2).
    rewrite (callAI_server_error_retries st storage random net message s1 id Hs1 Hid
               0 c0 b0 E0 Hs0 Hn0)
      by (unfold ChatbotWidget.RETRY_ATTEMPTS; lia).
    simpl.
    rewrite (callAI_server_error_retries st storage random net message s1 id Hs1 Hid
               1 c1 b1 E1 Hc1 Hn1)
      by (unfold ChatbotWidget.RETRY_ATTEMPTS; lia).
    simpl.
    rewrite (callAI_server_error_gives_up st storage random net message s1 id Hs1 Hid
               2 c2 b2 E2 Hc2 Hn2)
      by (unfold ChatbotWidget.RETRY_ATTEMPTS; lia).
    reflexivity.
  - intros k e. by apply callAI_abort.
  - intros k b. by apply callAI_504.
  - intros k b. by apply callAI_429.
  - intros k e. by apply callAI_network_error.
Qed.

(** X27 on a first call, with a proxy that answers 500 three times, and
    with one whose first answer never arrives before the 30 s timer
    fires. *)
Lemma widget_call_retry_policy_witness :
  let st := {| ChatbotWidget.messageHistory := []; ChatbotWidget.chatbot_history := None |} in
  let storage := fun _ : nat =>
    {| ChatbotWidget.can_read := true; ChatbotWidget.can_write := true |} in
  let random := fun _ _ : nat => 7 in
  let id := "77777777-7777-4777-b777-777777777777" in
  let s := {| ChatbotWidget.sessionId := None; ChatbotWidget.chatbot_session_id := None |} in
  let s1 := {| ChatbotWidget.sessionId := Some id;
               ChatbotWidget.chatbot_session_id := Some id |} in
  let sent := ChatbotWidget.Fetch (ChatbotWidget.payload id st "hello") in
  let down := fun _ : nat => ChatbotWidget.FetchResponse 500 (Js.Return (Js.JObj [])) in
  let slow := fun _ : nat => ChatbotWidget.FetchRejects Js.AbortError in
  ChatbotWidget.callAI st storage random down "hello" 0 s
    = (s1, [sent; ChatbotWidget.Sleep 1000; sent; ChatbotWidget.Sleep 2000; sent],
       Js.Throw (Js.Error "SERVER_ERROR"))
  ∧ ChatbotWidget.callAI st storage random slow "hello" 0 s1
    = (s1, [sent], Js.Throw (Js.Error "TIMEOUT")).
Proof.
  intros st storage random id s s1 sent down slow.
  assert (Hget : ChatbotWidget.getSessionId (storage 0%nat) (random 0%nat) s
                 = (s1, Js.Return id)) by (vm_compute; reflexivity).
  split.
  - apply (proj1 (proj2 (proj2 (proj2
             (widget_call_retry_policy st storage random down "hello" s s1 id Hget))))).
    intros k _. exists 500, (Js.Return (Js.JObj [])).
    split; [reflexivity|]. split; [vm_compute; discriminate | discriminate].
  - apply (proj1 (proj2 (proj2 (proj2 (proj2
             (widget_call_retry_policy st storage random slow "hello" s s1 id Hget)))))
             0%nat Js.AbortError); reflexivity.
Defined.

(** ** Further properties of the widget's call to the proxy *)

Section WidgetCallMore.
Import Js ChatbotWidget.
Variable st : state.
Variable storage : nat → storage_access.
Variable random : nat → nat → Z.
Variable net : nat → fetch_outcome.
Variable message : string.
Variable s1 : session.
Variable id : string.
Hypothesis Hs1 : sessionId s1 = Some id.
Hypothesis Hid : id ≠ "".

Local Abbreviation call := (callAI st storage random net message).
Local Abbreviation run k := (callAI st storage random net message k s1).
Local Abbreviation sent := (Fetch (payload id st message)).

(** An attempt succeeds only on a reply with a status from 200 to 299
    whose JSON body holds a non-empty string under [response]. *)
Lemma attempt_returns o response :
  attempt o = Return response ↔
  ∃ status data,
    o = FetchResponse status (Return data) ∧ 200 ≤ status ≤ 299
    ∧ get data "response" = Return (Some (JStr response)) ∧ response ≠ "".
Proof.
  split.
  - destruct o as [e|status [data|e]]; simpl; [discriminate| |].
    + unfold ok. destruct ((200 <=? status) && (status <=? 299)) eqn:Hok; simpl.
      * intros H. exists status, data.
        destruct (get data "response") as [[[| | |s| |]|]|e] eqn:Hget;
          cbn [mbind completion_bind bind truthy is_string negb orb] in H;
          try discriminate; try (destruct b; discriminate);
          try (destruct (negb (n =? 0)); discriminate).
        destruct (String.eqb s "") eqn:Hs; simpl in H; [discriminate|].
        injection H as <-. apply String.eqb_neq in Hs.
        apply andb_true_iff in Hok as [H1 H2]. repeat split; try done; lia.
      * destruct (status =? 429); [discriminate|]. destruct (status =? 504); [discriminate|].
        destruct (status >=? 500); discriminate.
    + unfold ok. destruct ((200 <=? status) && (status <=? 299)); simpl; [discriminate|].
      destruct (status =? 429); [discriminate|]. destruct (status =? 504); [discriminate|].
      destruct (status >=? 500); discriminate.
  - intros (status & data & -> & Hs & Hget & Hne). simpl. unfold ok.
    replace ((200 <=? status) && (status <=? 299)) with true
      by (symmetry; apply andb_true_iff; lia).
    simpl. rewrite Hget. cbn [mbind completion_bind bind truthy is_string negb orb].
    apply String.eqb_neq in Hne. by rewrite Hne.
Qed.

(** A reply whose status is outside 200..299 and is neither 429 nor
    504 fails as [SERVER_ERROR] or [API_ERROR]. *)
Lemma attempt_http_error status json_body :
  ¬ (200 ≤ status ≤ 299) → status ≠ 429 → status ≠ 504 →
  attempt (FetchResponse status json_body)
    = Throw (Error (if 500 <=? status then "SERVER_ERROR" else "API_ERROR")).
Proof.
  intros Hok H429 H504. simpl. unfold ok.
  replace ((200 <=? status) && (status <=? 299)) with false
    by (symmetry; apply andb_false_iff; lia).
  simpl. replace (status =? 429) with false by lia.
  replace (status =? 504) with false by lia.
  destruct (Z.leb_spec 500 status).
  - by replace (status >=? 500) with true by lia.
  - by replace (status >=? 500) with false by lia.
Qed.

Lemma callAI_http_error_retries k status json_body :
  net k = FetchResponse status json_body →
  ¬ (200 ≤ status ≤ 299) → status ≠ 429 → status ≠ 504 →
  (k < RETRY_ATTEMPTS)%nat →
  run k = (s1, sent :: Sleep (1000 * (Z.of_nat k + 1)) :: (run (k + 1)%nat).1.2,
           (run (k + 1)%nat).2).
Proof.
  intros Hnet Hok H429 H504 Hk.
  rewrite (callAI_failure st storage random net message s1 id Hs1 Hid k _
             ltac:(rewrite Hnet; by apply attempt_http_error)).
  rewrite bool_decide_eq_true_2 by done.
  by destruct (500 <=? status).
Qed.

Lemma callAI_http_error_gives_up k status json_body :
  net k = FetchResponse status json_body →
  ¬ (200 ≤ status ≤ 299) → status ≠ 429 → status ≠ 504 →
  (RETRY_ATTEMPTS ≤ k)%nat →
  run k = (s1, [sent],
           Throw (Error (if 500 <=? status then "SERVER_ERROR" else "API_ERROR"))).
Proof.
  intros Hnet Hok H429 H504 Hk.
  rewrite (callAI_failure st storage random net message s1 id Hs1 Hid k _
             ltac:(rewrite Hnet; by apply attempt_http_error)).
  rewrite bool_decide_eq_false_2 by lia.
  by destruct (500 <=? status).
Qed.

(** A call that resolves does so at this attempt, or after this
    attempt failed as [SERVER_ERROR] or [API_ERROR] and the next call
    resolved. *)
Lemma callAI_returns_step k s' effects response :
  run k = (s', effects, Return response) →
  (attempt (net k) = Return response ∧ effects = [sent])
  ∨ ((k < RETRY_ATTEMPTS)%nat
     ∧ (∃ e, attempt (net k) = Throw e
          ∧ (err_message e = "SERVER_ERROR" ∨ err_message e = "API_ERROR"))
     ∧ ∃ effects', run (k + 1)%nat = (s1, effects', Return response)
         ∧ effects = sent :: Sleep (1000 * (Z.of_nat k + 1)) :: effects').
Proof.
  pose proof (callAI_session st storage random net message s1 id Hs1 Hid (k + 1)) as Hnext.
  destruct (attempt (net k)) as [r|e] eqn:E.
  - rewrite (callAI_success st storage random net message s1 id Hs1 Hid k r E).
    intros [= <- <- <-]. by left.
  - rewrite (callAI_failure st storage random net message s1 id Hs1 Hid k e E).
    destruct (String.eqb (err_name e) "AbortError"); [discriminate|].
    destruct (err_is_TypeError e && includes (err_message e) "fetch"); [discriminate|].
    destruct (bool_decide (k < RETRY_ATTEMPTS)%nat) eqn:Hk; simpl; [|discriminate].
    apply bool_decide_eq_true_1 in Hk.
    destruct (String.eqb (err_message e) "SERVER_ERROR") eqn:E1; simpl.
    + intros [= <- <- Hr]. right. split; [done|]. split.
      * exists e. split; [done|]. left. by apply String.eqb_eq.
      * exists (run (k + 1)%nat).1.2. split; [|done].
        by destruct (run (k + 1)%nat) as [[? ?] ?]; simpl in *; subst.
    + destruct (String.eqb (err_message e) "API_ERROR") eqn:E2; [|discriminate].
      intros [= <- <- Hr]. right. split; [done|]. split.
      * exists e. split; [done|]. right. by apply String.eqb_eq.
      * exists (run (k + 1)%nat).1.2. split; [|done].
        by destruct (run (k + 1)%nat) as [[? ?] ?]; simpl in *; subst.
Qed.

(** A call that resolves does so at one of its three attempts, after
    failures that it retried. *)
Lemma callAI_returns s' effects response :
  run 0%nat = (s', effects, Return response) →
  ∃ k : nat,
    (k ≤ 2)%nat
    ∧ attempt (net k) = Return response
    ∧ (∀ j, (j < k)%nat →
         ∃ e, attempt (net j) = Throw e
              ∧ (err_message e = "SERVER_ERROR" ∨ err_message e = "API_ERROR"))
    ∧ effects =
        flat_map (fun j : nat => [sent; Sleep (1000 * (Z.of_nat j + 1))]) (seq 0 k)
        ++ [sent].
Proof.
  intros H.
  destruct (callAI_returns_step 0 _ _ _ H) as [[H0 ->]|(_ & F0 & effects1 & H1 & ->)].
  { exists 0%nat. split; [lia|]. split; [done|]. split; [intros j Hj; lia|done]. }
  destruct (callAI_returns_step 1 _ _ _ H1) as [[H1' ->]|(_ & F1 & effects2 & H2 & ->)].
  { exists 1%nat. split; [lia|]. split; [done|]. split; [|done].
    intros j Hj. assert (j = 0)%nat as -> by lia. exact F0. }
  destruct (callAI_returns_step 2 _ _ _ H2) as [[H2' ->]|(Hlt & _)].
  2:{ unfold RETRY_ATTEMPTS in Hlt. lia. }
  exists 2%nat. split; [lia|]. split; [done|]. split; [|done].
  intros j Hj. destruct j as [|[|j]]; [exact F0|exact F1|lia].
Qed.

End WidgetCallMore.

Section WidgetCallResolves.
Import Js ChatbotWidget.
Variable st : state.
Variable storage : nat → storage_access.
Variable random : nat → nat → Z.
Variable net : nat → fetch_outcome.
Variable message : string.

Local Abbreviation call := (callAI st storage random net message).

(** A call resolves only when its first attempt obtains the session
    id; it then resolves at one of its three attempts, and every
    request it made carries that id. *)
Lemma callAI_resolves s s' effects response :
  call 0%nat s = (s', effects, Return response) →
  ∃ (k : nat) id,
    getSessionId (storage 0%nat) (random 0%nat) s = (s', Return id)
    ∧ id ≠ ""
    ∧ (k ≤ 2)%nat
    ∧ attempt (net k) = Return response
    ∧ (∀ j, (j < k)%nat →
         ∃ e, attempt (net j) = Throw e
              ∧ (err_message e = "SERVER_ERROR" ∨ err_message e = "API_ERROR"))
    ∧ effects =
        flat_map (fun j : nat =>
                    [Fetch (payload id st message); Sleep (1000 * (Z.of_nat j + 1))])
                 (seq 0 k)
        ++ [Fetch (payload id st message)].
Proof.
  intros H.
  destruct (getSessionId (storage 0%nat) (random 0%nat) s) as [s1 [id|e]] eqn:Hget.
  2:{ rewrite (callAI_no_session st storage random net message 0 s s1 e Hget) in H.
      discriminate. }
  destruct (getSessionId_returns _ _ _ _ _ Hget) as [Hs1 Hid].
  rewrite (callAI_enter st storage random net message s1 id Hs1 Hid 0 s Hget) in H.
  pose proof (callAI_session st storage random net message s1 id Hs1 Hid 0) as Hsession.
  rewrite H in Hsession. simpl in Hsession. subst s'.
  destruct (callAI_returns st storage random net message s1 id Hs1 Hid _ _ _ H)
    as (k & Hk & Hattempt & Hbefore & Heffects).
  exists k, id. done.
Qed.

(** The value of a call that resolves is not the empty string. *)
Lemma callAI_returns_nonempty s s' effects response :
  call 0%nat s = (s', effects, Return response) → response ≠ "".
Proof.
  intros H. destruct (callAI_resolves _ _ _ _ H) as (k & id & _ & _ & _ & Hk & _).
  apply attempt_returns in Hk as (? & ? & _ & _ & _ & Hne). exact Hne.
Qed.

(** Every request of a call has the message and the history of the
    conversation as its body. *)
Lemma callAI_requests k s :
  Forall (fun eff => match eff with
                     | Fetch req => ∃ id, req = payload id st message
                     | Sleep _ => True
                     end)
         (call k s).1.2.
Proof.
  assert (H : ∀ n k s, (RETRY_ATTEMPTS - k ≤ n)%nat →
            Forall (fun eff => match eff with
                               | Fetch req => ∃ id, req = payload id st message
                               | Sleep _ => True
                               end)
                   (call k s).1.2).
  { clear k s. induction n as [|n IH]; intros k s Hk;
      rewrite callAI_catch; unfold try_block;
      (destruct (getSessionId (storage k) (random k) s) as [s1 [id|e]];
         [assert (Hsent : Forall (fun eff => match eff with
                               | Fetch req => ∃ id, req = payload id st message
                               | Sleep _ => True
                               end) [Fetch (payload id st message)])
            by (apply Forall_singleton; by exists id)
         |assert (Hsent : Forall (fun eff => match eff with
                               | Fetch req => ∃ id, req = payload id st message
                               | Sleep _ => True
                               end) (@nil effect)) by apply Forall_nil_2]).
    all: try (destruct (attempt (net k)) as [response|e]; [done|]).
    all: (destruct (String.eqb (err_name e) "AbortError"); [done|]);
         (destruct (err_is_TypeError e && includes (err_message e) "fetch"); [done|]).
    1,2: rewrite bool_decide_eq_false_2 by lia; done.
    all: (destruct (bool_decide (k < RETRY_ATTEMPTS)%nat &&
                    (String.eqb (err_message e) "SERVER_ERROR"
                     || String.eqb (err_message e) "API_ERROR")); [|done]);
         cbn [fst snd]; apply Forall_app; (split; [done|]);
         apply Forall_cons; (split; [done|]); apply IH; lia. }
  by apply (H (RETRY_ATTEMPTS - k)%nat).
Qed.

End WidgetCallResolves.

(** X18.  When [callAI] resolves, its value is the non-empty string
    under [response] in the JSON body of a reply with a status from 200
    to 299, received at the first, second or third attempt; every
    attempt before that one failed as SERVER_ERROR or API_ERROR; and
    the call made one [fetch] for each attempt up to that one and no
    other.  The first attempt obtained the session id, which is not
    empty, and every request carries it. *)
Theorem widget_call_resolves_with_reply_text
    (st : ChatbotWidget.state) (storage : nat → ChatbotWidget.storage_access)
    (random : nat → nat → Z) (net : nat → ChatbotWidget.fetch_outcome)
    (message : string) (s s' : ChatbotWidget.session)
    (effects : list ChatbotWidget.effect) (response : string) :
  ChatbotWidget.callAI st storage random net message 0 s
    = (s', effects, Js.Return response) →
  response ≠ ""
  ∧ ∃ (k : nat) status data sessionId,
      (k ≤ 2)%nat
      ∧ net k = ChatbotWidget.FetchResponse status (Js.Return data)
      ∧ 200 ≤ status ≤ 299
      ∧ Js.get data "response" = Js.Return (Some (Js.JStr response))
      ∧ (∀ j, (j < k)%nat →
           ∃ e, ChatbotWidget.attempt (net j) = Js.Throw e
                ∧ (Js.err_message e = "SERVER_ERROR" ∨ Js.err_message e = "API_ERROR"))
      ∧ ChatbotWidget.getSessionId (storage 0%nat) (random 0%nat) s
        = (s', Js.Return sessionId)
      ∧ sessionId ≠ ""
      ∧ effects =
          flat_map (fun j : nat =>
                      [ChatbotWidget.Fetch (ChatbotWidget.payload sessionId st message);
                       ChatbotWidget.Sleep (1000 * (Z.of_nat j + 1))])
                   (seq 0 k)
          ++ [ChatbotWidget.Fetch (ChatbotWidget.payload sessionId st message)].
Proof.
  intros H.
  destruct (callAI_resolves st storage random net message s s' effects response H)
    as (k & id & Hget & Hid & Hk & Hattempt & Hbefore & Hcount).
  apply attempt_returns in Hattempt as (status & data & Hnet & Hs & Hget' & Hne).
  split; [exact Hne|]. exists k, status, data, id. repeat split; try done; lia.
Qed.

(** X18 on a first call, with a proxy that answers 503 once and then
    replies. *)
Lemma widget_call_resolves_with_reply_text_witness :
  let st := {| ChatbotWidget.messageHistory := []; ChatbotWidget.chatbot_history := None |} in
  let storage := fun _ : nat =>
    {| ChatbotWidget.can_read := true; ChatbotWidget.can_write := true |} in
  let random := fun _ _ : nat => 7 in
  let id := "77777777-7777-4777-b777-777777777777" in
  let s := {| ChatbotWidget.sessionId := None; ChatbotWidget.chatbot_session_id := None |} in
  let s1 := {| ChatbotWidget.sessionId := Some id;
               ChatbotWidget.chatbot_session_id := Some id |} in
  let net := fun k : nat =>
    match k with
    | O => ChatbotWidget.FetchResponse 503 (Js.Return (Js.JObj []))
    | _ => ChatbotWidget.FetchResponse 200
             (Js.Return (Js.JObj [("response", Js.JStr "Hello!")]))
    end in
  let sent := ChatbotWidget.Fetch (ChatbotWidget.payload id st "hello") in
  ChatbotWidget.callAI st storage random net "hello" 0 s
    = (s1, [sent; ChatbotWidget.Sleep 1000; sent], Js.Return "Hello!")
  ∧ ∃ (k : nat) status data,
      net k = ChatbotWidget.FetchResponse status (Js.Return data)
      ∧ Js.get data "response" = Js.Return (Some (Js.JStr "Hello!")).
Proof.
  intros st storage random id s s1 net sent.
  assert (H : ChatbotWidget.callAI st storage random net "hello" 0 s
              = (s1, [sent; ChatbotWidget.Sleep 1000; sent], Js.Return "Hello!"))
    by (vm_compute; reflexivity).
  split; [exact H|].
  destruct (widget_call_resolves_with_reply_text st storage random net "hello" s s1
              _ "Hello!" H)
    as (_ & k & status & data & sessionId & _ & Hnet & _ & Hget & _).
  exists k, status, data. split; [exact Hnet|exact Hget].
Defined.

(** X19.  [callAI] retries after every reply whose status is outside
    200..299 and is neither 429 nor 504, a status below 500 included:
    when the first attempt obtains the session id, the first [k <= 2]
    attempts get such replies and the next one succeeds, the call
    resolves with that reply's text after [k + 1] fetches and waits of
    1000, ..., 1000·k ms.  A request that is answered three times with
    a status from 400 to 499 other than 429 is thus sent three times
    before the call fails with API_ERROR, for which the user is shown
    the default message. *)
Theorem widget_call_retries_other_http_errors
    (st : ChatbotWidget.state) (storage : nat → ChatbotWidget.storage_access)
    (random : nat → nat → Z) (net : nat → ChatbotWidget.fetch_outcome)
    (message : string) (s s1 : ChatbotWidget.session) (sessionId : string) :
  ChatbotWidget.getSessionId (storage 0%nat) (random 0%nat) s
    = (s1, Js.Return sessionId) →
  let run := ChatbotWidget.callAI st storage random net message in
  let sent := ChatbotWidget.Fetch (ChatbotWidget.payload sessionId st message) in
  let attempts (k : nat) :=
    flat_map (fun j : nat => [sent; ChatbotWidget.Sleep (1000 * (Z.of_nat j + 1))]) (seq 0 k)
    ++ [sent] in
  (∀ (k : nat) response,
     (k ≤ 2)%nat →
     (∀ j, (j < k)%nat →
        ∃ status json_body,
          net j = ChatbotWidget.FetchResponse status json_body
          ∧ ¬ (200 ≤ status ≤ 299) ∧ status ≠ 429 ∧ status ≠ 504) →
     ChatbotWidget.attempt (net k) = Js.Return response →
     run 0%nat s = (s1, attempts k, Js.Return response))
  ∧ ((∀ j, (j < 3)%nat →
        ∃ status json_body,
          net j = ChatbotWidget.FetchResponse status json_body
          ∧ 400 ≤ status ≤ 499 ∧ status ≠ 429) →
     run 0%nat s = (s1, attempts 2%nat, Js.Throw (Js.Error "API_ERROR"))
     ∧ ChatbotWidget.getErrorMessage (Js.Error "API_ERROR")
       = ChatbotWidget.localize ChatbotWidget.errorMessages_default
           ChatbotWidget.getCurrentLanguage).
Proof.
  intros Hget run sent attempts. subst run sent attempts.
  destruct (getSessionId_returns _ _ _ _ _ Hget) as [Hs1 Hid].
  rewrite (callAI_enter st storage random net message s1 sessionId Hs1 Hid 0 s Hget).
  split.
  - intros k response Hk Hfail Hok.
    assert (Hretry : ∀ j, (j < k)%nat →
              ChatbotWidget.callAI st storage random net message j s1 =
                (s1,
                 ChatbotWidget.Fetch (ChatbotWidget.payload sessionId st message)
                   :: ChatbotWidget.Sleep (1000 * (Z.of_nat j + 1))
                   :: (ChatbotWidget.callAI st storage random net message (j + 1) s1).1.2,
                 (ChatbotWidget.callAI st storage random net message (j + 1) s1).2)).
    { intros j Hj. destruct (Hfail j Hj) as (c & b & Hnet & Hc & H429 & H504).
      apply (callAI_http_error_retries st storage random net message s1 sessionId
               Hs1 Hid j c b); try done.
      unfold ChatbotWidget.RETRY_ATTEMPTS. lia. }
    pose proof (callAI_success st storage random net message s1 sessionId Hs1 Hid
                  k response Hok) as Hlast.
    destruct k as [|[|[|k]]]; [| | |lia].
    + exact Hlast.
    + rewrite (Hretry 0%nat) by lia. simpl. by rewrite Hlast.
    + rewrite (Hretry 0%nat) by lia. simpl.
      rewrite (Hretry 1%nat) by lia. simpl. by rewrite Hlast.
  - intros Hfail. split; [|reflexivity].
    destruct (Hfail 0%nat ltac:(lia)) as (c0 & b0 & E0 & Hc0 & Hn0).
    destruct (Hfail 1%nat ltac:(lia)) as (c1 & b1 & E1 & Hc1 & Hn1).
    destruct (Hfail 2%nat ltac:(lia)) as (c2 & b2 & E2 & Hc2 & Hn2).
    rewrite (callAI_http_error_retries st storage random net message s1 sessionId
               Hs1 Hid 0 c0 b0 E0)
      by (unfold ChatbotWidget.RETRY_ATTEMPTS; lia).
    simpl.
    rewrite (callAI_http_error_retries st storage random net message s1 sessionId
               Hs1 Hid 1 c1 b1 E1)
      by (unfold ChatbotWidget.RETRY_ATTEMPTS; lia).
    simpl.
    rewrite (callAI_http_error_gives_up st storage random net message s1 sessionId
               Hs1 Hid 2 c2 b2 E2)
      by (unfold ChatbotWidget.RETRY_ATTEMPTS; lia).
    simpl. replace (500 <=? c2) with false by lia. reflexivity.
Qed.

(** X19 on a first call, with a proxy that rejects the request with
    status 400 each time. *)
Lemma widget_call_retries_other_http_errors_witness :
  let st := {| ChatbotWidget.messageHistory := []; ChatbotWidget.chatbot_history := None |} in
  let storage := fun _ : nat =>
    {| ChatbotWidget.can_read := true; ChatbotWidget.can_write := true |} in
  let random := fun _ _ : nat => 7 in
  let id := "77777777-7777-4777-b777-777777777777" in
  let s := {| ChatbotWidget.sessionId := None; ChatbotWidget.chatbot_session_id := None |} in
  let s1 := {| ChatbotWidget.sessionId := Some id;
               ChatbotWidget.chatbot_session_id := Some id |} in
  let net := fun _ : nat =>
    ChatbotWidget.FetchResponse 400
      (Js.Return (Js.JObj [("error", Js.JStr "validation_error")])) in
  let sent := ChatbotWidget.Fetch (ChatbotWidget.payload id st "hello") in
  ChatbotWidget.callAI st storage random net "hello" 0 s
    = (s1, [sent; ChatbotWidget.Sleep 1000; sent; ChatbotWidget.Sleep 2000; sent],
       Js.Throw (Js.Error "API_ERROR")).
Proof.
  intros st storage random id s s1 net sent.
  assert (Hget : ChatbotWidget.getSessionId (storage 0%nat) (random 0%nat) s
                 = (s1, Js.Return id)) by (vm_compute; reflexivity).
  apply (proj2 (widget_call_retries_other_http_errors st storage random net "hello"
                  s s1 id Hget)).
  intros j _. exists 400, (Js.Return (Js.JObj [("error", Js.JStr "validation_error")])).
  split; [reflexivity|]. split; [lia|discriminate].
Defined.

(** ** Sending a message *)

Section WidgetSend.
Import Js ChatbotWidget.

Lemma addMessage_normal_history writable now t u st :
  messageHistory (addMessage writable now t u normal st)
    = messageHistory st ++ [{| text := t; isUser := u; timestamp := now |}].
Proof. unfold addMessage. by rewrite storeConversation_history. Qed.

Lemma addMessage_normal_stored now t u st :
  chatbot_history (addMessage true now t u normal st)
    = Some (slice_last 50 (messageHistory (addMessage true now t u normal st))).
Proof. unfold addMessage. by rewrite storeConversation_stored, storeConversation_history. Qed.

Lemma getErrorMessage_nonempty error : getErrorMessage error ≠ "".
Proof.
  unfold getErrorMessage.
  destruct (String.eqb (err_message error) "RATE_LIMIT"); [discriminate|].
  destruct (String.eqb (err_message error) "TIMEOUT"); [discriminate|].
  destruct (String.eqb (err_message error) "NETWORK_ERROR"); [discriminate|].
  destruct (String.eqb (err_message error) "SERVER_ERROR"); discriminate.
Qed.

Lemma slice_last_snoc {A} n (l : list A) x :
  slice_last (S n) (l ++ [x]) = slice_last n l ++ [x].
Proof.
  unfold slice_last. rewrite length_app. simpl.
  replace (length l + 1 - S n)%nat with (length l - n)%nat by lia.
  rewrite drop_app_le by lia. done.
Qed.

(** The four ways [sendMessage] goes before [callAI]. *)
Lemma sendMessage_start_cases USE_AI writable_local writable_session
    now now_user now_bot w t :
  let out := sendMessage_start USE_AI writable_local writable_session
               now now_user now_bot w t in
  let check := checkRateLimit writable_local now (rate_limit_item w) in
  ((trim t = "" ∨ isProcessing w = true) ∧ out = (w, [], false))
  ∨ (trim t ≠ "" ∧ isProcessing w = false ∧ (MAX_MESSAGE_LENGTH < strlen t)%nat
     ∧ out = (w, [Alert (localize errorMessages_invalidMessage getCurrentLanguage)], false))
  ∨ (trim t ≠ "" ∧ isProcessing w = false ∧ (strlen t ≤ MAX_MESSAGE_LENGTH)%nat
     ∧ ∃ reason retryAfter,
         check.2 = Denied reason retryAfter
         ∧ out = (w, [AddMessage reason false warning], false))
  ∨ (trim t ≠ "" ∧ isProcessing w = false ∧ (strlen t ≤ MAX_MESSAGE_LENGTH)%nat
     ∧ check.2 = Allowed
     ∧ let w1 := {| conversation :=
                      addMessage writable_session now_user t true normal (conversation w);
                    isProcessing := true;
                    rate_limit_item := check.1 |} in
       out = if USE_AI then (w1, [AddMessage t true normal], true)
             else ((answer writable_session now_bot
                      (localize fallbackResponses_services getCurrentLanguage) w1).1,
                   [AddMessage t true normal;
                    AddMessage (localize fallbackResponses_services getCurrentLanguage)
                      false normal],
                   false)).
Proof.
  intros out check. subst out check. unfold sendMessage_start.
  destruct (String.eqb_spec (trim t) "") as [Hblank|Hblank]; simpl.
  { left. split; [by left|done]. }
  destruct (isProcessing w) eqn:Hbusy; simpl.
  { left. split; [by right|done]. }
  destruct (Nat.ltb_spec MAX_MESSAGE_LENGTH (strlen t)) as [Hlong|Hlen].
  { right. left. done. }
  pose proof (checkRateLimit_denied_keeps_item writable_local now (rate_limit_item w))
    as Hkeep.
  destruct (checkRateLimit writable_local now (rate_limit_item w))
    as [item [|reason retryAfter]]; simpl in *.
  - right. right. right. by repeat split.
  - right. right. left. repeat split; try done. exists reason, retryAfter.
    split; [done|]. rewrite (Hkeep eq_refl). destruct w. simpl in *. by subst.
Qed.

End WidgetSend.

(** X20.  [sendMessage] calls the proxy only for a message that is not
    blank, has at most 450 characters, arrives while no other message
    is being processed and is allowed by the widget's rate limiter,
    and only when AI is enabled; it then sets [isProcessing].  For a
    message that fails one of the four checks nothing changes: not the
    history, not the stored conversation, not the limiter's record and
    not [isProcessing]. *)
Theorem widget_send_calls_proxy_only_when_admitted
    (USE_AI writable_local writable_session : bool) (now now_user now_bot : Z)
    (w : ChatbotWidget.widget) (text : string) :
  let out := ChatbotWidget.sendMessage_start USE_AI writable_local writable_session
               now now_user now_bot w text in
  let admitted :=
    Js.trim text ≠ "" ∧ ChatbotWidget.isProcessing w = false
    ∧ (Js.strlen text ≤ 450)%nat
    ∧ ChatbotWidget.allowed
        (ChatbotWidget.checkRateLimit writable_local now
           (ChatbotWidget.rate_limit_item w)).2 = true in
  (out.2 = true ↔ USE_AI = true ∧ admitted)
  ∧ (out.2 = true → ChatbotWidget.isProcessing out.1.1 = true)
  ∧ (¬ admitted → out.1.1 = w ∧ out.2 = false).
Proof.
  intros out admitted. subst admitted.
  pose proof (sendMessage_start_cases USE_AI writable_local writable_session
                now now_user now_bot w text) as Hcases.
  simpl in Hcases. fold out in Hcases.
  unfold ChatbotWidget.MAX_MESSAGE_LENGTH in Hcases.
  destruct Hcases as [[Hwhy ->]|[(Hb & Hp & Hlen & ->)|[(Hb & Hp & Hlen & r & a & Hd & ->)
                                 |(Hb & Hp & Hlen & Ha & ->)]]]; simpl.
  - split; [|split; [discriminate|done]].
    split; [discriminate|]. intros (_ & Hb & Hp & _). destruct Hwhy; congruence.
  - split; [|split; [discriminate|done]].
    split; [discriminate|]. intros (_ & _ & _ & Hle & _). lia.
  - split; [|split; [discriminate|done]].
    split; [discriminate|]. intros (_ & _ & _ & _ & Hal). rewrite Hd in Hal. discriminate.
  - destruct USE_AI; simpl.
    + split; [|split; [done|]].
      * split; [intros _|done]. rewrite Ha. done.
      * intros Hn. destruct Hn. rewrite Ha. done.
    + split; [|split; [discriminate|]].
      * split; [discriminate|]. by intros [? _].
      * intros Hn. destruct Hn. rewrite Ha. done.
Qed.

(** X20 on a second message typed while the first is being
    processed. *)
Lemma widget_send_calls_proxy_only_when_admitted_witness :
  let w := {| ChatbotWidget.conversation :=
                {| ChatbotWidget.messageHistory := [];
                   ChatbotWidget.chatbot_history := None |};
              ChatbotWidget.isProcessing := false;
              ChatbotWidget.rate_limit_item := ChatbotWidget.NoItem |} in
  let first := ChatbotWidget.sendMessage_start true true true 1000 1001 1002 w "hello" in
  let second :=
    ChatbotWidget.sendMessage_start true true true 2000 2001 2002 first.1.1 "again" in
  first.2 = true ∧ second.1.1 = first.1.1 ∧ second.2 = false.
Proof.
  intros w first second.
  assert (H1 : first.2 = true).
  { apply (proj1 (widget_send_calls_proxy_only_when_admitted
                    true true true 1000 1001 1002 w "hello")).
    split; [reflexivity|]. split; [discriminate|]. split; [reflexivity|].
    split; [vm_compute; lia|vm_compute; reflexivity]. }
  split; [exact H1|].
  apply (proj2 (proj2 (widget_send_calls_proxy_only_when_admitted
                         true true true 2000 2001 2002 first.1.1 "again"))).
  intros (_ & Hbusy & _).
  pose proof (proj1 (proj2 (widget_send_calls_proxy_only_when_admitted
                              true true true 1000 1001 1002 w "hello")) H1) as Hset.
  fold first in Hset. congruence.
Defined.

Section WidgetSendMore.
Import Js ChatbotWidget.

(** The run of [sendMessage] for an admitted message with AI
    enabled. *)
Lemma sendMessage_admitted writable_local writable_session now now_user now_bot
    storage random net s w t :
  trim t ≠ "" → isProcessing w = false → (strlen t ≤ MAX_MESSAGE_LENGTH)%nat →
  (checkRateLimit writable_local now (rate_limit_item w)).2 = Allowed →
  let st1 := addMessage writable_session now_user t true normal (conversation w) in
  let call := callAI st1 storage random net t 0 s in
  let response :=
    match call.2 with Return response => response | Throw error => getErrorMessage error end in
  sendMessage true writable_local writable_session now now_user now_bot
    storage random net s w t
    = (call.1.1,
       {| conversation := addMessage writable_session now_bot response false normal st1;
          isProcessing := false;
          rate_limit_item :=
            (checkRateLimit writable_local now (rate_limit_item w)).1 |},
       [AddMessage t true normal; AddMessage response false normal],
       call.1.2).
Proof.
  intros Hb Hp Hlen Ha st1 call response. subst response call.
  unfold sendMessage, sendMessage_start.
  apply String.eqb_neq in Hb. rewrite Hb, Hp. cbn [orb].
  replace (MAX_MESSAGE_LENGTH <? strlen t)%nat with false
    by (symmetry; apply Nat.ltb_ge; lia).
  destruct (checkRateLimit writable_local now (rate_limit_item w)) as [item r].
  simpl in Ha. subst r. cbv beta iota zeta. cbn [conversation fst snd]. fold st1.
  destruct (callAI st1 storage random net t 0 s) as [[s' effects] result].
  unfold sendMessage_resume, answer. reflexivity.
Qed.

(** The history sent with a request made after [addMessage] ends with
    the message. *)
Lemma payload_history_asked writable now t st id :
  ∃ earlier,
    req_history (payload id (addMessage writable now t true normal st) t)
    = earlier ++ [{| role := "user"; content := t |}].
Proof.
  unfold payload. cbn [req_history]. unfold getHistoryForAPI.
  rewrite addMessage_normal_history. unfold MAX_HISTORY_LENGTH.
  rewrite slice_last_snoc, fmap_app. eexists. reflexivity.
Qed.

(** The errors of [sessionStorage] are shown as the default message. *)
Lemma getErrorMessage_storage access random s s1 error :
  getSessionId access random s = (s1, Throw error) →
  getErrorMessage error = localize errorMessages_default getCurrentLanguage.
Proof.
  intros H.
  by apply getSessionId_throws in H as (_ & [(_ & -> & _)|(_ & _ & _ & -> & _)]).
Qed.

End WidgetSendMore.

(** X21.  For a message that passes its checks, with AI enabled,
    [sendMessage] adds two turns to the history, the user's message
    and then the answer, shows both and clears [isProcessing].  The
    answer is the value of [callAI] when it resolves and the message
    of [getErrorMessage] for its error when it fails.  [callAI] runs
    on the history that already holds the message, so every request
    it makes carries the message and a history that ends with the
    message itself, as a [user] entry.  When [getSessionId] throws at
    the first attempt, because [sessionStorage] cannot be read or
    cannot be written, no request is made at all and the answer is the
    default error message. *)
Theorem widget_send_adds_question_and_answer
    (writable_local writable_session : bool) (now now_user now_bot : Z)
    (storage : nat → ChatbotWidget.storage_access) (random : nat → nat → Z)
    (net : nat → ChatbotWidget.fetch_outcome)
    (s : ChatbotWidget.session) (w : ChatbotWidget.widget) (text : string) :
  Js.trim text ≠ "" →
  ChatbotWidget.isProcessing w = false →
  (Js.strlen text ≤ 450)%nat →
  ChatbotWidget.allowed
    (ChatbotWidget.checkRateLimit writable_local now
       (ChatbotWidget.rate_limit_item w)).2 = true →
  let out := ChatbotWidget.sendMessage true writable_local writable_session
               now now_user now_bot storage random net s w text in
  let asked :=
    ChatbotWidget.addMessage writable_session now_user text true ChatbotWidget.normal
      (ChatbotWidget.conversation w) in
  let call := ChatbotWidget.callAI asked storage random net text 0 s in
  ∃ response,
    match call.2 with
    | Js.Return reply => response = reply
    | Js.Throw error => response = ChatbotWidget.getErrorMessage error
    end
    ∧ ChatbotWidget.messageHistory (ChatbotWidget.conversation out.1.1.2)
      = ChatbotWidget.messageHistory (ChatbotWidget.conversation w)
        ++ [{| ChatbotWidget.text := text; ChatbotWidget.isUser := true;
               ChatbotWidget.timestamp := now_user |};
            {| ChatbotWidget.text := response; ChatbotWidget.isUser := false;
               ChatbotWidget.timestamp := now_bot |}]
    ∧ ChatbotWidget.isProcessing out.1.1.2 = false
    ∧ out.1.2 = [ChatbotWidget.AddMessage text true ChatbotWidget.normal;
                 ChatbotWidget.AddMessage response false ChatbotWidget.normal]
    ∧ out.2 = call.1.2
    ∧ out.1.1.1 = call.1.1
    ∧ (∀ req, ChatbotWidget.Fetch req ∈ out.2 →
         ChatbotWidget.req_message req = text
         ∧ ∃ earlier,
             ChatbotWidget.req_history req
             = earlier ++ [{| ChatbotWidget.role := "user";
                              ChatbotWidget.content := text |}])
    ∧ (∀ s1 error,
         ChatbotWidget.getSessionId (storage 0%nat) (random 0%nat) s
           = (s1, Js.Throw error) →
         out.2 = [] ∧ out.1.1.1 = s1
         ∧ response = ChatbotWidget.localize ChatbotWidget.errorMessages_default
                        ChatbotWidget.getCurrentLanguage).
Proof.
  intros Hb Hp Hlen Ha out asked call.
  assert (Hres : (ChatbotWidget.checkRateLimit writable_local now
                    (ChatbotWidget.rate_limit_item w)).2 = ChatbotWidget.Allowed).
  { destruct (ChatbotWidget.checkRateLimit writable_local now
                (ChatbotWidget.rate_limit_item w)) as [item [|]]; [done|discriminate]. }
  pose proof (sendMessage_admitted writable_local writable_session now now_user now_bot
                storage random net s w text Hb Hp Hlen Hres) as Hrun.
  cbv zeta in Hrun. fold asked in Hrun. fold call in Hrun. fold out in Hrun.
  exists (match call.2 with
          | Js.Return reply => reply
          | Js.Throw error => ChatbotWidget.getErrorMessage error
          end).
  split; [by destruct call.2|].
  rewrite Hrun. cbn [fst snd ChatbotWidget.conversation ChatbotWidget.isProcessing].
  rewrite addMessage_normal_history.
  split; [subst asked; by rewrite addMessage_normal_history, <- app_assoc|].
  split; [done|]. split; [done|]. split; [done|]. split; [done|]. split.
  - intros req Hreq.
    pose proof (callAI_requests asked storage random net text 0 s) as Hall.
    rewrite Forall_forall in Hall. destruct (Hall _ Hreq) as (id & ->).
    split; [reflexivity|]. apply payload_history_asked.
  - intros s1 error Hget. subst call.
    rewrite (callAI_no_session asked storage random net text 0 s s1 error Hget).
    cbn [fst snd]. split; [done|]. split; [done|].
    by apply getErrorMessage_storage with (storage 0%nat) (random 0%nat) s s1.
Qed.

(** X21 on a first message: answered by a proxy that replies, and on a
    page whose [sessionStorage] refuses writes. *)
Lemma widget_send_adds_question_and_answer_witness :
  let w := {| ChatbotWidget.conversation :=
                {| ChatbotWidget.messageHistory := [];
                   ChatbotWidget.chatbot_history := None |};
              ChatbotWidget.isProcessing := false;
              ChatbotWidget.rate_limit_item := ChatbotWidget.NoItem |} in
  let s := {| ChatbotWidget.sessionId := None; ChatbotWidget.chatbot_session_id := None |} in
  let open := fun _ : nat =>
    {| ChatbotWidget.can_read := true; ChatbotWidget.can_write := true |} in
  let full := fun _ : nat =>
    {| ChatbotWidget.can_read := true; ChatbotWidget.can_write := false |} in
  let random := fun _ _ : nat => 7 in
  let net := fun _ : nat =>
    ChatbotWidget.FetchResponse 200
      (Js.Return (Js.JObj [("response", Js.JStr "Hello!")])) in
  let out := ChatbotWidget.sendMessage true true true 1000 1001 1002
               open random net s w "hi" in
  let out' := ChatbotWidget.sendMessage true true false 1000 1001 1002
                full random net s w "hi" in
  (∃ response,
     ChatbotWidget.messageHistory (ChatbotWidget.conversation out.1.1.2)
       = [{| ChatbotWidget.text := "hi"; ChatbotWidget.isUser := true;
             ChatbotWidget.timestamp := 1001 |};
          {| ChatbotWidget.text := response; ChatbotWidget.isUser := false;
             ChatbotWidget.timestamp := 1002 |}]
     ∧ ChatbotWidget.isProcessing out.1.1.2 = false)
  ∧ out'.2 = []
  ∧ out'.1.2 = [ChatbotWidget.AddMessage "hi" true ChatbotWidget.normal;
                ChatbotWidget.AddMessage
                  (ChatbotWidget.localize ChatbotWidget.errorMessages_default
                     ChatbotWidget.getCurrentLanguage)
                  false ChatbotWidget.normal].
Proof.
  intros w s open full random net out out'.
  assert (Hb : Js.trim "hi" ≠ "") by discriminate.
  assert (Hl : (Js.strlen "hi" ≤ 450)%nat) by (vm_compute; lia).
  assert (Ha : ChatbotWidget.allowed
                 (ChatbotWidget.checkRateLimit true 1000
                    (ChatbotWidget.rate_limit_item w)).2 = true)
    by (vm_compute; reflexivity).
  split.
  - destruct (widget_send_adds_question_and_answer true true 1000 1001 1002
                open random net s w "hi" Hb eq_refl Hl Ha)
      as (response & _ & Hhist & Hbusy & _).
    exists response. split; [exact Hhist|exact Hbusy].
  - destruct (widget_send_adds_question_and_answer true false 1000 1001 1002
                full random net s w "hi" Hb eq_refl Hl Ha)
      as (response & _ & _ & _ & Hshown & _ & _ & _ & Hfull).
    destruct (Hfull {| ChatbotWidget.sessionId := Some "77777777-7777-4777-b777-777777777777";
                       ChatbotWidget.chatbot_session_id := None |}
                    ChatbotWidget.QuotaExceededError) as (Hnone & _ & Hdefault).
    { vm_compute. reflexivity. }
    split; [exact Hnone|]. fold out' in Hshown. rewrite Hshown, Hdefault. reflexivity.
Defined.

Section WidgetHistoryTexts.
Import Js ChatbotWidget.

Lemma trim_nonempty (s : string) : trim s ≠ "" → s ≠ "".
Proof. intros H ->. by apply H. Qed.

Lemma sendMessage_history USE_AI writable_local writable_session now now_user now_bot
    storage random net s w t :
  let out := sendMessage USE_AI writable_local writable_session
               now now_user now_bot storage random net s w t in
  out.1.1.2 = w
  ∨ ∃ response,
      response ≠ "" ∧ t ≠ ""
      ∧ messageHistory (conversation out.1.1.2)
        = messageHistory (conversation w)
          ++ [{| text := t; isUser := true; timestamp := now_user |};
              {| text := response; isUser := false; timestamp := now_bot |}].
Proof.
  intros out.
  pose proof (sendMessage_start_cases USE_AI writable_local writable_session
                now now_user now_bot w t) as Hcases.
  cbv zeta in Hcases.
  destruct Hcases as [[_ Hs]|[(_ & _ & _ & Hs)|[(_ & _ & _ & r & a & _ & Hs)
                                 |(Hb & Hp & Hlen & Ha & Hs)]]];
    try (left; subst out; unfold sendMessage; by rewrite Hs).
  right. destruct USE_AI.
  - pose proof (sendMessage_admitted writable_local writable_session now now_user now_bot
                  storage random net s w t Hb Hp Hlen Ha) as Hrun.
    cbv zeta in Hrun. fold out in Hrun.
    set (st1 := addMessage writable_session now_user t true normal (conversation w)) in *.
    destruct (callAI st1 storage random net t 0 s) as [[s' effects] result] eqn:Hcall.
    exists (match result with
            | Return response => response
            | Throw error => getErrorMessage error
            end).
    split; [|split; [by apply trim_nonempty|]].
    + destruct result as [response|error].
      * by apply (callAI_returns_nonempty st1 storage random net t s s' effects).
      * apply getErrorMessage_nonempty.
    + rewrite Hrun. cbn [fst snd conversation].
      rewrite addMessage_normal_history. subst st1.
      by rewrite addMessage_normal_history, <- app_assoc.
  - exists (localize fallbackResponses_services getCurrentLanguage).
    split; [discriminate|]. split; [by apply trim_nonempty|].
    subst out. unfold sendMessage. rewrite Hs. cbv beta iota zeta.
    unfold answer. cbn [fst snd conversation].
    by rewrite !addMessage_normal_history, <- app_assoc.
Qed.

(** The history sent to the proxy holds at most five entries, each with
    the role [user] or [assistant] and the text of its turn. *)
Lemma validateHistory_wire (h : list wire_turn) :
  Forall (fun t => (role t = "user" ∨ role t = "assistant") ∧ content t ≠ "") h →
  ChatbotProxy.validateHistory (wire_turn_json <$> h) = Return None.
Proof.
  induction h as [|t h IH]; [done|]. intros [[Hrole Hcontent] Hh]%Forall_cons.
  rewrite fmap_cons. simpl.
  apply String.eqb_neq in Hcontent.
  destruct Hrole as [Hr|Hr]; rewrite Hr; simpl; rewrite Hcontent; simpl; by apply IH.
Qed.

Lemma getHistoryForAPI_shape st :
  Forall (fun t => text t ≠ "") (messageHistory st) →
  (length (getHistoryForAPI st) ≤ 5)%nat
  ∧ Forall (fun t => (role t = "user" ∨ role t = "assistant") ∧ content t ≠ "")
           (getHistoryForAPI st).
Proof.
  intros Hall. unfold getHistoryForAPI. split.
  - rewrite length_fmap. apply slice_last_length.
  - apply Forall_fmap.
    destruct (slice_last_suffix MAX_HISTORY_LENGTH (messageHistory st)) as (older & Hl & _).
    rewrite Hl in Hall. apply Forall_app in Hall as [_ Hall].
    eapply Forall_impl; [exact Hall|]. intros t Ht. simpl.
    split; [destruct (isUser t); auto|exact Ht].
Qed.

End WidgetHistoryTexts.

(** X22.  No turn of the history gets an empty text from
    [sendMessage]: when every turn of the history has a text that is
    not empty, the same holds after the call, whatever the network
    and the storage do and whether or not AI is enabled.  The call
    leaves the widget as it was or adds the user's message and one
    answer. *)
Theorem widget_send_keeps_history_texts_nonempty
    (USE_AI writable_local writable_session : bool) (now now_user now_bot : Z)
    (storage : nat → ChatbotWidget.storage_access) (random : nat → nat → Z)
    (net : nat → ChatbotWidget.fetch_outcome)
    (s : ChatbotWidget.session) (w : ChatbotWidget.widget) (text : string) :
  let out := ChatbotWidget.sendMessage USE_AI writable_local writable_session
               now now_user now_bot storage random net s w text in
  Forall (fun t => ChatbotWidget.text t ≠ "")
         (ChatbotWidget.messageHistory (ChatbotWidget.conversation w)) →
  Forall (fun t => ChatbotWidget.text t ≠ "")
         (ChatbotWidget.messageHistory (ChatbotWidget.conversation out.1.1.2))
  ∧ (length (ChatbotWidget.messageHistory (ChatbotWidget.conversation out.1.1.2))
     = length (ChatbotWidget.messageHistory (ChatbotWidget.conversation w))
     ∨ length (ChatbotWidget.messageHistory (ChatbotWidget.conversation out.1.1.2))
       = (length (ChatbotWidget.messageHistory (ChatbotWidget.conversation w)) + 2)%nat).
Proof.
  intros out Hall.
  destruct (sendMessage_history USE_AI writable_local writable_session now now_user now_bot
              storage random net s w text) as [Hsame|(response & Hr & Ht & Hhist)];
    fold out in Hsame || fold out in Hhist.
  - rewrite Hsame. split; [exact Hall|by left].
  - rewrite Hhist. split.
    + apply Forall_app. split; [exact Hall|].
      apply Forall_cons. split; [exact Ht|]. by apply Forall_singleton.
    + right. rewrite length_app. simpl. lia.
Qed.

(** X22 on a first message whose request times out. *)
Lemma widget_send_keeps_history_texts_nonempty_witness :
  let w := {| ChatbotWidget.conversation :=
                {| ChatbotWidget.messageHistory := [];
                   ChatbotWidget.chatbot_history := None |};
              ChatbotWidget.isProcessing := false;
              ChatbotWidget.rate_limit_item := ChatbotWidget.NoItem |} in
  let s := {| ChatbotWidget.sessionId := None; ChatbotWidget.chatbot_session_id := None |} in
  let storage := fun _ : nat =>
    {| ChatbotWidget.can_read := true; ChatbotWidget.can_write := true |} in
  let random := fun _ _ : nat => 7 in
  let net := fun _ : nat => ChatbotWidget.FetchRejects Js.AbortError in
  let out := ChatbotWidget.sendMessage true true true 1000 1001 1002
               storage random net s w "hi" in
  Forall (fun t => ChatbotWidget.text t ≠ "")
         (ChatbotWidget.messageHistory (ChatbotWidget.conversation out.1.1.2)).
Proof.
  intros w s storage random net out.
  apply (widget_send_keeps_history_texts_nonempty true true true 1000 1001 1002
           storage random net s w "hi").
  apply Forall_nil_2.
Defined.

(** X23.  The widget and the chat proxy agree on what a request is: the
    body that [callAI] sends for a message that is not blank and has
    at most 450 characters, with a session id that is not empty and a
    history whose turns have texts that are not empty, passes the
    proxy's [validateInput].  The validated data hold the trimmed
    message, the language [ja], the session id and the whole history
    that was sent. *)
Theorem widget_request_passes_proxy_validation
    (sessionId : string) (st : ChatbotWidget.state) (text : string) :
  Js.trim text ≠ "" →
  (Js.strlen text ≤ 450)%nat →
  sessionId ≠ "" →
  Forall (fun t => ChatbotWidget.text t ≠ "") (ChatbotWidget.messageHistory st) →
  ChatbotProxy.validateInput
    (ChatbotWidget.request_json (ChatbotWidget.payload sessionId st text))
  = Js.Return
      (ChatbotProxy.Valid
         {| ChatbotProxy.d_message := Js.trim text;
            ChatbotProxy.d_language := "ja";
            ChatbotProxy.d_sessionId := sessionId;
            ChatbotProxy.d_history :=
              ChatbotWidget.wire_turn_json <$> ChatbotWidget.getHistoryForAPI st |}).
Proof.
  intros Hb Hlen Hs Hall.
  destruct (getHistoryForAPI_shape st Hall) as [Hfive Hshape].
  pose proof (trim_nonempty text Hb) as Ht.
  unfold ChatbotProxy.validateInput, ChatbotWidget.request_json, ChatbotWidget.payload.
  cbn [ChatbotWidget.req_message ChatbotWidget.req_language ChatbotWidget.req_sessionId
       ChatbotWidget.req_history ChatbotWidget.getCurrentLanguage
       Js.truthy Js.is_object Js.get Js.field String.eqb Ascii.eqb Bool.eqb
       mbind Js.completion_bind Js.bind negb orb Js.is_string Js.is_str Js.str_of].
  apply String.eqb_neq in Ht, Hs, Hb. rewrite Ht, Hs. cbn [negb orb].
  replace (ChatbotProxy.MAX_MESSAGE_LENGTH <? Js.strlen text)%nat with false
    by (symmetry; apply Nat.ltb_ge; unfold ChatbotProxy.MAX_MESSAGE_LENGTH; lia).
  replace (Js.strlen (Js.trim text) =? 0)%nat with false.
  2:{ symmetry. apply Nat.eqb_neq. intros E. apply strlen_zero in E.
      apply String.eqb_neq in Hb. done. }
  unfold ChatbotProxy.history_window.
  assert (Hwin : Js.slice_last ChatbotProxy.MAX_HISTORY_LENGTH
                   (ChatbotWidget.wire_turn_json <$> ChatbotWidget.getHistoryForAPI st)
                 = ChatbotWidget.wire_turn_json <$> ChatbotWidget.getHistoryForAPI st).
  { unfold Js.slice_last, ChatbotProxy.MAX_HISTORY_LENGTH. rewrite length_fmap.
    replace (length (ChatbotWidget.getHistoryForAPI st) - 5)%nat with 0%nat by lia.
    done. }
  rewrite Hwin, (validateHistory_wire _ Hshape). reflexivity.
Qed.

(** X23 on a second message of a conversation. *)
Lemma widget_request_passes_proxy_validation_witness :
  let st := {| ChatbotWidget.messageHistory :=
                 [{| ChatbotWidget.text := "hi"; ChatbotWidget.isUser := true;
                     ChatbotWidget.timestamp := 1001 |};
                  {| ChatbotWidget.text := "Hello!"; ChatbotWidget.isUser := false;
                     ChatbotWidget.timestamp := 1002 |}];
               ChatbotWidget.chatbot_history := None |} in
  ∃ data,
    ChatbotProxy.validateInput
      (ChatbotWidget.request_json (ChatbotWidget.payload "abc" st " what do you offer? "))
    = Js.Return (ChatbotProxy.Valid data)
    ∧ ChatbotProxy.d_message data = "what do you offer?"
    ∧ length (ChatbotProxy.d_history data) = 2%nat.
Proof.
  intros st. eexists. split.
  - apply (widget_request_passes_proxy_validation "abc" st " what do you offer? ").
    + discriminate.
    + vm_compute. lia.
    + discriminate.
    + repeat (apply Forall_cons; split; [discriminate|]). apply Forall_nil_2.
  - split; reflexivity.
Defined.

(** ** Reloading the conversation *)

Section WidgetReload.
Import Js ChatbotWidget.

Lemma slice_last_all {A} n (l : list A) : (length l ≤ n)%nat → slice_last n l = l.
Proof.
  intros H. unfold slice_last. by replace (length l - n)%nat with 0%nat by lia.
Qed.

Lemma slice_last_slice_last {A} n m (l : list A) :
  (n ≤ m)%nat → slice_last n (slice_last m l) = slice_last n l.
Proof.
  intros Hnm. destruct (le_lt_dec (length l) m) as [Hshort|Hlong].
  - by rewrite (slice_last_all m l Hshort).
  - destruct (slice_last_suffix m l) as (older & Hl & Hlen).
    rewrite Hl at 2. rewrite slice_last_app; [done|]. lia.
Qed.

Lemma slice_last_nil_iff {A} n (l : list A) :
  (0 < n)%nat → slice_last n l = [] ↔ l = [].
Proof.
  intros Hn. split; [|by intros ->].
  intros E. destruct (slice_last_suffix n l) as (older & Hl & Hlen).
  rewrite E in Hlen. simpl in Hlen. destruct l; [done|]. simpl in Hlen. lia.
Qed.

End WidgetReload.

(** X26.  A stored conversation survives a reload of the page up to
    its last 50 turns.  When the chat is opened on a fresh page, where
    the history is empty and storage holds what [storeConversation]
    wrote, the history becomes the last 50 turns of the old one, and
    the history sent to the proxy with the next message is the one the
    old page would have sent.  The greeting is asked for exactly when
    the old history was empty, and its timer does nothing to a history
    that is not empty. *)
Theorem widget_conversation_survives_reload (st : ChatbotWidget.state) :
  ChatbotWidget.chatbot_history st
    = Some (Js.slice_last 50 (ChatbotWidget.messageHistory st)) →
  let fresh := {| ChatbotWidget.messageHistory := [];
                  ChatbotWidget.chatbot_history := ChatbotWidget.chatbot_history st |} in
  let out := ChatbotWidget.toggleChatbot true false fresh in
  out.1.1 = true
  ∧ ChatbotWidget.messageHistory out.1.2 = Js.slice_last 50 (ChatbotWidget.messageHistory st)
  ∧ ChatbotWidget.getHistoryForAPI out.1.2 = ChatbotWidget.getHistoryForAPI st
  ∧ (out.2 = true ↔ ChatbotWidget.messageHistory st = [])
  ∧ (ChatbotWidget.messageHistory st ≠ [] →
     ∀ container writable now,
       ChatbotWidget.initGreeting container writable now out.1.2 = out.1.2).
Proof.
  intros Hstored fresh out. subst out fresh.
  unfold ChatbotWidget.toggleChatbot, ChatbotWidget.loadConversation.
  cbn [negb ChatbotWidget.messageHistory ChatbotWidget.chatbot_history length Nat.eqb].
  rewrite Hstored. cbn [fst snd ChatbotWidget.messageHistory].
  assert (Hempty : (length (Js.slice_last 50 (ChatbotWidget.messageHistory st)) =? 0)%nat
                   = true ↔ ChatbotWidget.messageHistory st = []).
  { rewrite Nat.eqb_eq, length_zero_iff_nil. apply slice_last_nil_iff. lia. }
  split; [done|]. split; [done|]. split.
  { unfold ChatbotWidget.getHistoryForAPI. cbn [ChatbotWidget.messageHistory].
    rewrite slice_last_slice_last; [done|].
    unfold ChatbotWidget.MAX_HISTORY_LENGTH. lia. }
  split; [exact Hempty|].
  intros Hne container writable now. unfold ChatbotWidget.initGreeting.
  cbn [ChatbotWidget.messageHistory].
  destruct (length (Js.slice_last 50 (ChatbotWidget.messageHistory st)) =? 0)%nat eqn:E.
  - destruct Hne. by apply Hempty.
  - by rewrite andb_false_r.
Qed.

(** X26 on a conversation of a greeting and one exchange. *)
Lemma widget_conversation_survives_reload_witness :
  let st := ChatbotWidget.addMessages true
              [(1000, "Hello!", false); (2000, "hi", true); (3000, "How can I help?", false)]
              {| ChatbotWidget.messageHistory := []; ChatbotWidget.chatbot_history := None |} in
  let fresh := {| ChatbotWidget.messageHistory := [];
                  ChatbotWidget.chatbot_history := ChatbotWidget.chatbot_history st |} in
  ChatbotWidget.getHistoryForAPI (ChatbotWidget.toggleChatbot true false fresh).1.2
    = ChatbotWidget.getHistoryForAPI st.
Proof.
  intros st fresh.
  assert (Hstored : ChatbotWidget.chatbot_history st
                    = Some (Js.slice_last 50 (ChatbotWidget.messageHistory st)))
    by reflexivity.
  exact (proj1 (proj2 (proj2 (widget_conversation_survives_reload st Hstored)))).
Defined.
